(** * RetailFlow POS: inventory / receipt consistency

    A shallow embedding of [src/pos_app.py] and the properties of its sale and
    return paths.

    - Python [int] is [Z]; Python [float] is the kernel's binary64 [float].
    - [POSApp.inventory] (a [dict]) is a [gmap string Item.t].
    - The SQLite database behind [SalesStore] is a record of its two tables and
      of the AUTOINCREMENT counter. What the [sqlite3] binding refuses to
      store (an [int] outside 64 bits, a NaN in a NOT NULL column) raises, and
      the transaction is rolled back. A REAL column gives back the float
      written to it, except that [-0.0] comes back as [0.0].
    - [input()] and [print()] act on a console: a list of pending input lines
      and the list of messages printed so far.
    - Exceptions are explicit: every method runs in a state-and-exception
      monad whose [Raise] outcome keeps the state reached when the exception
      left the method.
    - The [while True] loops run on fuel, one unit more than there are input
      lines left; each turn reads a line, so the fuel never runs out
      ([read_cash_spec], [start_sale_outcome], [tame_run]).
    - The users file and the inventory file read at start-up are the lists
      of rows [csv.DictReader] yields; the [csv] module itself is not
      modelled.
    - A [gmap] has no order. Where the program depends on the order of the
      [dict] [self.inventory] (only [demo] does), the order of its keys is
      passed in.

    The file has six parts: the program, the vocabulary of the properties,
    the lemmas, the claims with their worked scenarios, and then the lemmas
    and the theorems of further properties of the program: the receipt store
    on its own, start-up, login and the main menu, what the menus keep, the
    two menus line by line, and the demo. *)

From Stdlib Require Import ZArith Floats Lia Ascii String Sorted.
From stdpp Require Import base option list gmap strings.

Local Open Scope Z_scope.

(** ** Exceptions and the state-and-exception monad *)

Inductive Exn :=
| EOFError          (* input() on an exhausted console *)
| ValueError        (* int()/float() on a malformed string; "Receipt not found" *)
| IndexError        (* list index or pop out of range *)
| KeyError          (* dict lookup of a missing key *)
| OverflowError     (* int too large for float, or for an SQLite INTEGER *)
| IntegrityError    (* sqlite3: NOT NULL constraint failed *)
| OperationalError  (* sqlite3: database or disk is full *)
| Exhausted.        (* not a Python exception: the fuel of a modelled loop ran out *)

Inductive Res (St A : Type) :=
| Ok (a : A) (s : St)
| Raise (e : Exn) (s : St).
Arguments Ok {St A} a s.
Arguments Raise {St A} e s.

Definition M (St A : Type) : Type := St -> Res St A.

Definition ret {St A} (a : A) : M St A := fun s => Ok a s.

Definition bind {St A B} (m : M St A) (k : A -> M St B) : M St B :=
  fun s => match m s with
           | Ok a s' => k a s'
           | Raise e s' => Raise e s'
           end.

Definition raise {St A} (e : Exn) : M St A := fun s => Raise e s.

Definition get {St} : M St St := fun s => Ok s s.

Definition modify {St} (f : St -> St) : M St unit := fun s => Ok tt (f s).

Notation "'let*' x ':=' m 'in' k" := (bind m (fun x => k))
  (at level 10, x name, m at level 100, k at level 200).
Notation "m '>>' k" := (bind m (fun _ => k))
  (at level 65, right associativity).

(** [try: m  except <handles>: h]. The handler runs in the state the
    exception left behind. [Exhausted] is never caught. *)
Definition try_except {St A} (m : M St A) (handles : Exn -> bool) (h : M St A) : M St A :=
  fun s => match m s with
           | Ok a s' => Ok a s'
           | Raise e s' => if handles e then h s' else Raise e s'
           end.

Definition is_ValueError (e : Exn) : bool :=
  match e with ValueError => true | _ => false end.

(** [except Exception]: every Python exception of this model. *)
Definition is_Exception (e : Exn) : bool :=
  match e with Exhausted => false | _ => true end.

(** [for x in l: body x] *)
Fixpoint for_each {St A} (l : list A) (body : A -> M St unit) : M St unit :=
  match l with
  | [] => ret tt
  | x :: l' => body x >> for_each l' body
  end.

(** [while True: body], where the body either continues with a new loop
    state ([inl]) or leaves the loop ([inr]). *)
Fixpoint while_true {St A B} (fuel : nat) (body : A -> M St (A + B)) (a : A) : M St B :=
  match fuel with
  | O => raise Exhausted
  | S fuel' =>
      let* r := body a in
      match r with
      | inl a' => while_true fuel' body a'
      | inr b => ret b
      end
  end.

(** ** Data models *)

Module Item.

Record t := mk {
  upc : string;
  description : string;
  max_qty : Z;
  order_threshold : Z;
  replenishment_qty : Z;
  on_hand : Z;
  unit_price : float
}.

Definition update_on_hand (self : t) (delta : Z) : t :=
  {| upc := upc self;
     description := description self;
     max_qty := max_qty self;
     order_threshold := order_threshold self;
     replenishment_qty := replenishment_qty self;
     on_hand := on_hand self + delta;
     unit_price := unit_price self |}.

End Item.

Module SaleLine.

Record t := mk {
  upc : string;
  description : string;
  unit_price : float;
  qty : Z
}.

Definition with_qty (l : t) (q : Z) : t :=
  {| upc := upc l; description := description l;
     unit_price := unit_price l; qty := q |}.

End SaleLine.

(** ** Storage (SQLite) for receipts/sales *)

(** Values the [sqlite3] binding accepts for an INTEGER parameter. *)
Definition int64_max : Z := 9223372036854775807.
Definition sqlite_int (z : Z) : bool :=
  (- int64_max - 1 <=? z) && (z <=? int64_max).

Module SalesStore.

(** [receipts] is the table of that name, keyed by its primary key, with the
    [canceled] column as a boolean. [seq] is the AUTOINCREMENT counter SQLite
    keeps for it (the largest [receipt_no] ever assigned). [receipt_lines] is
    the table of that name in insertion order; it has no key, so it is a list
    of rows [(receipt_no, line)]. *)
Record t := mk {
  receipts : gmap Z bool;
  seq : Z;
  receipt_lines : list (Z * SaleLine.t)
}.

(** [_init_db] on a new database file: both tables exist and are empty. On an
    existing file [CREATE TABLE IF NOT EXISTS] changes nothing. *)
Definition _init_db : t := {| receipts := ∅; seq := 0; receipt_lines := [] |}.

(** [SalesStore(db_path)]: the database file as it is, or a new one when
    there is none yet. *)
Definition __init__ (db : option t) : t := default _init_db db.

Definition max_rowid (m : gmap Z bool) : Z :=
  foldr (fun kv acc => Z.max kv.1 acc) 0 (map_to_list m).

(** What binding and inserting one row of [receipt_lines] raises, if anything:
    [qty] must fit an SQLite INTEGER (checked when the parameters are bound);
    a NaN [unit_price] is stored as NULL and violates NOT NULL (when the
    statement runs). *)
Definition insert_error (l : SaleLine.t) : option Exn :=
  if negb (sqlite_int (SaleLine.qty l)) then Some OverflowError
  else if PrimFloat.is_nan (SaleLine.unit_price l) then Some IntegrityError
  else None.

(** [executemany] stops at the first row that raises. *)
Fixpoint executemany_error (lines : list SaleLine.t) : option Exn :=
  match lines with
  | [] => None
  | l :: lines' =>
      match insert_error l with
      | Some e => Some e
      | None => executemany_error lines'
      end
  end.

(** What a REAL column gives back for a float written to it. SQLite keeps a
    float that is a whole number as an integer and makes a float of it again
    when it is read, which loses the sign of a zero: [-0.0] comes back as
    [0.0]. Every other float that can be stored comes back as it was. *)
Definition sqlite_real (x : float) : float :=
  if (x =? 0)%float then 0%float else x.

(** A line as [receipt_lines] holds it, and as [get_receipt] reads it
    back. *)
Definition stored (l : SaleLine.t) : SaleLine.t :=
  {| SaleLine.upc := SaleLine.upc l;
     SaleLine.description := SaleLine.description l;
     SaleLine.unit_price := sqlite_real (SaleLine.unit_price l);
     SaleLine.qty := SaleLine.qty l |}.

(** An exception inside [with sqlite3.connect(...) as conn] rolls the
    transaction back, so a raising method leaves the database as it was. *)
Definition create_receipt (lines : list SaleLine.t) : M t Z :=
  fun s =>
    let last := Z.max (seq s) (max_rowid (receipts s)) in
    if int64_max <=? last then Raise OperationalError s
    else
      let receipt_no := last + 1 in
      match executemany_error lines with
      | Some e => Raise e s
      | None =>
          Ok receipt_no
             {| receipts := <[receipt_no := false]> (receipts s);
                seq := receipt_no;
                receipt_lines :=
                  receipt_lines s ++ ((fun l => (receipt_no, stored l)) <$> lines) |}
      end.

Definition lines_of (receipt_no : Z) (s : t) : list SaleLine.t :=
  snd <$> filter (fun r => r.1 = receipt_no) (receipt_lines s).

Definition get_receipt (receipt_no : Z) : M t (bool * list SaleLine.t) :=
  fun s =>
    if negb (sqlite_int receipt_no) then Raise OverflowError s
    else match receipts s !! receipt_no with
         | None => Raise ValueError s
         | Some canceled => Ok (canceled, lines_of receipt_no s) s
         end.

Definition set_canceled (receipt_no : Z) : M t unit :=
  fun s =>
    if negb (sqlite_int receipt_no) then Raise OverflowError s
    else Ok tt {| receipts := alter (fun _ => true) receipt_no (receipts s);
                  seq := seq s;
                  receipt_lines := receipt_lines s |}.

(** [WHERE receipt_no = ? AND upc = ?] *)
Definition selected (receipt_no : Z) (upc : string) (r : Z * SaleLine.t) : Prop :=
  r.1 = receipt_no /\ SaleLine.upc r.2 = upc.

#[export] Instance selected_dec receipt_no upc r : Decision (selected receipt_no upc r).
Proof. unfold selected. apply _. Defined.

Definition update_line_qty (receipt_no : Z) (upc : string) (new_qty : Z) : M t unit :=
  fun s =>
    if new_qty <=? 0 then
      if negb (sqlite_int receipt_no) then Raise OverflowError s
      else Ok tt {| receipts := receipts s;
                    seq := seq s;
                    receipt_lines :=
                      filter (fun r => ~ selected receipt_no upc r) (receipt_lines s) |}
    else
      if negb (sqlite_int new_qty && sqlite_int receipt_no) then Raise OverflowError s
      else Ok tt {| receipts := receipts s;
                    seq := seq s;
                    receipt_lines :=
                      (fun r => if decide (selected receipt_no upc r)
                                then (r.1, SaleLine.with_qty r.2 new_qty)
                                else r) <$> receipt_lines s |}.

End SalesStore.

(** ** Python built-ins and the console *)

(** The built-ins the program calls are kept abstract: [str.strip], [int]
    and [float] of a string, and [sum] of floats. Every theorem below holds
    whatever they compute. [None] stands for the [ValueError] that [int()]
    and [float()] raise on a malformed string. *)
Class Builtins := {
  str_strip : string -> string;
  int_of_str : string -> option Z;
  float_of_str : string -> option float;
  float_sum : list float -> float
}.

(** [float(n)] for an [int] [n], as the mixed product [float * int] computes
    it: rounded to nearest-even, [OverflowError] ([None]) when the result is
    not finite. *)
Definition float_of_int (n : Z) : option float :=
  let f := SF2Prim (binary_normalize prec emax n 0 false) in
  if PrimFloat.is_infinity f then None else Some f.

(** One constructor per [print] site (consecutive banner lines are one
    message); formatted numbers are kept as values. *)
Inductive Msg :=
| LoginBanner
| LoginSuccessful (user_id : string)
| WrongLogin (attempts_left : Z)
| LockedOut
| MainMenu
| Goodbye
| SaleMenu
| InventoryTable (inv : gmap string Item.t)
| UpcNotFound
| QtyMustBeNumber
| QtyMustBePositive
| RunningTotal (total : float)
| NoLinesToRemove
| SaleLineListing (i : Z) (l : SaleLine.t)
| InvalidSelection
| EmptySale
| TotalDue (total : float)
| InvalidCashAmount
| NotEnoughCash
| ReceiptAndChange (receipt_no : Z) (change : float)
| SaleCanceled
| InvalidOption
| InvalidReceiptNumber
| ReceiptNotFound
| AlreadyCanceled
| ReturnOptions
| FullReturnCompleted
| ReturnLineListing (i : Z) (l : SaleLine.t)
| InvalidInput
| InvalidReturnQuantity
| PartialReturnCompleted.

(** Python list indexing [l[idx]]: negative indices count from the end. *)
Definition py_index (len idx : Z) : option nat :=
  if (0 <=? idx) && (idx <? len) then Some (Z.to_nat idx)
  else if (- len <=? idx) && (idx <? 0) then Some (Z.to_nat (idx + len))
  else None.

Definition py_getitem {A} (l : list A) (idx : Z) : option A :=
  match py_index (Z.of_nat (length l)) idx with
  | Some i => l !! i
  | None => None
  end.

(** [l.pop(idx)] as the list that is left. *)
Definition py_pop {A} (l : list A) (idx : Z) : option (list A) :=
  match py_index (Z.of_nat (length l)) idx with
  | Some i => Some (delete i l)
  | None => None
  end.

(** ** POS App *)

Module POSApp.

(** [inventory_csv] is the content of the file of that name: the item table
    as last written by [save_inventory]. *)
Record t := mk {
  users : gmap string string;
  inventory : gmap string Item.t;
  inventory_csv : gmap string Item.t;
  sales_store : SalesStore.t
}.

Record World := {
  app : t;
  stdin : list string;
  stdout : list Msg
}.

Definition set_inventory (inv : gmap string Item.t) (p : t) : t :=
  {| users := users p; inventory := inv;
     inventory_csv := inventory_csv p; sales_store := sales_store p |}.

Definition set_sales_store (s : SalesStore.t) (p : t) : t :=
  {| users := users p; inventory := inventory p;
     inventory_csv := inventory_csv p; sales_store := s |}.

Definition set_app (p : t) (w : World) : World :=
  {| app := p; stdin := stdin w; stdout := stdout w |}.

Definition set_stdin (i : list string) (w : World) : World :=
  {| app := app w; stdin := i; stdout := stdout w |}.

Definition put_msg (m : Msg) (w : World) : World :=
  {| app := app w; stdin := stdin w; stdout := stdout w ++ [m] |}.

(** [input(prompt)]: the next console line, [EOFError] when there is none.
    Prompts are not recorded. *)
Definition input : M World string :=
  fun w => match stdin w with
           | [] => Raise EOFError w
           | s :: rest => Ok s (set_stdin rest w)
           end.

Definition print (m : Msg) : M World unit := modify (put_msg m).

(** A method of [self.sales_store] called from a [POSApp] method, and a
    console-free [POSApp] method called from an interactive one. *)
Definition on_store {A} (m : M SalesStore.t A) : M t A :=
  fun p => match m (sales_store p) with
           | Ok a s => Ok a (set_sales_store s p)
           | Raise e s => Raise e (set_sales_store s p)
           end.

Definition on_app {A} (m : M t A) : M World A :=
  fun w => match m (app w) with
           | Ok a p => Ok a (set_app p w)
           | Raise e p => Raise e (set_app p w)
           end.

(** [self.inventory[upc].update_on_hand(delta)] *)
Definition update_on_hand (upc : string) (delta : Z) : M t unit :=
  fun p => match inventory p !! upc with
           | None => Raise KeyError p
           | Some it =>
               Ok tt (set_inventory (<[upc := Item.update_on_hand it delta]> (inventory p)) p)
           end.

Definition save_inventory : M t unit :=
  modify (fun p => {| users := users p; inventory := inventory p;
                      inventory_csv := inventory p; sales_store := sales_store p |}).

Definition show_inventory : M World unit :=
  let* w := get in print (InventoryTable (inventory (app w))).

(** The products [l.unit_price * l.qty] in line order; [None] when some
    [qty] is too large for a float. *)
Fixpoint line_totals (lines : list SaleLine.t) : option (list float) :=
  match lines with
  | [] => Some []
  | l :: lines' =>
      match float_of_int (SaleLine.qty l) with
      | None => None
      | Some q =>
          match line_totals lines' with
          | None => None
          | Some xs => Some ((SaleLine.unit_price l * q)%float :: xs)
          end
      end
  end.

(** [for i, l in enumerate(lines, start=1): print(...)] *)
Fixpoint print_lines (line_msg : Z -> SaleLine.t -> Msg) (i : Z) (lines : list SaleLine.t)
  : M World unit :=
  match lines with
  | [] => ret tt
  | l :: lines' => print (line_msg i l) >> print_lines line_msg (i + 1) lines'
  end.

Section Interactive.
Context `{Builtins}.

(** [sum(l.unit_price * l.qty for l in lines)]: the value, or [None] for
    the [OverflowError] of a product. *)
Definition total_of (lines : list SaleLine.t) : option float :=
  match line_totals lines with
  | Some xs => Some (float_sum xs)
  | None => None
  end.

Definition calc_total {St} (lines : list SaleLine.t) : M St float :=
  match total_of lines with
  | Some total => ret total
  | None => raise OverflowError
  end.

(** [int(input(...))] and [float(input(...))] *)
Definition int_input : M World Z :=
  let* s := input in
  match int_of_str s with
  | None => raise ValueError
  | Some n => ret n
  end.

Definition float_input : M World float :=
  let* s := input in
  match float_of_str s with
  | None => raise ValueError
  | Some x => ret x
  end.

(** [try: x = m  except <handles>: print(msg); <leave>]: [None] when the
    handler ran. *)
Definition try_or_print {A} (m : M World A) (handles : Exn -> bool) (msg : Msg)
  : M World (option A) :=
  try_except (let* x := m in ret (Some x)) handles (print msg >> ret None).

(** One turn of the [while True] loop that asks for the cash received. *)
Definition cash_iter (total : float) (_ : unit) : M World (unit + float) :=
  let* r := try_or_print float_input is_ValueError InvalidCashAmount in
  match r with
  | None => ret (inl tt)
  | Some cash =>
      if (cash <? total)%float then print NotEnoughCash >> ret (inl tt)
      else ret (inr cash)
  end.

Definition read_cash (total : float) : M World float :=
  let* w := get in
  while_true (S (length (stdin w))) (cash_iter total) tt.

(** The body of [elif choice == "3"]. *)
Definition checkout (sale_lines : list SaleLine.t) : M World unit :=
  match sale_lines with
  | [] => print EmptySale
  | _ :: _ =>
      let* total := calc_total sale_lines in
      print (TotalDue total) >>
      let* cash := read_cash total in
      (* update inventory *)
      for_each sale_lines
        (fun l => on_app (update_on_hand (SaleLine.upc l) (- SaleLine.qty l))) >>
      let* receipt_no := on_app (on_store (SalesStore.create_receipt sale_lines)) in
      let change := (cash - total)%float in
      print (ReceiptAndChange receipt_no change) >>
      (* optional: persist inventory updates *)
      on_app save_inventory
  end.

(** The body of [if choice == "1"]. *)
Definition add_item (sale_lines : list SaleLine.t) : M World (list SaleLine.t) :=
  show_inventory >>
  let* s := input in
  let upc := str_strip s in
  let* w := get in
  match inventory (app w) !! upc with
  | None => print UpcNotFound >> ret sale_lines
  | Some item =>
      let* r := try_or_print int_input is_ValueError QtyMustBeNumber in
      match r with
      | None => ret sale_lines
      | Some qty =>
          if qty <=? 0 then print QtyMustBePositive >> ret sale_lines
          else
            let sale_lines' :=
              sale_lines ++ [SaleLine.mk (Item.upc item) (Item.description item)
                                         (Item.unit_price item) qty] in
            let* total := calc_total sale_lines' in
            print (RunningTotal total) >> ret sale_lines'
      end
  end.

(** The body of [elif choice == "2"]. *)
Definition remove_item (sale_lines : list SaleLine.t) : M World (list SaleLine.t) :=
  match sale_lines with
  | [] => print NoLinesToRemove >> ret sale_lines
  | _ :: _ =>
      print_lines SaleLineListing 1 sale_lines >>
      let* r :=
        try_or_print
          (let* n := int_input in
           match py_pop sale_lines (n - 1) with
           | None => raise IndexError
           | Some rest => ret rest
           end)
          is_Exception InvalidSelection in
      let sale_lines' := default sale_lines r in
      let* total := calc_total sale_lines' in
      print (RunningTotal total) >> ret sale_lines'
  end.

(** One turn of the sale menu: [inl] goes round the loop again with the
    sale lines so far, [inr] is [return]. *)
Definition sale_iter (sale_lines : list SaleLine.t) : M World (list SaleLine.t + unit) :=
  print SaleMenu >>
  let* s := input in
  let choice := str_strip s in
  if decide (choice = "1") then
    let* sale_lines' := add_item sale_lines in ret (inl sale_lines')
  else if decide (choice = "2") then
    let* sale_lines' := remove_item sale_lines in ret (inl sale_lines')
  else if decide (choice = "3") then
    checkout sale_lines >> ret (inr tt)
  else if decide (choice = "0") then
    print SaleCanceled >> ret (inr tt)
  else
    print InvalidOption >> ret (inl sale_lines).

Definition start_sale : M World unit :=
  let* w := get in
  while_true (S (length (stdin w))) sale_iter [].

(** The two return paths of [process_return], after the receipt was read. *)
Definition return_all (receipt_no : Z) (lines : list SaleLine.t) : M World unit :=
  for_each lines
    (fun l => on_app (update_on_hand (SaleLine.upc l) (SaleLine.qty l))) >>
  on_app (on_store (SalesStore.set_canceled receipt_no)) >>
  on_app save_inventory >>
  print FullReturnCompleted.

Definition return_one (receipt_no : Z) (lines : list SaleLine.t) : M World unit :=
  print_lines ReturnLineListing 1 lines >>
  let* r :=
    try_or_print
      (let* n := int_input in
       match py_getitem lines (n - 1) with
       | None => raise IndexError
       | Some line => let* return_qty := int_input in ret (line, return_qty)
       end)
      is_Exception InvalidInput in
  match r with
  | None => ret tt
  | Some (line, return_qty) =>
      if (return_qty <=? 0) || (SaleLine.qty line <? return_qty)
      then print InvalidReturnQuantity
      else
        (* inventory gets stock back *)
        on_app (update_on_hand (SaleLine.upc line) return_qty) >>
        (* update receipt line qty *)
        let new_qty := SaleLine.qty line - return_qty in
        on_app (on_store (SalesStore.update_line_qty receipt_no (SaleLine.upc line) new_qty)) >>
        on_app save_inventory >>
        print PartialReturnCompleted
  end.

Definition process_return : M World unit :=
  let* r := try_or_print int_input is_ValueError InvalidReceiptNumber in
  match r with
  | None => ret tt
  | Some receipt_no =>
      let* r := try_or_print (on_app (on_store (SalesStore.get_receipt receipt_no)))
                             is_ValueError ReceiptNotFound in
      match r with
      | None => ret tt
      | Some (canceled, lines) =>
          if canceled : bool then print AlreadyCanceled
          else
            print ReturnOptions >>
            let* s := input in
            let choice := str_strip s in
            if decide (choice = "1") then return_all receipt_no lines
            else if decide (choice = "2") then return_one receipt_no lines
            else print InvalidOption
      end
  end.

(** One turn of the [while tries < MAX_TRIES] loop of [login]: [inr] is the
    value [login] returns. *)
Definition login_iter (tries : Z) : M World (Z + bool) :=
  let MAX_TRIES := 3 in
  if tries <? MAX_TRIES then
    print LoginBanner >>
    let* s := input in
    let user_id := str_strip s in
    let* s := input in
    let password := str_strip s in
    let* w := get in
    if decide (users (app w) !! user_id = Some password)
    then print (LoginSuccessful user_id) >> ret (inr true)
    else
      let tries := tries + 1 in
      print (WrongLogin (MAX_TRIES - tries)) >> ret (inl tries)
  else print LockedOut >> ret (inr false).

Definition login : M World bool := while_true 4 login_iter 0.

(** One turn of the main menu. *)
Definition run_iter (_ : unit) : M World (unit + unit) :=
  print MainMenu >>
  let* s := input in
  let choice := str_strip s in
  if decide (choice = "1") then start_sale >> ret (inl tt)
  else if decide (choice = "2") then show_inventory >> ret (inl tt)
  else if decide (choice = "3") then process_return >> ret (inl tt)
  else if decide (choice = "0") then print Goodbye >> ret (inr tt)
  else print InvalidOption >> ret (inl tt).

Definition run : M World unit :=
  let* ok := login in
  if ok : bool then
    let* w := get in
    while_true (S (length (stdin w))) run_iter tt
  else ret tt.

End Interactive.

(** ** Start-up: the two CSV files and the constructor *)

(** A row as [csv.DictReader] yields it: the value under each column name of
    the header, [None] (the reader's [restval]) where the line was too
    short. A file is the list of its rows. *)
Definition Row : Type := gmap string (option string).

Section Startup.
Context `{Builtins}.

(** [row[name].strip()], and [None] when that raises: [KeyError] for a
    column the header lacks, [AttributeError] for the [None] of a short
    line. *)
Definition stripped (row : Row) (name : string) : option string :=
  match row !! name with
  | Some (Some s) => Some (str_strip s)
  | _ => None
  end.

(** The [try] block of [load_inventory]: the item a row describes, [None]
    when the block raises. *)
Definition row_item (row : Row) : option Item.t :=
  upc ← stripped row "Item_UPC";
  desc ← stripped row "Item_Description";
  max_qty ← stripped row "Item_Max_Qty" ≫= int_of_str;
  threshold ← stripped row "Item_Order_Threshold" ≫= int_of_str;
  repl ← stripped row "Item_Replenishment_Order_Qty" ≫= int_of_str;
  on_hand ← stripped row "Item_On_Hand" ≫= int_of_str;
  price ← stripped row "Item_Unit_Price" ≫= float_of_str;
  Some (Item.mk upc desc max_qty threshold repl on_hand price).

Definition load_inventory (rows : list Row) : gmap string Item.t :=
  foldl (fun inv row =>
           match row_item row with
           | None => inv   (* keep it simple: skip bad row *)
           | Some it => <[Item.upc it := it]> inv
           end)
        ∅ rows.

(** [load_users] has no [try]: [None] when some row raises. *)
Definition load_users (rows : list Row) : option (gmap string string) :=
  foldl (fun acc row =>
           users ← acc;
           password ← stripped row "Password";
           user_id ← stripped row "User_ID";
           Some (<[user_id := password]> users))
        (Some ∅) rows.

(** [POSApp(users_csv, inventory_csv, db_path)], given what the three files
    hold. The inventory file is seen through [load_inventory]: right after
    start-up it holds the table that was read from it. *)
Definition __init__ (users_csv inventory_csv : list Row) (db : option SalesStore.t)
  : option t :=
  users ← load_users users_csv;
  let inventory := load_inventory inventory_csv in
  Some {| users := users;
          inventory := inventory;
          inventory_csv := inventory;
          sales_store := SalesStore.__init__ db |}.

End Startup.

(** ** The non-interactive demo *)

(** One constructor per [print] site of [demo]. *)
Inductive DemoMsg :=
| DemoMode
| SampleCount (n : nat)
| SampleItem (it : Item.t)
| DemoOutOfStock
| DemoSale (qty : Z) (description : string) (total cash change : float)
| DemoReceipt (receipt_no : Z)
| DemoReturn (description : string) (receipt_no : Z)
| DemoComplete.

(** [demo] reads no input: its world is the application and what it
    printed. *)
Record DemoWorld := {
  demo_app : t;
  demo_out : list DemoMsg
}.

Definition demo_print (m : DemoMsg) : M DemoWorld unit :=
  modify (fun w => {| demo_app := demo_app w; demo_out := demo_out w ++ [m] |}).

Definition on_demo_app {A} (m : M t A) : M DemoWorld A :=
  fun w => match m (demo_app w) with
           | Ok a p => Ok a {| demo_app := p; demo_out := demo_out w |}
           | Raise e p => Raise e {| demo_app := p; demo_out := demo_out w |}
           end.

Section Demo.
Context `{Builtins}.

(** [order] is the order in which the [dict] [self.inventory] yields its
    keys (a [gmap] has none), so that [list(self.inventory.values())] is the
    items under these keys. *)
Definition demo (order : list string) : M DemoWorld unit :=
  demo_print DemoMode >>
  let* w := get in
  let values := omap (fun upc => inventory (demo_app w) !! upc) order in
  let sample := take 3 values in
  demo_print (SampleCount (length sample)) >>
  for_each sample (fun it => demo_print (SampleItem it)) >>
  match values with
  | [] => raise IndexError
  | first :: _ =>
      let qty := 1 in
      if Item.on_hand first <=? 0 then demo_print DemoOutOfStock
      else
        let line := SaleLine.mk (Item.upc first) (Item.description first)
                                (Item.unit_price first) qty in
        let* total := calc_total [line] in
        let cash := (total + 1)%float in
        let change := (cash - total)%float in
        on_demo_app (update_on_hand (Item.upc first) (- qty)) >>
        let* receipt_no := on_demo_app (on_store (SalesStore.create_receipt [line])) in
        on_demo_app save_inventory >>
        demo_print (DemoSale qty (Item.description first) total cash change) >>
        demo_print (DemoReceipt receipt_no) >>
        on_demo_app (update_on_hand (Item.upc first) 1) >>
        on_demo_app (on_store (SalesStore.update_line_qty receipt_no (Item.upc first) 0)) >>
        on_demo_app save_inventory >>
        demo_print (DemoReturn (Item.description first) receipt_no) >>
        demo_print DemoComplete
  end.

End Demo.

End POSApp.

(** ** A concrete console for worked scenarios

    An instance of [Builtins] that agrees with Python on the inputs the
    scenarios below type: ASCII whitespace around an optionally signed run of
    decimal digits, with an optional fraction for floats. A whole number is
    rounded to nearest-even like [float_of_int]; a fraction [m / 10^k] with
    [m < 2^53] and [k <= 22] is one correctly rounded division. On any other
    string (exponents, underscores, "inf", "nan", ...) this instance answers
    [None]; the scenarios do not use such inputs. [sum] adds from left to
    right starting at [0]; the sums of the scenarios are exact, so a
    compensated summation returns the same floats. *)
Module Console.

Definition is_space (a : ascii) : bool :=
  let n := N_of_ascii a in
  ((9 <=? n) && (n <=? 13) || (28 <=? n) && (n <=? 32))%N.

Fixpoint lstrip (l : list ascii) : list ascii :=
  match l with
  | a :: l' => if is_space a then lstrip l' else l
  | [] => []
  end.

Definition strip (s : string) : string :=
  string_of_list_ascii
    (rev (lstrip (rev (lstrip (list_ascii_of_string s))))).

Definition digit (a : ascii) : option Z :=
  let n := Z.of_N (N_of_ascii a) in
  if (48 <=? n) && (n <=? 57) then Some (n - 48) else None.

(** The digits of [l] read after [acc]; [None] if some character is not a
    digit. *)
Fixpoint digits (acc : Z) (l : list ascii) : option Z :=
  match l with
  | [] => Some acc
  | a :: l' =>
      match digit a with
      | Some d => digits (10 * acc + d) l'
      | None => None
      end
  end.

Definition number (l : list ascii) : option Z :=
  match l with
  | [] => None
  | _ :: _ => digits 0 l
  end.

(** An optional sign, then the rest. *)
Definition signed (l : list ascii) : bool * list ascii :=
  match l with
  | "-"%char :: l' => (true, l')
  | "+"%char :: l' => (false, l')
  | _ => (false, l)
  end.

Definition int (s : string) : option Z :=
  let '(neg, l) := signed (list_ascii_of_string (strip s)) in
  match number l with
  | Some n => Some (if neg then - n else n)
  | None => None
  end.

Fixpoint split_dot (l : list ascii) : list ascii * option (list ascii) :=
  match l with
  | [] => ([], None)
  | "."%char :: l' => ([], Some l')
  | a :: l' => let '(whole, frac) := split_dot l' in (a :: whole, frac)
  end.

Definition nearest (n : Z) : float := SF2Prim (binary_normalize prec emax n 0 false).

Definition unsigned_float (l : list ascii) : option float :=
  match split_dot l with
  | (whole, None) =>
      match number whole with
      | Some n => Some (nearest n)
      | None => None
      end
  | (whole, Some frac) =>
      match number (whole ++ frac) with
      | Some m =>
          let k := Z.of_nat (length frac) in
          if (m <? 2 ^ 53) && (k <=? 22) then Some (nearest m / nearest (10 ^ k))%float
          else None
      | None => None
      end
  end.

Definition float (s : string) : option PrimFloat.float :=
  let '(neg, l) := signed (list_ascii_of_string (strip s)) in
  match unsigned_float l with
  | Some x => Some (if neg then (- x)%float else x)
  | None => None
  end.

Definition sum (xs : list PrimFloat.float) : PrimFloat.float :=
  fold_left (fun acc x => acc + x)%float xs 0%float.

Definition builtins : Builtins :=
  {| str_strip := strip; int_of_str := int; float_of_str := float;
     float_sum := sum |}.

End Console.

(** * Vocabulary of the properties *)

Import POSApp.

(** ** Units sold and stock levels *)

(** The sum of [g l] over the lines [l] of item [u]. *)
Definition units_with (g : SaleLine.t -> Z) (u : string) (lines : list SaleLine.t) : Z :=
  foldr (fun l acc => if decide (SaleLine.upc l = u) then g l + acc else acc) 0 lines.

Definition units : string -> list SaleLine.t -> Z := units_with SaleLine.qty.

Definition total_units (lines : list SaleLine.t) : Z :=
  foldr (fun l acc => SaleLine.qty l + acc) 0 lines.

(** Every item [u] moved by [d u]. *)
Definition shift_stock (d : string -> Z) (inv : gmap string Item.t) : gmap string Item.t :=
  map_imap (fun u it => Some (Item.update_on_hand it (d u))) inv.

(** All units on hand, over the whole inventory. *)
Definition stock (inv : gmap string Item.t) : Z :=
  map_fold (fun _ it acc => Item.on_hand it + acc) 0 inv.

Definition known (inv : gmap string Item.t) (l : SaleLine.t) : Prop :=
  is_Some (inv !! SaleLine.upc l).

Definition sold (lines : list SaleLine.t) (inv : gmap string Item.t) : gmap string Item.t :=
  shift_stock (fun u => - units u lines) inv.

Definition restocked (lines : list SaleLine.t) (inv : gmap string Item.t)
  : gmap string Item.t :=
  shift_stock (fun u => units u lines) inv.

Definition move_stock (g : SaleLine.t -> Z) (l : SaleLine.t) : M World unit :=
  on_app (update_on_hand (SaleLine.upc l) (g l)).

(** ** States of the receipt store *)

Definition last_rowid (s : SalesStore.t) : Z :=
  Z.max (SalesStore.seq s) (SalesStore.max_rowid (SalesStore.receipts s)).

Definition with_receipt (receipt_no : Z) (lines : list SaleLine.t) (s : SalesStore.t)
  : SalesStore.t :=
  {| SalesStore.receipts := <[receipt_no := false]> (SalesStore.receipts s);
     SalesStore.seq := receipt_no;
     SalesStore.receipt_lines :=
       SalesStore.receipt_lines s
       ++ ((fun l => (receipt_no, SalesStore.stored l)) <$> lines) |}.

Definition canceled_store (receipt_no : Z) (s : SalesStore.t) : SalesStore.t :=
  {| SalesStore.receipts := alter (fun _ => true) receipt_no (SalesStore.receipts s);
     SalesStore.seq := SalesStore.seq s;
     SalesStore.receipt_lines := SalesStore.receipt_lines s |}.

(** The rows of [receipt_lines] after [update_line_qty]. *)
Definition rows_updated (receipt_no : Z) (upc : string) (new_qty : Z)
    (rows : list (Z * SaleLine.t)) : list (Z * SaleLine.t) :=
  if new_qty <=? 0 then filter (fun r => ~ SalesStore.selected receipt_no upc r) rows
  else (fun r => if decide (SalesStore.selected receipt_no upc r)
                 then (r.1, SaleLine.with_qty r.2 new_qty) else r) <$> rows.

Definition line_updated (receipt_no : Z) (upc : string) (new_qty : Z) (s : SalesStore.t)
  : SalesStore.t :=
  {| SalesStore.receipts := SalesStore.receipts s;
     SalesStore.seq := SalesStore.seq s;
     SalesStore.receipt_lines :=
       rows_updated receipt_no upc new_qty (SalesStore.receipt_lines s) |}.

(** The lines of a receipt after [update_line_qty] for item [upc]: every
    line of that item is dropped, or has its quantity overwritten. *)
Definition lines_with_qty (upc : string) (new_qty : Z) (lines : list SaleLine.t)
  : list SaleLine.t :=
  if new_qty <=? 0 then filter (fun l => SaleLine.upc l <> upc) lines
  else (fun l => if decide (SaleLine.upc l = upc)
                 then SaleLine.with_qty l new_qty else l) <$> lines.

(** A call to the store, and the receipt number it hands out, if any. *)
Inductive store_call :=
| call_create_receipt (lines : list SaleLine.t)
| call_get_receipt (receipt_no : Z)
| call_set_canceled (receipt_no : Z)
| call_update_line_qty (receipt_no : Z) (upc : string) (new_qty : Z).

Definition call (c : store_call) : M SalesStore.t (option Z) :=
  match c with
  | call_create_receipt lines =>
      let* receipt_no := SalesStore.create_receipt lines in ret (Some receipt_no)
  | call_get_receipt receipt_no => SalesStore.get_receipt receipt_no >> ret None
  | call_set_canceled receipt_no => SalesStore.set_canceled receipt_no >> ret None
  | call_update_line_qty receipt_no upc new_qty =>
      SalesStore.update_line_qty receipt_no upc new_qty >> ret None
  end.

(** The receipt numbers a sequence of calls hands out, in order. A call that
    raises hands out none and the next call finds the store as it was. *)
Fixpoint assigned (calls : list store_call) (s : SalesStore.t) : list Z :=
  match calls with
  | [] => []
  | c :: calls' =>
      match call c s with
      | Ok (Some receipt_no) s' => receipt_no :: assigned calls' s'
      | Ok None s' | Raise _ s' => assigned calls' s'
      end
  end.

(** ** States of the application *)

(** The application state after a committed sale: stock moved, receipt
    stored, inventory file rewritten. *)
Definition committed (lines : list SaleLine.t) (s' : SalesStore.t) (p : POSApp.t)
  : POSApp.t :=
  {| users := users p;
     inventory := sold lines (inventory p);
     inventory_csv := sold lines (inventory p);
     sales_store := s' |}.

(** The application state after a full return and after a partial one. *)
Definition returned_all (receipt_no : Z) (lines : list SaleLine.t) (p : POSApp.t)
  : POSApp.t :=
  {| users := users p;
     inventory := restocked lines (inventory p);
     inventory_csv := restocked lines (inventory p);
     sales_store := canceled_store receipt_no (sales_store p) |}.

Definition returned_one (receipt_no : Z) (line : SaleLine.t) (return_qty : Z)
    (it : Item.t) (p : POSApp.t) : POSApp.t :=
  let inv' := <[SaleLine.upc line := Item.update_on_hand it return_qty]> (inventory p) in
  {| users := users p;
     inventory := inv';
     inventory_csv := inv';
     sales_store :=
       line_updated receipt_no (SaleLine.upc line) (SaleLine.qty line - return_qty)
                    (sales_store p) |}.

(** Items are filed under their own UPC. *)
Definition filed_by_upc (inv : gmap string Item.t) : Prop :=
  forall k it, inv !! k = Some it -> Item.upc it = k.

(** *** Well-formed states

    What [load_inventory] and the program's own writes guarantee: items are
    filed under their own UPC; receipt numbers fit an SQLite INTEGER; every
    row of [receipt_lines] belongs to a receipt, names an item of the
    inventory, and has a positive quantity that fits an SQLite INTEGER. *)
Record wf (p : POSApp.t) : Prop := {
  wf_upc : filed_by_upc (inventory p);
  wf_rowid : forall k c,
    SalesStore.receipts (sales_store p) !! k = Some c -> sqlite_int k = true;
  wf_owned : forall n l,
    (n, l) ∈ SalesStore.receipt_lines (sales_store p) ->
    is_Some (SalesStore.receipts (sales_store p) !! n);
  wf_known : forall n l,
    (n, l) ∈ SalesStore.receipt_lines (sales_store p) -> known (inventory p) l;
  wf_qty : forall n l,
    (n, l) ∈ SalesStore.receipt_lines (sales_store p) ->
    0 < SaleLine.qty l <= int64_max
}.

(** What [add_item] lets onto a sale: an item of the inventory, in a
    positive quantity. *)
Definition sellable (inv : gmap string Item.t) (l : SaleLine.t) : Prop :=
  known inv l /\ 0 < SaleLine.qty l.

(** What a line must satisfy for a return from it to go through. *)
Definition returnable (inv : gmap string Item.t) (l : SaleLine.t) : Prop :=
  known inv l /\ 0 < SaleLine.qty l <= int64_max.

(** The effect of a return on the application state: none, a full return of
    the receipt, or a partial return from one of its lines. *)
Inductive return_effect (receipt_no : Z) (lines : list SaleLine.t) (p : POSApp.t)
  : POSApp.t -> Prop :=
| effect_none : return_effect receipt_no lines p p
| effect_all :
    return_effect receipt_no lines p (returned_all receipt_no lines p)
| effect_one line return_qty it :
    line ∈ lines ->
    0 < return_qty <= SaleLine.qty line ->
    inventory p !! SaleLine.upc line = Some it ->
    return_effect receipt_no lines p (returned_one receipt_no line return_qty it p).

Definition non_negative (inv : gmap string Item.t) : Prop :=
  forall u it, inv !! u = Some it -> 0 <= Item.on_hand it.

(** Either both halves of the commit happened, or neither did. *)
Definition both_or_neither (lines : list SaleLine.t) (p p' : POSApp.t) : Prop :=
  (inventory p' = inventory p /\ sales_store p' = sales_store p) \/
  (inventory p' = sold lines (inventory p) /\
   exists receipt_no, sales_store p' = with_receipt receipt_no lines (sales_store p)).

(** ** The console *)

(** The messages of [for i, l in enumerate(lines, start=i)]. *)
Fixpoint listing (line_msg : Z -> SaleLine.t -> Msg) (i : Z) (lines : list SaleLine.t)
  : list Msg :=
  match lines with
  | [] => []
  | l :: lines' => line_msg i l :: listing line_msg (i + 1) lines'
  end.

Definition put_msgs (ms : list Msg) (w : World) : World :=
  {| app := app w; stdin := stdin w; stdout := stdout w ++ ms |}.

(** A step that leaves the application alone and does not add console
    input. *)
Definition console_only {A} (w : World) (r : Res World A) : Prop :=
  match r with
  | Ok _ w' => app w' = app w /\ (length (stdin w') <= length (stdin w))%nat
  | Raise e w' => e <> Exhausted /\ app w' = app w
  end.

(** ** The total in the words of the spec *)

(** [float(n)] when it does not overflow. *)
Definition nearest_float (n : Z) : float :=
  SF2Prim (binary_normalize prec emax n 0 false).

(** The summands of the total in the spec's words: [unit_price * qty] for
    every line, in line order. *)
Definition products (lines : list SaleLine.t) : list float :=
  (fun l => SaleLine.unit_price l * nearest_float (SaleLine.qty l))%float <$> lines.

(** ** Pieces and outcomes of the interactive methods *)

Section Vocabulary.
Context `{Builtins}.

(** The receipt was read and is not canceled: what is left of
    [process_return]. *)
Definition return_menu (receipt_no : Z) (lines : list SaleLine.t) : M World unit :=
  print ReturnOptions >>
  let* s := input in
  let choice := str_strip s in
  if decide (choice = "1") then return_all receipt_no lines
  else if decide (choice = "2") then return_one receipt_no lines
  else print InvalidOption.


(** How a visit to the sale menu can end: without touching the application,
    or the way a checkout over sellable lines ends. *)
Definition sale_outcome (w : World) (r : Res World unit) : Prop :=
  match r with
  | Ok _ w' =>
      app w' = app w \/
      exists lines w0,
        Forall (sellable (inventory (app w))) lines /\ app w0 = app w /\
        checkout lines w0 = Ok tt w'
  | Raise e w' =>
      e <> Exhausted /\
      (app w' = app w \/
       exists lines w0,
         Forall (sellable (inventory (app w))) lines /\ app w0 = app w /\
         checkout lines w0 = Raise e w')
  end.

End Vocabulary.

(** ** Computations that cannot run out of fuel *)

(** A computation is tame when it adds no console input and does not run
    out of fuel; it eats when it also reads at least one line before it
    returns. *)
Definition tame {A} (m : M World A) : Prop :=
  forall w, match m w with
            | Ok _ w' => (length (stdin w') <= length (stdin w))%nat
            | Raise e w' => e <> Exhausted /\ (length (stdin w') <= length (stdin w))%nat
            end.

Definition eats {A} (m : M World A) : Prop :=
  forall w, match m w with
            | Ok _ w' => (length (stdin w') < length (stdin w))%nat
            | Raise e w' => e <> Exhausted /\ (length (stdin w') <= length (stdin w))%nat
            end.

(** A method of the application or of the store, which has no console, is
    sober when it does not run out of fuel. *)
Definition sober {St A} (m : M St A) : Prop :=
  forall s, match m s with
            | Ok _ _ => True
            | Raise e _ => e <> Exhausted
            end.

(** ** Sequences of store calls *)

(** The store after a sequence of calls; a call that raises leaves it as it
    was (the transaction is rolled back) and the next call goes ahead. *)
Fixpoint after (calls : list store_call) (s : SalesStore.t) : SalesStore.t :=
  match calls with
  | [] => s
  | c :: calls' =>
      match call c s with
      | Ok _ s' | Raise _ s' => after calls' s'
      end
  end.

(** What the store's own methods keep true of the database, without help from
    SQLite (foreign keys are not enforced): every row of [receipt_lines]
    belongs to a receipt, and the receipt numbers lie between 1 and the
    AUTOINCREMENT counter, which fits an SQLite INTEGER. *)
Record linked (s : SalesStore.t) : Prop := {
  linked_rows : forall n l,
    (n, l) ∈ SalesStore.receipt_lines s -> is_Some (SalesStore.receipts s !! n);
  linked_keys : forall k c,
    SalesStore.receipts s !! k = Some c -> 1 <= k <= SalesStore.seq s;
  linked_seq : 0 <= SalesStore.seq s <= int64_max
}.

(** The answer of a store method, carried over to another state of the
    store. *)
Definition answer_in {A} (s' : SalesStore.t) (r : Res SalesStore.t A) : Res SalesStore.t A :=
  match r with
  | Ok a _ => Ok a s'
  | Raise e _ => Raise e s'
  end.

(** ** What the menus leave alone *)

(** Two versions of an item that differ in [on_hand] at most. *)
Definition same_item (it it' : Item.t) : Prop :=
  it' = Item.update_on_hand it (Item.on_hand it' - Item.on_hand it).

(** Two versions of the inventory with the same UPCs, whose items differ in
    [on_hand] at most. *)
Definition same_catalogue (inv inv' : gmap string Item.t) : Prop :=
  forall u, option_Forall2 same_item (inv !! u) (inv' !! u).

(** The inventory file holds the inventory in memory. *)
Definition in_sync (p : POSApp.t) : Prop := inventory_csv p = inventory p.

(** The exceptions the receipt store raises when it cannot store a sale. *)
Definition storage_error (e : Exn) : Prop :=
  e = OperationalError \/ e = OverflowError \/ e = IntegrityError.

(** A computation that lets no exception out but those of [ok]. *)
Definition raises_only {St A} (ok : Exn -> Prop) (m : M St A) : Prop :=
  forall s, match m s with
            | Ok _ _ => True
            | Raise e _ => ok e
            end.

Section Outcomes.
Context `{Builtins}.

(** How a visit to the sale menu can end, in full: nothing happened; or one
    sale was committed, all of its lines sellable, under the next receipt
    number; or the console ran dry or a total overflowed before anything was
    touched; or the receipt store refused the sale after the stock had been
    taken out. *)
Definition sale_effect (p : POSApp.t) (r : Res World unit) : Prop :=
  match r with
  | Ok _ w' =>
      app w' = p \/
      exists lines,
        lines <> [] /\
        Forall (sellable (inventory p)) lines /\
        last_rowid (sales_store p) < int64_max /\
        SalesStore.executemany_error lines = None /\
        app w' = committed lines
                   (with_receipt (last_rowid (sales_store p) + 1) lines (sales_store p)) p
  | Raise e w' =>
      ((e = EOFError \/ e = OverflowError) /\ app w' = p) \/
      exists lines,
        lines <> [] /\
        Forall (sellable (inventory p)) lines /\
        storage_error e /\
        SalesStore.create_receipt lines (sales_store p) = Raise e (sales_store p) /\
        app w' = set_inventory (sold lines (inventory p)) p
  end.

End Outcomes.

(** ** Logging in *)

(** The console lines of a sequence of login attempts: user id, then
    password. *)
Fixpoint typed (attempts : list (string * string)) : list string :=
  match attempts with
  | [] => []
  | (user_id, password) :: attempts' => user_id :: password :: typed attempts'
  end.

(** What [login] prints for [n] failed attempts after [tries] earlier
    ones. *)
Fixpoint wrong_logins (tries : Z) (n : nat) : list Msg :=
  match n with
  | O => []
  | S n' => LoginBanner :: WrongLogin (3 - (tries + 1)) :: wrong_logins (tries + 1) n'
  end.

Section LoginVocabulary.
Context `{Builtins}.

(** The pair typed at the login prompt matches a row of the users table. *)
Definition accepts (us : gmap string string) (attempt : string * string) : Prop :=
  us !! str_strip attempt.1 = Some (str_strip attempt.2).

(** How the login loop ends when entered after [tries] failed attempts. *)
Definition login_result (tries : Z) (w : World) (r : Res World bool) : Prop :=
  match r with
  | Ok ok w' =>
      app w' = app w /\
      exists wrong,
        Forall (fun a => ~ accepts (users (app w)) a) wrong /\
        if ok then
          exists good,
            accepts (users (app w)) good /\
            Z.of_nat (length wrong) < 3 - tries /\
            stdin w = typed (wrong ++ [good]) ++ stdin w' /\
            stdout w' = stdout w ++ wrong_logins tries (length wrong)
                                 ++ [LoginBanner; LoginSuccessful (str_strip good.1)]
        else
          Z.of_nat (length wrong) = 3 - tries /\
          stdin w = typed wrong ++ stdin w' /\
          stdout w' = stdout w ++ wrong_logins tries (length wrong) ++ [LockedOut]
  | Raise e w' =>
      e = EOFError /\ app w' = app w /\
      (Z.of_nat (length (stdin w)) < 2 * (3 - tries))
  end.

End LoginVocabulary.

(** ** Line numbers *)

(** The position a typed line number picks in a list of [len] lines. The
    program subtracts one and indexes the Python list, so the numbers from 1
    to [len] pick the lines as listed, and 0 and the negative numbers down to
    [1 - len] pick from the end: 0 is the last line. *)
Definition line_index (len n : Z) : option nat :=
  if decide (1 <= n <= len) then Some (Z.to_nat (n - 1))
  else if decide (- len < n <= 0) then Some (Z.to_nat (len + n - 1))
  else None.

(** ** The files read at start-up *)

Section StartupVocabulary.
Context `{Builtins}.

(** The user id and password a row of the users file gives, [None] when
    reading it raises. *)
Definition row_user (row : Row) : option (string * string) :=
  user_id ← stripped row "User_ID";
  password ← stripped row "Password";
  Some (user_id, password).

(** The items of the rows that parse, in file order. *)
Definition good_items (rows : list Row) : list Item.t := omap row_item rows.

End StartupVocabulary.

(** ** The demo *)

(** What [demo] prints first: the banner, the size of the sample and the
    sample, which is the first three items. *)
Definition demo_opening (values : list Item.t) : list DemoMsg :=
  DemoMode :: SampleCount (length (take 3 values)) :: (SampleItem <$> take 3 values).

(** The line [demo] sells: one unit of an item. *)
Definition one_of (it : Item.t) : SaleLine.t :=
  SaleLine.mk (Item.upc it) (Item.description it) (Item.unit_price it) 1.

(** ** Lines as Python compares them *)

(** [l == l'] for two [SaleLine]s: the dataclass compares field by field,
    and two floats by their value, so that [-0.0 == 0.0]. *)
Definition same_line (l l' : SaleLine.t) : Prop :=
  SaleLine.upc l' = SaleLine.upc l /\
  SaleLine.description l' = SaleLine.description l /\
  SaleLine.qty l' = SaleLine.qty l /\
  (SaleLine.unit_price l' =? SaleLine.unit_price l)%float = true.

(** ** Sums that lose nothing to rounding *)




(** ** Claims that fail as stated *)

(** C2 as stated: no sale and no return that runs to completion leaves an
    item with a negative [on_hand]. *)
Definition never_negative (B : Builtins) : Prop :=
  forall w w',
    wf (app w) ->
    non_negative (inventory (app w)) ->
    start_sale w = Ok tt w' \/ process_return w = Ok tt w' ->
    non_negative (inventory (app w')).

(** The atomicity the spec asks of [commitSale]: whatever way a checkout
    ends. *)
Definition atomic_commit (B : Builtins) : Prop :=
  forall lines w,
    wf (app w) ->
    Forall (known (inventory (app w))) lines ->
    match checkout lines w with
    | Ok _ w' | Raise _ w' => both_or_neither lines (app w) (app w')
    end.



(** ** A small shop for worked scenarios *)

Module Shop.

Definition apple : Item.t := Item.mk "A" "Apple" 100 10 50 10 2%float.

Definition bread : Item.t := Item.mk "B" "Bread" 60 5 20 20 2%float.

Definition app0 : POSApp.t :=
  {| users := {["ann" := "pw"]};
     inventory := {["A" := apple; "B" := bread]};
     inventory_csv := {["A" := apple; "B" := bread]};
     sales_store := SalesStore._init_db |}.

Definition world (p : POSApp.t) (console : list string) : World :=
  {| app := p; stdin := console; stdout := [] |}.

Definition line (it : Item.t) (qty : Z) : SaleLine.t :=
  SaleLine.mk (Item.upc it) (Item.description it) (Item.unit_price it) qty.

End Shop.

Module Scenario.

Definition receipt1 (lines : list SaleLine.t) : SalesStore.t :=
  with_receipt 1 lines SalesStore._init_db.

(** The shop after selling three apples on receipt 1. *)
Definition three_apples : list SaleLine.t := [Shop.line Shop.apple 3].

Definition sold3 : POSApp.t := committed three_apples (receipt1 three_apples) Shop.app0.

(** The shop after a sale that rang up apples twice, one and then five, on
    receipt 1. *)
Definition apples_twice : list SaleLine.t := [Shop.line Shop.apple 1; Shop.line Shop.apple 5].

Definition sold1and5 : POSApp.t := committed apples_twice (receipt1 apples_twice) Shop.app0.



End Scenario.

Module Files.

(** A users file and an inventory file that give the small shop; the third
    inventory row has no quantity on hand that parses. *)
Definition users_csv : list Row :=
  [ {[ "User_ID" := Some " ann"; "Password" := Some "pw " ]} ].

Definition item_row (upc desc max_qty threshold repl on_hand price : string) : Row :=
  {[ "Item_UPC" := Some upc; "Item_Description" := Some desc;
     "Item_Max_Qty" := Some max_qty; "Item_Order_Threshold" := Some threshold;
     "Item_Replenishment_Order_Qty" := Some repl; "Item_On_Hand" := Some on_hand;
     "Item_Unit_Price" := Some price ]}.

Definition inventory_csv : list Row :=
  [ item_row "A" "Apple" "100" "10" "50" "10" "2.00";
    item_row "B " " Bread" "60" "5" "20" "20" "2";
    item_row "C" "Cocoa" "60" "5" "20" "many" "3" ].

End Files.

Module Basket.

(** The shop after selling two loaves and three apples on receipt 1. *)
Definition lines : list SaleLine.t := [Shop.line Shop.bread 2; Shop.line Shop.apple 3].

Definition sold : POSApp.t := committed lines (Scenario.receipt1 lines) Shop.app0.

(** Two apples and three loaves: $4.00 and $6.00, $10.00 in all. *)
Definition two_and_three : list SaleLine.t := [Shop.line Shop.apple 2; Shop.line Shop.bread 3].

(** The same, started again on an inventory file that no longer lists the
    apples. *)
Definition stale : POSApp.t :=
  set_inventory {["B" := Item.update_on_hand Shop.bread (- 2)]} sold.

End Basket.

(** * Lemmas *)

Arguments units_with : simpl never.

Section Theory.
Context `{Builtins}.

(** ** Stock arithmetic *)

Lemma update_on_hand_0 it : Item.update_on_hand it 0 = it.
Proof. destruct it; unfold Item.update_on_hand; simpl. f_equal. lia. Qed.

Lemma update_on_hand_twice it a b :
  Item.update_on_hand (Item.update_on_hand it a) b = Item.update_on_hand it (a + b).
Proof. destruct it; unfold Item.update_on_hand; simpl. f_equal. lia. Qed.

Lemma lookup_shift_stock d inv u :
  shift_stock d inv !! u = (fun it => Item.update_on_hand it (d u)) <$> inv !! u.
Proof. unfold shift_stock. rewrite map_lookup_imap. by destruct (inv !! u). Qed.

Lemma shift_stock_0 inv : shift_stock (fun _ => 0) inv = inv.
Proof.
  apply map_eq; intros u. rewrite lookup_shift_stock.
  destruct (inv !! u); simpl; [by rewrite update_on_hand_0 | done].
Qed.

Lemma shift_stock_ext d d' inv :
  (forall u, is_Some (inv !! u) -> d u = d' u) -> shift_stock d inv = shift_stock d' inv.
Proof.
  intros E. apply map_eq; intros u. rewrite !lookup_shift_stock.
  destruct (inv !! u) eqn:Hu; simpl; [|done]. by rewrite E.
Qed.


Lemma shift_stock_insert d inv u it delta :
  inv !! u = Some it ->
  shift_stock d (<[u := Item.update_on_hand it delta]> inv)
  = shift_stock (fun u' => (if decide (u = u') then delta else 0) + d u') inv.
Proof.
  intros Hu. apply map_eq; intros u'. rewrite !lookup_shift_stock.
  destruct (decide (u = u')) as [<-|Hne].
  - rewrite lookup_insert_eq, Hu. simpl. by rewrite update_on_hand_twice.
  - rewrite lookup_insert_ne by done. destruct (inv !! u'); simpl; [|done].
    done.
Qed.

Lemma stock_insert inv u it it' :
  inv !! u = Some it ->
  stock (<[u := it']> inv) = stock inv + (Item.on_hand it' - Item.on_hand it).
Proof.
  intros Hu. unfold stock.
  rewrite <- insert_delete_eq.
  rewrite map_fold_insert_L; [| intros; lia | apply lookup_delete_eq].
  rewrite (map_fold_delete_L _ _ u it inv); [lia | intros; lia | done].
Qed.

(** ** Setters *)

Lemma set_app_app w : set_app (app w) w = w.
Proof. by destruct w. Qed.

Lemma set_inventory_inventory p : set_inventory (inventory p) p = p.
Proof. by destruct p. Qed.

(** ** The inventory loops *)

Lemma units_with_cons g u l lines :
  units_with g u (l :: lines)
  = (if decide (SaleLine.upc l = u) then g l else 0) + units_with g u lines.
Proof. unfold units_with; simpl. by destruct (decide _). Qed.

Lemma units_with_opp u lines :
  units_with (fun l => - SaleLine.qty l) u lines = - units u lines.
Proof.
  unfold units. induction lines as [|l lines IH]; [done|].
  rewrite !units_with_cons, IH. destruct (decide _); lia.
Qed.

Lemma for_each_move_stock g lines w :
  Forall (known (inventory (app w))) lines ->
  for_each lines (move_stock g) w
  = Ok tt (set_app (set_inventory
                      (shift_stock (fun u => units_with g u lines) (inventory (app w)))
                      (app w)) w).
Proof.
  revert w. induction lines as [|l lines IH]; intros w Hk.
  - simpl. unfold ret. f_equal.
    change (fun u => units_with g u []) with (fun _ : string => 0).
    by rewrite shift_stock_0, set_inventory_inventory, set_app_app.
  - inversion Hk as [|? ? [it Hit] Hk']; subst.
    simpl. unfold bind at 1. unfold move_stock at 1, on_app, update_on_hand.
    rewrite Hit. rewrite IH.
    + simpl. f_equal. unfold set_app, set_inventory; simpl. f_equal. f_equal.
      rewrite shift_stock_insert by done.
      apply shift_stock_ext. intros u _. by rewrite units_with_cons.
    + simpl. eapply Forall_impl; [exact Hk'|]. intros l' [it' Hl']. unfold known.
      destruct (decide (SaleLine.upc l = SaleLine.upc l')) as [E|E].
      * rewrite <- E, lookup_insert_eq. eauto.
      * rewrite lookup_insert_ne by done. eauto.
Qed.

(** Whatever the loop does, it touches nothing but [inventory], and it only
    finishes when every line's item exists. *)
Lemma for_each_move_stock_frame g lines w :
  match for_each lines (move_stock g) w with
  | Ok _ w' => Forall (known (inventory (app w))) lines
  | Raise e w' =>
      e = KeyError /\ ~ Forall (known (inventory (app w))) lines /\
      exists inv', w' = set_app (set_inventory inv' (app w)) w
  end.
Proof.
  revert w. induction lines as [|l lines IH]; intros w.
  - simpl. constructor.
  - simpl. unfold bind at 1. unfold move_stock at 1, on_app, update_on_hand.
    destruct (inventory (app w) !! SaleLine.upc l) as [it|] eqn:Hit.
    + set (w1 := set_app _ w). specialize (IH w1).
      assert (Hdom : forall l', known (inventory (app w1)) l' <-> known (inventory (app w)) l').
      { intros l'. unfold known, w1; simpl.
        destruct (decide (SaleLine.upc l = SaleLine.upc l')) as [E|E].
        - rewrite <- E, lookup_insert_eq, Hit. split; eauto.
        - by rewrite lookup_insert_ne. }
      destruct (for_each lines (move_stock g) w1) as [[] w'|e w'].
      * constructor; [by eexists|]. eapply Forall_impl; [exact IH|]. intros; by apply Hdom.
      * destruct IH as (-> & Hn & inv' & ->). split; [done|]. split.
        -- intros Hk. apply Hn. inversion Hk; subst.
           eapply Forall_impl; [eassumption|]. intros; by apply Hdom.
        -- by exists inv'.
    + split; [done|]. split.
      * intros Hk. inversion Hk as [|? ? [it Hit'] ?]; subst. congruence.
      * exists (inventory (app w)). by rewrite set_inventory_inventory, set_app_app.
Qed.

Lemma stock_shift_lines g lines inv :
  Forall (known inv) lines ->
  stock (shift_stock (fun u => units_with g u lines) inv)
  = stock inv + foldr (fun l acc => g l + acc) 0 lines.
Proof.
  revert inv. induction lines as [|l lines IH]; intros inv Hk.
  - simpl. change (fun u => units_with g u []) with (fun _ : string => 0).
    rewrite shift_stock_0. lia.
  - inversion Hk as [|? ? [it Hit] Hk']; subst. simpl.
    rewrite (shift_stock_ext _ (fun u' => (if decide (SaleLine.upc l = u') then g l else 0)
                                           + units_with g u' lines))
      by (intros; apply units_with_cons).
    rewrite <- (shift_stock_insert _ _ _ it) by done.
    rewrite IH.
    + rewrite (stock_insert _ _ it) by done. simpl. lia.
    + eapply Forall_impl; [exact Hk'|]. intros l' [it' Hl']. unfold known.
      destruct (decide (SaleLine.upc l = SaleLine.upc l')) as [E|E].
      * rewrite <- E, lookup_insert_eq. eauto.
      * rewrite lookup_insert_ne by done. eauto.
Qed.

(** ** The receipt store *)

Lemma max_rowid_ge (m : gmap Z bool) k c : m !! k = Some c -> k <= SalesStore.max_rowid m.
Proof.
  intros Hk. apply elem_of_map_to_list in Hk. unfold SalesStore.max_rowid.
  induction (map_to_list m) as [|kv l IH]; [by apply elem_of_nil in Hk|].
  apply elem_of_cons in Hk as [<-|Hk]; simpl; [lia|].
  specialize (IH Hk). lia.
Qed.

Lemma executemany_error_None lines :
  SalesStore.executemany_error lines = None <->
  Forall (fun l => SalesStore.insert_error l = None) lines.
Proof.
  induction lines as [|l lines IH]; simpl; [by split; [constructor|]|].
  destruct (SalesStore.insert_error l) eqn:E.
  - split; [done|]. intros Hf. inversion Hf; subst. congruence.
  - rewrite IH. split; [by constructor|]. intros Hf. by inversion Hf.
Qed.

Lemma insert_error_None l :
  SalesStore.insert_error l = None ->
  sqlite_int (SaleLine.qty l) = true /\ PrimFloat.is_nan (SaleLine.unit_price l) = false.
Proof.
  unfold SalesStore.insert_error.
  destruct (sqlite_int _); simpl; [|done]. by destruct (PrimFloat.is_nan _).
Qed.

Lemma sqlite_int_spec z :
  sqlite_int z = true <-> - int64_max - 1 <= z <= int64_max.
Proof. unfold sqlite_int. rewrite andb_true_iff, !Z.leb_le. lia. Qed.

Lemma create_receipt_Ok lines s receipt_no s' :
  SalesStore.create_receipt lines s = Ok receipt_no s' ->
  last_rowid s < int64_max /\ receipt_no = last_rowid s + 1 /\
  SalesStore.executemany_error lines = None /\
  s' = with_receipt receipt_no lines s.
Proof.
  unfold SalesStore.create_receipt, last_rowid. simpl.
  destruct (int64_max <=? _) eqn:Hfull; [done|]. apply Z.leb_gt in Hfull.
  destruct (SalesStore.executemany_error lines); [done|].
  intros [= <- <-]. done.
Qed.

Lemma create_receipt_succeeds lines s :
  last_rowid s < int64_max ->
  SalesStore.executemany_error lines = None ->
  SalesStore.create_receipt lines s
  = Ok (last_rowid s + 1) (with_receipt (last_rowid s + 1) lines s).
Proof.
  intros Hfull Hrows. unfold SalesStore.create_receipt. fold (last_rowid s). simpl.
  apply Z.leb_gt in Hfull. by rewrite Hfull, Hrows.
Qed.

Lemma create_receipt_Raise lines s e s' :
  SalesStore.create_receipt lines s = Raise e s' -> s' = s.
Proof.
  unfold SalesStore.create_receipt. simpl.
  destruct (int64_max <=? _); [by intros [= _ <-]|].
  destruct (SalesStore.executemany_error lines); [by intros [= _ <-]|done].
Qed.

Lemma last_rowid_ge s k c :
  SalesStore.receipts s !! k = Some c -> k <= last_rowid s.
Proof. intros Hk%max_rowid_ge. unfold last_rowid. lia. Qed.

Lemma last_rowid_with_receipt receipt_no lines s :
  last_rowid s < receipt_no -> last_rowid (with_receipt receipt_no lines s) = receipt_no.
Proof.
  intros Hlt. unfold last_rowid at 1. simpl.
  apply Z.max_l. unfold SalesStore.max_rowid.
  assert (Hall : forall kv, kv ∈ map_to_list (<[receipt_no:=false]> (SalesStore.receipts s))
                       -> kv.1 <= receipt_no).
  { intros [k c] Hk%elem_of_map_to_list. simpl.
    destruct (decide (receipt_no = k)) as [->|Hne]; [lia|].
    rewrite lookup_insert_ne in Hk by done. apply last_rowid_ge in Hk. lia. }
  induction (map_to_list _) as [|kv l IH]; simpl.
  - pose proof (Z.le_max_l (SalesStore.seq s) (SalesStore.max_rowid (SalesStore.receipts s))).
    unfold last_rowid in Hlt.
    assert (0 <= SalesStore.max_rowid (SalesStore.receipts s)).
    { unfold SalesStore.max_rowid. induction (map_to_list _); simpl; lia. }
    lia.
  - assert (kv.1 <= receipt_no) by (apply Hall; left).
    assert (foldr (fun kv acc => Z.max kv.1 acc) 0 l <= receipt_no).
    { apply IH. intros kv' Hkv'. apply Hall. by right. }
    lia.
Qed.

(** ** Lines of a receipt *)

Lemma filter_none {A} (P : A -> Prop) `{!forall x, Decision (P x)} (l : list A) :
  (forall x, x ∈ l -> ~ P x) -> filter P l = [].
Proof.
  induction l as [|x l IH]; intros Hn; [done|].
  rewrite filter_cons_False by (apply Hn; left). apply IH. intros y Hy. apply Hn. by right.
Qed.

Lemma filter_all {A} (P : A -> Prop) `{!forall x, Decision (P x)} (l : list A) :
  (forall x, x ∈ l -> P x) -> filter P l = l.
Proof.
  induction l as [|x l IH]; intros Hn; [done|].
  rewrite filter_cons_True by (apply Hn; left). f_equal. apply IH. intros y Hy. apply Hn. by right.
Qed.

Lemma lines_of_elem n l s :
  l ∈ SalesStore.lines_of n s <-> (n, l) ∈ SalesStore.receipt_lines s.
Proof.
  unfold SalesStore.lines_of. rewrite list_elem_of_fmap. split.
  - intros ([n' l'] & -> & [Hn Hin]%list_elem_of_filter). simpl in *. by subst.
  - intros Hin. exists (n, l). split; [done|]. apply list_elem_of_filter. done.
Qed.

Lemma lines_of_with_receipt_new receipt_no lines s :
  (forall l, (receipt_no, l) ∉ SalesStore.receipt_lines s) ->
  SalesStore.lines_of receipt_no (with_receipt receipt_no lines s)
  = SalesStore.stored <$> lines.
Proof.
  intros Hfresh. unfold SalesStore.lines_of, with_receipt; simpl.
  rewrite filter_app, filter_none, filter_all; simpl.
  - by rewrite <- list_fmap_compose.
  - by intros [n l] (l' & [= -> ->] & _)%list_elem_of_fmap.
  - intros [n l] Hin Hn; simpl in *; subst. by apply (Hfresh l).
Qed.

Lemma lines_of_with_receipt_old n receipt_no lines s :
  n <> receipt_no ->
  SalesStore.lines_of n (with_receipt receipt_no lines s) = SalesStore.lines_of n s.
Proof.
  intros Hne. unfold SalesStore.lines_of, with_receipt; simpl.
  rewrite filter_app, (filter_none _ (_ <$> lines)); [by rewrite app_nil_r|].
  intros [n' l] (l' & [= -> ->] & _)%list_elem_of_fmap. simpl. congruence.
Qed.

(** *** Lines as the store holds them *)

Lemma eqb_zero_sym x : (x =? 0)%float = true -> (0 =? x)%float = true.
Proof.
  rewrite !FloatAxioms.eqb_spec. change (Prim2SF 0%float) with (S754_zero false).
  destruct (Prim2SF x) as [[]|[]| |[] m e]; simpl; try discriminate; reflexivity.
Qed.

Lemma sqlite_real_eqb x :
  PrimFloat.is_nan x = false -> (SalesStore.sqlite_real x =? x)%float = true.
Proof.
  intros Hnan. unfold SalesStore.sqlite_real. destruct (x =? 0)%float eqn:E.
  - by apply eqb_zero_sym.
  - unfold PrimFloat.is_nan in Hnan. by destruct (x =? x)%float.
Qed.

Lemma sqlite_real_twice x :
  SalesStore.sqlite_real (SalesStore.sqlite_real x) = SalesStore.sqlite_real x.
Proof.
  unfold SalesStore.sqlite_real. destruct (x =? 0)%float eqn:E; [done|]. by rewrite E.
Qed.

Lemma stored_twice l : SalesStore.stored (SalesStore.stored l) = SalesStore.stored l.
Proof. unfold SalesStore.stored. simpl. by rewrite sqlite_real_twice. Qed.

Lemma stored_nonzero lines :
  Forall (fun l => (SaleLine.unit_price l =? 0)%float = false) lines ->
  SalesStore.stored <$> lines = lines.
Proof.
  intros Hnz. induction Hnz as [|l lines Hl _ IH]; [done|].
  rewrite fmap_cons, IH. f_equal. destruct l as [u d p q].
  unfold SalesStore.stored, SalesStore.sqlite_real. simpl in *. by rewrite Hl.
Qed.

(** A line that can be stored reads back equal to itself, as Python
    compares lines. *)
Lemma same_line_stored l :
  SalesStore.insert_error l = None -> same_line l (SalesStore.stored l).
Proof.
  intros [_ Hnan]%insert_error_None. repeat split. simpl. by apply sqlite_real_eqb.
Qed.

Lemma same_lines_stored lines :
  SalesStore.executemany_error lines = None ->
  Forall2 same_line lines (SalesStore.stored <$> lines).
Proof.
  intros Hrows%executemany_error_None.
  induction Hrows as [|l lines Hl _ IH]; [constructor|].
  rewrite fmap_cons. constructor; [by apply same_line_stored|done].
Qed.

Lemma units_with_stored (g : SaleLine.t -> Z) u lines :
  (forall l, g (SalesStore.stored l) = g l) ->
  units_with g u (SalesStore.stored <$> lines) = units_with g u lines.
Proof.
  intros Hg. induction lines as [|l lines IH]; [done|].
  rewrite fmap_cons, !units_with_cons, IH, Hg. done.
Qed.

Lemma units_stored u lines : units u (SalesStore.stored <$> lines) = units u lines.
Proof. by apply units_with_stored. Qed.

Lemma total_units_stored lines :
  total_units (SalesStore.stored <$> lines) = total_units lines.
Proof.
  induction lines as [|l lines IH]; [done|].
  rewrite fmap_cons. unfold total_units in *. simpl. by rewrite IH.
Qed.

Lemma qtys_stored (lines : list SaleLine.t) :
  SaleLine.qty <$> (SalesStore.stored <$> lines) = SaleLine.qty <$> lines.
Proof. by rewrite <- list_fmap_compose. Qed.



Lemma sold_stored lines inv : sold (SalesStore.stored <$> lines) inv = sold lines inv.
Proof. unfold sold. apply shift_stock_ext. intros u _. by rewrite units_stored. Qed.

(** Storing what was read from the store stores the same rows. *)
Lemma with_receipt_stored receipt_no lines s :
  with_receipt receipt_no (SalesStore.stored <$> lines) s = with_receipt receipt_no lines s.
Proof.
  unfold with_receipt. f_equal. f_equal. rewrite <- list_fmap_compose.
  apply list_fmap_ext. intros i l _. simpl. by rewrite stored_twice.
Qed.

Lemma committed_stored receipt_no lines p :
  committed (SalesStore.stored <$> lines)
    (with_receipt receipt_no (SalesStore.stored <$> lines) (sales_store p)) p
  = committed lines (with_receipt receipt_no lines (sales_store p)) p.
Proof. unfold committed. by rewrite sold_stored, with_receipt_stored. Qed.

Lemma sellable_stored inv lines :
  Forall (sellable inv) lines -> Forall (sellable inv) (SalesStore.stored <$> lines).
Proof. intros Hs. by rewrite Forall_fmap. Qed.

(** ** The console and the cash loop *)

Lemma input_cons w s rest :
  stdin w = s :: rest -> input w = Ok s (set_stdin rest w).
Proof. unfold input. by intros ->. Qed.

Lemma input_nil w : stdin w = [] -> input w = Raise EOFError w.
Proof. unfold input. by intros ->. Qed.

(** One tender: refused with a message when it does not parse or is below
    the total, accepted otherwise. Nothing but the console changes. *)
Lemma cash_iter_cons total w s rest :
  stdin w = s :: rest ->
  cash_iter total tt w
  = match float_of_str s with
    | None => Ok (inl tt) (put_msg InvalidCashAmount (set_stdin rest w))
    | Some cash =>
        if (cash <? total)%float
        then Ok (inl tt) (put_msg NotEnoughCash (set_stdin rest w))
        else Ok (inr cash) (set_stdin rest w)
    end.
Proof.
  intros Hin. unfold cash_iter, try_or_print, try_except, float_input, bind.
  rewrite (input_cons _ _ _ Hin).
  destruct (float_of_str s) as [cash|]; simpl; [|done].
  by destruct (cash <? total)%float.
Qed.

Lemma cash_iter_nil total w :
  stdin w = [] -> cash_iter total tt w = Raise EOFError w.
Proof.
  intros Hin. unfold cash_iter, try_or_print, try_except, float_input, bind.
  by rewrite (input_nil _ Hin).
Qed.

Lemma read_cash_cons total w s rest :
  stdin w = s :: rest ->
  read_cash total w
  = match float_of_str s with
    | None => read_cash total (put_msg InvalidCashAmount (set_stdin rest w))
    | Some cash =>
        if (cash <? total)%float
        then read_cash total (put_msg NotEnoughCash (set_stdin rest w))
        else Ok cash (set_stdin rest w)
    end.
Proof.
  intros Hin. unfold read_cash, bind, get. rewrite Hin.
  cbn [length while_true]. unfold bind. rewrite (cash_iter_cons _ _ _ _ Hin).
  destruct (float_of_str s) as [cash|]; [destruct (cash <? total)%float|]; done.
Qed.

Lemma read_cash_nil total w :
  stdin w = [] -> read_cash total w = Raise EOFError w.
Proof.
  intros Hin. unfold read_cash, bind, get. rewrite Hin.
  cbn [length while_true]. unfold bind. by rewrite (cash_iter_nil _ _ Hin).
Qed.

(** The loop ends: with a tender that covers the total, or with [EOFError]
    when the console runs dry. It never touches the application state. *)
Lemma read_cash_spec total w :
  match read_cash total w with
  | Ok cash w' => app w' = app w /\ (cash <? total)%float = false
  | Raise e w' => e = EOFError /\ app w' = app w
  end.
Proof.
  remember (stdin w) as ins eqn:Hin. revert w Hin.
  induction ins as [|s rest IH]; intros w Hin; symmetry in Hin.
  - by rewrite (read_cash_nil _ _ Hin).
  - rewrite (read_cash_cons _ _ _ _ Hin).
    destruct (float_of_str s) as [cash|]; [destruct (cash <? total)%float eqn:Hlt|].
    + apply (IH (put_msg NotEnoughCash (set_stdin rest w))). done.
    + done.
    + apply (IH (put_msg InvalidCashAmount (set_stdin rest w))). done.
Qed.

Lemma on_app_on_store {A} (m : M SalesStore.t A) w :
  on_app (on_store m) w
  = match m (sales_store (app w)) with
    | Ok a s => Ok a (set_app (set_sales_store s (app w)) w)
    | Raise e s => Raise e (set_app (set_sales_store s (app w)) w)
    end.
Proof. unfold on_app, on_store. by destruct (m _). Qed.

Lemma set_sales_store_sales_store p : set_sales_store (sales_store p) p = p.
Proof. by destruct p. Qed.

(** ** Checkout *)

Lemma for_each_sale lines w :
  for_each lines
    (fun l => on_app (update_on_hand (SaleLine.upc l) (- SaleLine.qty l))) w
  = for_each lines (move_stock (fun l => - SaleLine.qty l)) w.
Proof. done. Qed.

Lemma shift_sold lines inv :
  shift_stock (fun u => units_with (fun l => - SaleLine.qty l) u lines) inv = sold lines inv.
Proof. unfold sold. apply shift_stock_ext. intros u _. apply units_with_opp. Qed.

(** Every way [checkout] can end on a sale with at least one line. *)
Lemma checkout_cases lines w :
  lines <> [] ->
  match total_of lines with
  | None => checkout lines w = Raise OverflowError w
  | Some total =>
      match read_cash total (put_msg (TotalDue total) w) with
      | Raise e w1 => checkout lines w = Raise e w1
      | Ok cash w1 =>
          if decide (Forall (known (inventory (app w))) lines) then
            match SalesStore.create_receipt lines (sales_store (app w)) with
            | Ok receipt_no s' =>
                checkout lines w
                = Ok tt (set_app (committed lines s' (app w))
                           (put_msg (ReceiptAndChange receipt_no (cash - total)) w1))
            | Raise e _ =>
                checkout lines w
                = Raise e (set_app (set_inventory (sold lines (inventory (app w))) (app w)) w1)
            end
          else
            exists inv',
              checkout lines w = Raise KeyError (set_app (set_inventory inv' (app w)) w1)
      end
  end.
Proof.
  intros Hne. destruct lines as [|l0 lines0]; [done|].
  unfold checkout. clear Hne. remember (l0 :: lines0) as lines eqn:E. clear E.
  unfold calc_total.
  destruct (total_of lines) as [total|]; [|done].
  cbv beta iota delta [bind ret print modify].
  pose proof (read_cash_spec total (put_msg (TotalDue total) w)) as Hcash.
  destruct (read_cash total (put_msg (TotalDue total) w)) as [cash w1|e w1]; [|done].
  destruct Hcash as [Happ _]. simpl in Happ.
  rewrite for_each_sale.
  pose proof (for_each_move_stock_frame (fun l => - SaleLine.qty l) lines w1) as Hframe.
  destruct (decide (Forall (known (inventory (app w))) lines)) as [Hk|Hk].
  - rewrite for_each_move_stock by (by rewrite Happ).
    rewrite shift_sold, Happ.
    rewrite on_app_on_store. simpl.
    destruct (SalesStore.create_receipt lines (sales_store (app w))) as [receipt_no s'|e s'] eqn:Hc.
    + done.
    + by apply create_receipt_Raise in Hc as ->.
  - destruct (for_each lines (move_stock _) w1) as [[] w2|e w2].
    + by rewrite Happ in Hframe.
    + destruct Hframe as (-> & _ & inv' & ->). exists inv'. by rewrite Happ.
Qed.

(** ** Returns *)

Lemma put_msgs_nil w : put_msgs [] w = w.
Proof. destruct w. unfold put_msgs; simpl. by rewrite app_nil_r. Qed.

Lemma put_msgs_put_msgs ms ms' w : put_msgs ms' (put_msgs ms w) = put_msgs (ms ++ ms') w.
Proof. unfold put_msgs; simpl. by rewrite app_assoc. Qed.

Lemma put_msg_put_msgs m w : put_msg m w = put_msgs [m] w.
Proof. done. Qed.

Lemma print_lines_spec line_msg i lines w :
  print_lines line_msg i lines w = Ok tt (put_msgs (listing line_msg i lines) w).
Proof.
  revert i w. induction lines as [|l lines IH]; intros i w; simpl.
  - by rewrite put_msgs_nil.
  - cbv beta iota delta [bind print modify]. rewrite IH.
    by rewrite put_msg_put_msgs, put_msgs_put_msgs.
Qed.

Lemma get_receipt_Ok receipt_no s canceled :
  sqlite_int receipt_no = true ->
  SalesStore.receipts s !! receipt_no = Some canceled ->
  SalesStore.get_receipt receipt_no s
  = Ok (canceled, SalesStore.lines_of receipt_no s) s.
Proof. intros Hi Hr. unfold SalesStore.get_receipt. by rewrite Hi, Hr. Qed.

Lemma update_line_qty_Ok receipt_no upc new_qty s :
  sqlite_int receipt_no = true ->
  new_qty <= int64_max ->
  SalesStore.update_line_qty receipt_no upc new_qty s
  = Ok tt (line_updated receipt_no upc new_qty s).
Proof.
  intros Hi Hq. unfold SalesStore.update_line_qty, line_updated, rows_updated.
  rewrite Hi. simpl. destruct (new_qty <=? 0) eqn:Hle; [done|].
  apply Z.leb_gt in Hle.
  assert (sqlite_int new_qty = true) as -> by (apply sqlite_int_spec; unfold int64_max in *; lia).
  done.
Qed.

Lemma set_canceled_Ok receipt_no s :
  sqlite_int receipt_no = true ->
  SalesStore.set_canceled receipt_no s = Ok tt (canceled_store receipt_no s).
Proof. intros Hi. unfold SalesStore.set_canceled. by rewrite Hi. Qed.

Lemma int_input_cons w s rest :
  stdin w = s :: rest ->
  int_input w = match int_of_str s with
                | Some n => Ok n (set_stdin rest w)
                | None => Raise ValueError (set_stdin rest w)
                end.
Proof.
  intros Hin. unfold int_input, bind. rewrite (input_cons _ _ _ Hin).
  by destruct (int_of_str s).
Qed.

Lemma process_return_found w s rest receipt_no (canceled : bool) :
  stdin w = s :: rest ->
  int_of_str s = Some receipt_no ->
  sqlite_int receipt_no = true ->
  SalesStore.receipts (sales_store (app w)) !! receipt_no = Some canceled ->
  process_return w
  = if canceled then Ok tt (put_msg AlreadyCanceled (set_stdin rest w))
    else return_menu receipt_no (SalesStore.lines_of receipt_no (sales_store (app w)))
           (set_stdin rest w).
Proof.
  intros Hin Hs Hi Hr. unfold process_return.
  unfold bind at 1. unfold try_or_print at 1, try_except, bind at 1.
  rewrite (int_input_cons _ _ _ Hin), Hs. unfold ret at 1.
  unfold bind at 1. unfold try_or_print at 1, try_except, bind at 1.
  rewrite on_app_on_store. simpl.
  rewrite (get_receipt_Ok _ _ _ Hi Hr). unfold ret at 1.
  rewrite set_sales_store_sales_store. 
  change (set_app (app w) (set_stdin rest w)) with (set_stdin rest w).
  by destruct canceled.
Qed.

Lemma for_each_return lines w :
  for_each lines
    (fun l => on_app (update_on_hand (SaleLine.upc l) (SaleLine.qty l))) w
  = for_each lines (move_stock SaleLine.qty) w.
Proof. done. Qed.


Lemma return_menu_one receipt_no lines w s s1 s2 rest n line return_qty :
  stdin w = s :: s1 :: s2 :: rest ->
  str_strip s = "2" ->
  int_of_str s1 = Some n ->
  py_getitem lines (n - 1) = Some line ->
  int_of_str s2 = Some return_qty ->
  sqlite_int receipt_no = true ->
  SaleLine.qty line <= int64_max ->
  return_menu receipt_no lines w
  = if (return_qty <=? 0) || (SaleLine.qty line <? return_qty) then
      Ok tt {| app := app w;
               stdin := rest;
               stdout := stdout w ++ [ReturnOptions] ++ listing ReturnLineListing 1 lines
                                  ++ [InvalidReturnQuantity] |}
    else
      match inventory (app w) !! SaleLine.upc line with
      | Some it =>
          Ok tt {| app := returned_one receipt_no line return_qty it (app w);
                   stdin := rest;
                   stdout := stdout w ++ [ReturnOptions] ++ listing ReturnLineListing 1 lines
                                      ++ [PartialReturnCompleted] |}
      | None =>
          Raise KeyError
                {| app := app w;
                   stdin := rest;
                   stdout := stdout w ++ [ReturnOptions] ++ listing ReturnLineListing 1 lines |}
      end.
Proof.
  intros Hin Hs Hn Hline Hr Hi Hq. unfold return_menu.
  cbv beta iota delta [bind print modify].
  rewrite (input_cons _ s (s1 :: s2 :: rest)) by done. rewrite Hs. simpl.
  unfold return_one. cbv beta iota delta [bind].
  rewrite print_lines_spec.
  unfold try_or_print, try_except. cbv beta iota delta [bind].
  rewrite (int_input_cons _ s1 (s2 :: rest)) by done. rewrite Hn, Hline.
  rewrite (int_input_cons _ s2 rest) by done. rewrite Hr.
  cbv beta iota delta [ret].
  destruct ((return_qty <=? 0) || (SaleLine.qty line <? return_qty)) eqn:Hbad.
  - unfold print, modify, put_msg, put_msgs; simpl. by rewrite <- !app_assoc.
  - apply orb_false_iff in Hbad as [Hpos%Z.leb_gt Hle%Z.ltb_ge].
    cbv beta iota delta [bind]. unfold on_app at 1, update_on_hand. simpl.
    destruct (inventory (app w) !! SaleLine.upc line) as [it|].
    + rewrite on_app_on_store. simpl.
      rewrite update_line_qty_Ok by (done || lia).
      unfold on_app, save_inventory, print, modify, put_msg, put_msgs, returned_one; simpl.
      by rewrite <- !app_assoc.
    + unfold put_msgs, put_msg, set_app, set_stdin; simpl. by rewrite <- !app_assoc.
Qed.

Lemma total_units_opp lines :
  foldr (fun l acc => - SaleLine.qty l + acc) 0 lines = - total_units lines.
Proof. unfold total_units. induction lines as [|l lines IH]; simpl; lia. Qed.

Lemma stock_sold lines inv :
  Forall (known inv) lines -> stock inv - stock (sold lines inv) = total_units lines.
Proof.
  intros Hk. rewrite <- shift_sold, stock_shift_lines by done.
  rewrite total_units_opp. lia.
Qed.

Lemma lookup_sold lines inv u :
  sold lines inv !! u = (fun it => Item.update_on_hand it (- units u lines)) <$> inv !! u.
Proof. unfold sold. apply lookup_shift_stock. Qed.

(** The item of a line whose UPC no other line shares moves by exactly that
    line's quantity. *)
Lemma units_only_line l lines :
  l ∈ lines -> NoDup (SaleLine.upc <$> lines) -> units (SaleLine.upc l) lines = SaleLine.qty l.
Proof.
  unfold units. induction lines as [|l' lines IH]; intros Hin Hnd.
  - by apply elem_of_nil in Hin.
  - rewrite fmap_cons in Hnd. apply NoDup_cons in Hnd as [Hnotin Hnd].
    rewrite units_with_cons. apply elem_of_cons in Hin as [->|Hin].
    + rewrite decide_True by done.
      assert (units_with SaleLine.qty (SaleLine.upc l') lines = 0) as ->; [|lia].
      clear IH Hnd. induction lines as [|l2 lines IH]; [done|].
      rewrite units_with_cons. rewrite fmap_cons, not_elem_of_cons in Hnotin.
      destruct Hnotin as [Hne Hnotin]. rewrite decide_False by done. by rewrite IH.
    + rewrite decide_False.
      * rewrite IH by done. lia.
      * intros E. apply Hnotin. rewrite E. by apply list_elem_of_fmap_2.
Qed.

Lemma line_totals_products lines xs :
  line_totals lines = Some xs -> xs = products lines.
Proof.
  revert xs. induction lines as [|l lines IH]; intros xs; simpl.
  - by intros [= <-].
  - unfold float_of_int. fold (nearest_float (SaleLine.qty l)).
    destruct (PrimFloat.is_infinity _); [done|].
    destruct (line_totals lines) as [ys|]; [|done].
    intros [= <-]. unfold products. simpl. f_equal. by apply IH.
Qed.

Lemma total_of_products lines total :
  total_of lines = Some total -> total = float_sum (products lines).
Proof.
  unfold total_of. destruct (line_totals lines) as [xs|] eqn:E; [|done].
  intros [= <-]. by rewrite (line_totals_products _ _ E).
Qed.

(** ** Every way a return can end *)

Lemma py_getitem_elem {A} (l : list A) idx x : py_getitem l idx = Some x -> x ∈ l.
Proof.
  unfold py_getitem. destruct (py_index _ idx) as [i|]; [|done].
  intros Hi. by eapply list_elem_of_lookup_2.
Qed.

Lemma int_input_nil w : stdin w = [] -> int_input w = Raise EOFError w.
Proof. intros Hin. unfold int_input, bind. by rewrite (input_nil _ Hin). Qed.

Lemma return_one_cases receipt_no lines w :
  sqlite_int receipt_no = true ->
  Forall (returnable (inventory (app w))) lines ->
  exists w',
    return_one receipt_no lines w = Ok tt w' /\
    return_effect receipt_no lines (app w) (app w').
Proof.
  intros Hi Hl. unfold return_one. cbv beta iota delta [bind].
  rewrite print_lines_spec. set (w0 := put_msgs _ w).
  assert (Happ0 : app w0 = app w) by done.
  unfold try_or_print, try_except. cbv beta iota delta [bind].
  destruct (stdin w0) as [|s1 rest1] eqn:Hin1.
  { rewrite (int_input_nil _ Hin1). simpl. eexists; split; [done|]. simpl. constructor. }
  rewrite (int_input_cons _ _ _ Hin1).
  destruct (int_of_str s1) as [n|].
  2:{ simpl. eexists; split; [done|]. simpl. constructor. }
  destruct (py_getitem lines (n - 1)) as [line|] eqn:Hline.
  2:{ simpl. eexists; split; [done|]. simpl. constructor. }
  destruct rest1 as [|s2 rest2].
  { rewrite int_input_nil by done. simpl. eexists; split; [done|]. simpl. constructor. }
  rewrite (int_input_cons _ s2 rest2) by done.
  destruct (int_of_str s2) as [return_qty|].
  2:{ simpl. eexists; split; [done|]. simpl. constructor. }
  cbv beta iota delta [ret].
  apply py_getitem_elem in Hline as Hin.
  rewrite Forall_forall in Hl. destruct (Hl _ Hin) as [[it Hit] Hq].
  destruct ((return_qty <=? 0) || (SaleLine.qty line <? return_qty)) eqn:Hbad.
  { simpl. eexists; split; [done|]. simpl. constructor. }
  apply orb_false_iff in Hbad as [Hpos%Z.leb_gt Hle%Z.ltb_ge].
  cbv beta iota delta [bind]. unfold on_app at 1, update_on_hand. simpl. rewrite Hit.
  rewrite on_app_on_store. simpl.
  rewrite update_line_qty_Ok by (done || lia).
  eexists; split; [done|]. simpl.
  by apply (effect_one _ _ _ line return_qty it).
Qed.

Lemma return_menu_cases receipt_no lines w :
  sqlite_int receipt_no = true ->
  Forall (returnable (inventory (app w))) lines ->
  match return_menu receipt_no lines w with
  | Ok _ w' => return_effect receipt_no lines (app w) (app w')
  | Raise e w' => e = EOFError /\ app w' = app w
  end.
Proof.
  intros Hi Hl. unfold return_menu. cbv beta iota delta [bind print modify].
  destruct (stdin (put_msg ReturnOptions w)) as [|s rest] eqn:Hin.
  { by rewrite (input_nil _ Hin). }
  rewrite (input_cons _ _ _ Hin).
  destruct (decide (str_strip s = "1")) as [E1|_].
  - unfold return_all. cbv beta iota delta [bind print modify].
    rewrite for_each_return, for_each_move_stock
      by (eapply Forall_impl; [exact Hl|]; by intros l [? _]).
    rewrite on_app_on_store. simpl. rewrite (set_canceled_Ok _ _ Hi).
    unfold on_app, save_inventory, modify. simpl.
    change (return_effect receipt_no lines (app w) (returned_all receipt_no lines (app w))).
    constructor.
  - destruct (decide (str_strip s = "2")) as [E2|_].
    + destruct (return_one_cases receipt_no lines (set_stdin rest (put_msg ReturnOptions w)) Hi Hl)
        as (w' & -> & Heff). exact Heff.
    + simpl. constructor.
Qed.

Lemma wf_returnable p receipt_no :
  wf p -> Forall (returnable (inventory p)) (SalesStore.lines_of receipt_no (sales_store p)).
Proof.
  intros Hwf. apply Forall_forall. intros l Hin%lines_of_elem. split.
  - by eapply wf_known.
  - by eapply wf_qty.
Qed.

(** Every way [process_return] can end from a well-formed state. *)
Lemma process_return_cases w :
  wf (app w) ->
  match process_return w with
  | Ok _ w' =>
      app w' = app w \/
      exists receipt_no,
        SalesStore.receipts (sales_store (app w)) !! receipt_no = Some false /\
        return_effect receipt_no (SalesStore.lines_of receipt_no (sales_store (app w)))
                      (app w) (app w')
  | Raise e w' => (e = EOFError \/ e = OverflowError) /\ app w' = app w
  end.
Proof.
  intros Hwf. destruct (stdin w) as [|s rest] eqn:Hin.
  { unfold process_return, try_or_print, try_except. cbv beta iota delta [bind].
    rewrite (int_input_nil _ Hin). simpl. auto. }
  destruct (int_of_str s) as [receipt_no|] eqn:Hs.
  2:{ unfold process_return, try_or_print, try_except. cbv beta iota delta [bind].
      rewrite (int_input_cons _ _ _ Hin), Hs. simpl. auto. }
  destruct (sqlite_int receipt_no) eqn:Hi.
  2:{ unfold process_return, try_or_print, try_except. cbv beta iota delta [bind].
      rewrite (int_input_cons _ _ _ Hin), Hs. cbv beta iota delta [ret].
      rewrite on_app_on_store. simpl. unfold SalesStore.get_receipt. rewrite Hi. simpl.
      split; [auto|]. by rewrite set_sales_store_sales_store. }
  destruct (SalesStore.receipts (sales_store (app w)) !! receipt_no) as [canceled|] eqn:Hr.
  2:{ unfold process_return, try_or_print, try_except. cbv beta iota delta [bind].
      rewrite (int_input_cons _ _ _ Hin), Hs. cbv beta iota delta [ret].
      rewrite on_app_on_store. simpl. unfold SalesStore.get_receipt. rewrite Hi, Hr. simpl.
      left. by rewrite set_sales_store_sales_store. }
  rewrite (process_return_found _ _ _ _ _ Hin Hs Hi Hr).
  destruct canceled; [by left|].
  pose proof (return_menu_cases receipt_no
                (SalesStore.lines_of receipt_no (sales_store (app w)))
                (set_stdin rest w) Hi (wf_returnable _ _ Hwf)) as Hm.
  destruct (return_menu _ _ _) as [[] w'|e w'].
  - right. by exists receipt_no.
  - destruct Hm as [-> ->]. auto.
Qed.

(** ** Well-formedness is kept *)

Lemma known_shift_stock d inv l : known (shift_stock d inv) l <-> known inv l.
Proof.
  unfold known. rewrite lookup_shift_stock.
  destruct (inv !! SaleLine.upc l); simpl; split; intros [? ?]; by eauto.
Qed.

Lemma known_insert inv u it it' l :
  inv !! u = Some it -> known (<[u := it']> inv) l <-> known inv l.
Proof.
  intros Hu. unfold known. destruct (decide (u = SaleLine.upc l)) as [<-|Hne].
  - rewrite lookup_insert_eq, Hu. split; eauto.
  - by rewrite lookup_insert_ne.
Qed.

Lemma wf_upc_shift_stock d inv :
  filed_by_upc inv -> filed_by_upc (shift_stock d inv).
Proof.
  intros Hupc k it. rewrite lookup_shift_stock.
  destruct (inv !! k) as [it0|] eqn:Hk; simpl; [|done].
  intros [= <-]. simpl. by apply Hupc.
Qed.

Lemma wf_set_inventory_shift d p : wf p -> wf (set_inventory (shift_stock d (inventory p)) p).
Proof.
  intros [Hupc Hrow Hown Hknown Hqty]. split; simpl; try done.
  - by apply wf_upc_shift_stock.
  - intros n l Hin. apply known_shift_stock. by eapply Hknown.
Qed.

Lemma wf_returned_all receipt_no lines p : wf p -> wf (returned_all receipt_no lines p).
Proof.
  intros [Hupc Hrow Hown Hknown Hqty]. split; simpl.
  - by apply wf_upc_shift_stock.
  - intros k c Hk. apply lookup_alter_Some in Hk as [(_ & c' & Hk & _)|[_ Hk]]; by eapply Hrow.
  - intros n l Hin. destruct (Hown n l Hin) as [c Hc].
    destruct (decide (receipt_no = n)) as [->|Hne].
    + rewrite lookup_alter_eq, Hc. by eexists.
    + rewrite lookup_alter_ne by done. by eexists.
  - intros n l Hin. apply known_shift_stock. by eapply Hknown.
  - done.
Qed.

Lemma rows_updated_elem receipt_no upc new_qty rows n l :
  (n, l) ∈ rows_updated receipt_no upc new_qty rows ->
  (n, l) ∈ rows \/
  (0 < new_qty /\ exists l0, (n, l0) ∈ rows /\ l = SaleLine.with_qty l0 new_qty).
Proof.
  unfold rows_updated. destruct (new_qty <=? 0) eqn:Hq.
  - intros [_ Hin]%list_elem_of_filter. by left.
  - apply Z.leb_gt in Hq. intros ([n0 l0] & E & Hin)%list_elem_of_fmap.
    destruct (decide _); simpl in E.
    + injection E as -> ->. right. split; [done|]. by exists l0.
    + injection E as -> ->. by left.
Qed.

Lemma wf_returned_one receipt_no line return_qty it p :
  wf p ->
  inventory p !! SaleLine.upc line = Some it ->
  0 < return_qty <= SaleLine.qty line ->
  SaleLine.qty line <= int64_max ->
  wf (returned_one receipt_no line return_qty it p).
Proof.
  intros [Hupc Hrow Hown Hknown Hqty] Hit Hr Hmax. split; simpl.
  - intros k it' Hk. apply lookup_insert_Some in Hk as [[<- <-]|[_ Hk]].
    + simpl. by apply Hupc.
    + by apply Hupc.
  - done.
  - intros n l [Hin|(_ & l0 & Hin & _)]%rows_updated_elem; by eapply Hown.
  - intros n l [Hin|(_ & l0 & Hin & ->)]%rows_updated_elem;
      apply (known_insert _ _ it); try done; [by eapply Hknown|].
    apply (Hknown n l0 Hin).
  - intros n l [Hin|(Hpos & l0 & Hin & ->)]%rows_updated_elem; [by eapply Hqty|].
    simpl. lia.
Qed.

Lemma wf_return_effect receipt_no p p' :
  wf p ->
  return_effect receipt_no (SalesStore.lines_of receipt_no (sales_store p)) p p' ->
  wf p'.
Proof.
  intros Hwf [| |line return_qty it Hin Hr Hit]; [done|by apply wf_returned_all|].
  apply wf_returned_one; try done.
  apply lines_of_elem in Hin. by apply (wf_qty _ Hwf) in Hin as [_ ?].
Qed.

Lemma wf_committed lines receipt_no s' p :
  wf p ->
  Forall (known (inventory p)) lines ->
  Forall (fun l => 0 < SaleLine.qty l) lines ->
  SalesStore.create_receipt lines (sales_store p) = Ok receipt_no s' ->
  wf (committed lines s' p).
Proof.
  intros [Hupc Hrow Hown Hknown Hqty] Hk Hpos (Hfull & Hno & Hrows & ->)%create_receipt_Ok.
  assert (Hge : 0 <= last_rowid (sales_store p)).
  { unfold last_rowid, SalesStore.max_rowid. induction (map_to_list _); simpl; lia. }
  split; simpl.
  - by apply wf_upc_shift_stock.
  - intros k c Hk'. apply lookup_insert_Some in Hk' as [[<- _]|[_ Hk']]; [|by eapply Hrow].
    apply sqlite_int_spec. unfold int64_max in *. lia.
  - intros n l [Hin|Hin]%elem_of_app.
    + destruct (Hown n l Hin) as [c Hc]. destruct (decide (receipt_no = n)) as [->|Hne].
      * rewrite lookup_insert_eq. by eexists.
      * rewrite lookup_insert_ne by done. by eexists.
    + apply list_elem_of_fmap in Hin as (l' & [= -> ->] & _).
      rewrite lookup_insert_eq. by eexists.
  - intros n l [Hin|Hin]%elem_of_app; apply known_shift_stock.
    + by eapply Hknown.
    + apply list_elem_of_fmap in Hin as (l' & [= -> ->] & Hin).
      rewrite Forall_forall in Hk. by apply (Hk l').
  - intros n l [Hin|Hin]%elem_of_app; [by eapply Hqty|].
    apply list_elem_of_fmap in Hin as (l' & [= -> ->] & Hin).
    rewrite Forall_forall in Hpos. split; [by apply (Hpos l')|]. simpl.
    apply executemany_error_None in Hrows. rewrite Forall_forall in Hrows.
    apply Hrows, insert_error_None in Hin as [Hin _]. apply sqlite_int_spec in Hin. lia.
Qed.

(** A new database next to an inventory filed by UPC is well-formed. *)
Lemma wf_init us inv csv :
  filed_by_upc inv ->
  wf {| users := us; inventory := inv; inventory_csv := csv;
        sales_store := SalesStore._init_db |}.
Proof.
  intros Hupc. split; simpl.
  - done.
  - intros k c Hk. by apply lookup_empty_Some in Hk.
  - intros n l Hin. by apply elem_of_nil in Hin.
  - intros n l Hin. by apply elem_of_nil in Hin.
  - intros n l Hin. by apply elem_of_nil in Hin.
Qed.

(** However [process_return] ends, the state stays well-formed. *)
Lemma process_return_wf w :
  wf (app w) ->
  match process_return w with
  | Ok _ w' | Raise _ w' => wf (app w')
  end.
Proof.
  intros Hwf. pose proof (process_return_cases w Hwf) as Hc.
  destruct (process_return w) as [[] w'|e w'].
  - destruct Hc as [->|(receipt_no & _ & Heff)]; [done|]. by eapply wf_return_effect.
  - by destruct Hc as [_ ->].
Qed.

(** ** Stock levels across returns *)

Lemma units_with_nonneg g u lines :
  Forall (fun l => 0 <= g l) lines -> 0 <= units_with g u lines.
Proof.
  induction 1 as [|l lines Hl _ IH]; [done|].
  rewrite units_with_cons. destruct (decide _); lia.
Qed.

(** A return never takes stock away. *)
Lemma return_effect_on_hand receipt_no p p' u it :
  wf p ->
  return_effect receipt_no (SalesStore.lines_of receipt_no (sales_store p)) p p' ->
  inventory p !! u = Some it ->
  exists it', inventory p' !! u = Some it' /\ Item.on_hand it <= Item.on_hand it'.
Proof.
  intros Hwf [| |line return_qty it0 Hin Hr Hit] Hu.
  - by exists it.
  - simpl. unfold restocked. rewrite lookup_shift_stock, Hu. simpl.
    eexists. split; [done|]. simpl.
    assert (0 <= units u (SalesStore.lines_of receipt_no (sales_store p))); [|lia].
    apply units_with_nonneg, Forall_forall. intros l Hl%lines_of_elem.
    apply (wf_qty _ Hwf) in Hl. lia.
  - simpl. destruct (decide (SaleLine.upc line = u)) as [<-|Hne].
    + rewrite lookup_insert_eq. eexists. split; [done|].
      assert (it0 = it) as -> by congruence. simpl. lia.
    + rewrite lookup_insert_ne by done. by exists it.
Qed.



Lemma last_rowid_nonneg s : 0 <= last_rowid s.
Proof. unfold last_rowid, SalesStore.max_rowid. induction (map_to_list _); simpl; lia. Qed.

(** What a completed checkout over at least one line has done. *)
Lemma checkout_Ok lines w w' :
  lines <> [] ->
  checkout lines w = Ok tt w' ->
  exists total cash w0 receipt_no,
    total_of lines = Some total /\
    read_cash total (put_msg (TotalDue total) w) = Ok cash w0 /\
    Forall (known (inventory (app w))) lines /\
    last_rowid (sales_store (app w)) < int64_max /\
    receipt_no = last_rowid (sales_store (app w)) + 1 /\
    SalesStore.executemany_error lines = None /\
    w' = set_app (committed lines (with_receipt receipt_no lines (sales_store (app w)))
                            (app w))
                 (put_msg (ReceiptAndChange receipt_no (cash - total)) w0).
Proof.
  intros Hne Hok. pose proof (checkout_cases lines w Hne) as Hc.
  destruct (total_of lines) as [total|]; [|congruence].
  destruct (read_cash total _) as [cash w0|e w0] eqn:Hcash; [|congruence].
  destruct (decide (Forall _ lines)) as [Hk|Hk]; [|destruct Hc; congruence].
  destruct (SalesStore.create_receipt lines _) as [receipt_no s'|e s'] eqn:Hcr; [|congruence].
  rewrite Hc in Hok. injection Hok as <-.
  apply create_receipt_Ok in Hcr as (Hfull & Hno & Hrows & ->).
  by exists total, cash, w0, receipt_no.
Qed.

(** The number after the last one is free, and the receipt stored under it
    has exactly the given lines. *)
Lemma with_receipt_fresh p receipt_no lines :
  wf p ->
  receipt_no = last_rowid (sales_store p) + 1 ->
  SalesStore.receipts (sales_store p) !! receipt_no = None /\
  SalesStore.lines_of receipt_no (with_receipt receipt_no lines (sales_store p))
  = SalesStore.stored <$> lines.
Proof.
  intros Hwf ->.
  assert (Hfresh : SalesStore.receipts (sales_store p) !! (last_rowid (sales_store p) + 1)
                   = None).
  { destruct (_ !! _) eqn:E; [|done]. apply last_rowid_ge in E. lia. }
  split; [done|]. apply lines_of_with_receipt_new. intros l Hin.
  apply (wf_owned _ Hwf) in Hin as [c Hc]. congruence.
Qed.


Ltac rows_step IH :=
  rewrite ?fmap_cons, ?filter_cons; simpl;
  repeat (case_decide; rewrite ?fmap_cons, ?filter_cons; simpl);
  unfold SalesStore.selected in *; simpl in *;
  try (exfalso; intuition congruence); rewrite ?IH; try done.

(** ** Partial returns *)

Lemma lines_of_line_updated receipt_no upc new_qty s :
  SalesStore.lines_of receipt_no (line_updated receipt_no upc new_qty s)
  = lines_with_qty upc new_qty (SalesStore.lines_of receipt_no s).
Proof.
  unfold SalesStore.lines_of, line_updated, rows_updated, lines_with_qty. simpl.
  destruct (new_qty <=? 0); induction (SalesStore.receipt_lines s) as [|[n l] rows IH];
    try done; rows_step IH.
Qed.

Lemma lines_of_line_updated_other n receipt_no upc new_qty s :
  n <> receipt_no ->
  SalesStore.lines_of n (line_updated receipt_no upc new_qty s) = SalesStore.lines_of n s.
Proof.
  intros Hne.
  unfold SalesStore.lines_of, line_updated, rows_updated. simpl.
  destruct (new_qty <=? 0); induction (SalesStore.receipt_lines s) as [|[n' l] rows IH];
    try done; rows_step IH.
Qed.

Lemma update_line_qty_Ok_inv receipt_no upc new_qty s s' :
  SalesStore.update_line_qty receipt_no upc new_qty s = Ok tt s' ->
  s' = line_updated receipt_no upc new_qty s.
Proof.
  unfold SalesStore.update_line_qty, line_updated, rows_updated.
  destruct (new_qty <=? 0).
  - destruct (negb (sqlite_int receipt_no)); [done|]. by intros [= <-].
  - destruct (negb _); [done|]. by intros [= <-].
Qed.

Lemma lines_with_qty_lookup upc new_qty lines i l :
  0 < new_qty ->
  lines !! i = Some l ->
  lines_with_qty upc new_qty lines !! i
  = Some (if decide (SaleLine.upc l = upc) then SaleLine.with_qty l new_qty else l).
Proof.
  intros Hq%Z.leb_gt Hl. unfold lines_with_qty. rewrite Hq.
  by rewrite list_lookup_fmap, Hl.
Qed.

Lemma lines_with_qty_deleted upc new_qty lines l :
  new_qty <= 0 -> l ∈ lines_with_qty upc new_qty lines -> l ∈ lines /\ SaleLine.upc l <> upc.
Proof.
  intros Hq%Z.leb_le. unfold lines_with_qty. rewrite Hq.
  intros [? ?]%list_elem_of_filter. done.
Qed.

(** A partial return whose inputs all parse, on an open receipt: turned down
    when the quantity is out of range, carried out otherwise. *)
Lemma process_return_one w s1 s2 s3 s4 rest receipt_no n line return_qty :
  wf (app w) ->
  stdin w = s1 :: s2 :: s3 :: s4 :: rest ->
  int_of_str s1 = Some receipt_no ->
  str_strip s2 = "2" ->
  int_of_str s3 = Some n ->
  int_of_str s4 = Some return_qty ->
  SalesStore.receipts (sales_store (app w)) !! receipt_no = Some false ->
  py_getitem (SalesStore.lines_of receipt_no (sales_store (app w))) (n - 1) = Some line ->
  exists it,
    inventory (app w) !! SaleLine.upc line = Some it /\
    process_return w
    = Ok tt {| app := if (return_qty <=? 0) || (SaleLine.qty line <? return_qty)
                      then app w
                      else returned_one receipt_no line return_qty it (app w);
               stdin := rest;
               stdout :=
                 stdout w ++ [ReturnOptions]
                 ++ listing ReturnLineListing 1
                      (SalesStore.lines_of receipt_no (sales_store (app w)))
                 ++ [if (return_qty <=? 0) || (SaleLine.qty line <? return_qty)
                     then InvalidReturnQuantity else PartialReturnCompleted] |}.
Proof.
  intros Hwf Hin Hs1 Hs2 Hs3 Hs4 Hr Hline.
  assert (Hi : sqlite_int receipt_no = true) by (by eapply wf_rowid).
  apply py_getitem_elem in Hline as Hel. apply lines_of_elem in Hel.
  destruct (wf_known _ Hwf _ _ Hel) as [it Hit].
  destruct (wf_qty _ Hwf _ _ Hel) as [_ Hmax].
  exists it. split; [done|].
  rewrite (process_return_found _ _ _ _ _ Hin Hs1 Hi Hr).
  rewrite (return_menu_one receipt_no _ _ s2 s3 s4 rest n line return_qty); try done.
  destruct (_ || _); [done|]. simpl. by rewrite Hit.
Qed.

(** ** Receipt numbers *)

Lemma max_rowid_attained (m : gmap Z bool) :
  SalesStore.max_rowid m = 0 \/ is_Some (m !! SalesStore.max_rowid m).
Proof.
  unfold SalesStore.max_rowid.
  assert (Hin : forall kv, kv ∈ map_to_list m -> is_Some (m !! kv.1)).
  { intros [k c] Hk%elem_of_map_to_list. by eexists. }
  induction (map_to_list m) as [|kv l IH]; simpl; [by left|].
  destruct IH as [IH|IH]; [by intros; apply Hin; right|..].
  - rewrite IH. destruct (Z.max_spec kv.1 0) as [[_ ->]|[_ ->]]; [by left|].
    right. apply Hin. by left.
  - destruct (Z.max_spec kv.1 (foldr (fun kv acc => Z.max kv.1 acc) 0 l)) as [[_ ->]|[_ ->]].
    + by right.
    + right. apply Hin. by left.
Qed.

Lemma max_rowid_same_keys (m m' : gmap Z bool) :
  (forall k, is_Some (m !! k) <-> is_Some (m' !! k)) ->
  SalesStore.max_rowid m = SalesStore.max_rowid m'.
Proof.
  intros Hdom.
  assert (Hle : forall a b : gmap Z bool,
             (forall k, is_Some (a !! k) -> is_Some (b !! k)) ->
             SalesStore.max_rowid a <= SalesStore.max_rowid b).
  { intros a b Hab. destruct (max_rowid_attained a) as [->|Ha].
    - unfold SalesStore.max_rowid. induction (map_to_list b); simpl; lia.
    - apply Hab in Ha as [c Hc]. by eapply max_rowid_ge. }
  apply Z.le_antisymm; apply Hle; intros k; by apply Hdom.
Qed.

Lemma last_rowid_canceled_store receipt_no s :
  last_rowid (canceled_store receipt_no s) = last_rowid s.
Proof.
  unfold last_rowid. simpl. f_equal. apply max_rowid_same_keys. intros k.
  destruct (decide (receipt_no = k)) as [->|Hne].
  - rewrite lookup_alter_eq. destruct (_ !! k); simpl; split; intros [? ?]; by eauto.
  - by rewrite lookup_alter_ne.
Qed.

Lemma call_last_rowid c s :
  match call c s with
  | Ok (Some receipt_no) s' => receipt_no = last_rowid s + 1 /\ last_rowid s' = receipt_no
  | Ok None s' | Raise _ s' => last_rowid s' = last_rowid s
  end.
Proof.
  destruct c as [lines|n|n|n upc q]; simpl; cbv beta iota delta [bind ret].
  - destruct (SalesStore.create_receipt lines s) as [receipt_no s'|e s'] eqn:Hc.
    + apply create_receipt_Ok in Hc as (_ & -> & _ & ->). split; [done|].
      apply last_rowid_with_receipt. lia.
    + by apply create_receipt_Raise in Hc as ->.
  - unfold SalesStore.get_receipt. destruct (negb _); [done|]. by destruct (_ !! n).
  - unfold SalesStore.set_canceled. destruct (negb _); [done|].
    apply last_rowid_canceled_store.
  - unfold SalesStore.update_line_qty.
    destruct (q <=? 0); by destruct (negb _).
Qed.

Lemma assigned_above calls : forall s,
  Forall (fun n => last_rowid s < n) (assigned calls s) /\
  StronglySorted Z.lt (assigned calls s).
Proof.
  induction calls as [|c calls IH]; intros s; simpl; [by split; constructor|].
  pose proof (call_last_rowid c s) as Hc.
  destruct (call c s) as [[receipt_no|] s'|e s'].
  - destruct Hc as [-> Hs']. destruct (IH s') as [Hab Hso]. rewrite Hs' in Hab. split.
    + constructor; [lia|]. eapply Forall_impl; [exact Hab|]. simpl. lia.
    + by constructor.
  - rewrite <- Hc. apply IH.
  - rewrite <- Hc. apply IH.
Qed.

(** ** The sale menu *)

Lemma calc_total_frame lines (w : World) :
  match calc_total lines w with
  | Ok _ w' => w' = w
  | Raise e w' => e = OverflowError /\ w' = w
  end.
Proof. unfold calc_total. by destruct (total_of lines). Qed.

Lemma add_item_cases lines w :
  filed_by_upc (inventory (app w)) ->
  Forall (sellable (inventory (app w))) lines ->
  console_only w (add_item lines w) /\
  match add_item lines w with
  | Ok lines' _ => Forall (sellable (inventory (app w))) lines'
  | Raise _ _ => True
  end.
Proof.
  intros Hupc Hl. unfold add_item, show_inventory.
  cbv beta iota delta [bind get print modify ret].
  destruct (stdin w) as [|s1 rest1] eqn:Hin1.
  { rewrite input_nil by done. by repeat split. }
  rewrite (input_cons _ s1 rest1) by done. simpl.
  destruct (inventory (app w) !! str_strip s1) as [item|] eqn:Hitem.
  2:{ simpl. rewrite Hin1. simpl. repeat split; try done; lia. }
  unfold try_or_print, try_except. cbv beta iota delta [bind].
  destruct rest1 as [|s2 rest2].
  { rewrite int_input_nil by done. by repeat split. }
  rewrite (int_input_cons _ s2 rest2) by done.
  destruct (int_of_str s2) as [qty|]; simpl.
  2:{ rewrite Hin1. simpl. repeat split; try done; lia. }
  destruct (qty <=? 0) eqn:Hq; simpl.
  { rewrite Hin1. simpl. repeat split; try done; lia. }
  apply Z.leb_gt in Hq.
  match goal with |- context [calc_total ?ls ?w0] =>
    pose proof (calc_total_frame ls w0) as Hc; destruct (calc_total ls w0) as [total w'|e w']
  end.
  - subst w'. simpl. rewrite Hin1. simpl. split; [split; [done|lia]|].
    apply Forall_app. split; [done|]. repeat constructor; simpl; [|done].
    unfold known. simpl. rewrite (Hupc _ _ Hitem). by eexists.
  - destruct Hc as [-> ->]. by repeat split.
Qed.

Lemma py_pop_sublist {A} (l l' : list A) idx : py_pop l idx = Some l' -> l' ⊆ l.
Proof.
  unfold py_pop. destruct (py_index _ idx) as [i|]; [|done].
  intros [= <-] x Hx. apply list_elem_of_lookup in Hx as [j Hj].
  destruct (decide (j < i)%nat).
  - rewrite list_lookup_delete_lt in Hj by done. by eapply list_elem_of_lookup_2.
  - rewrite list_lookup_delete_ge in Hj by lia. by eapply list_elem_of_lookup_2.
Qed.

Lemma remove_item_cases lines w :
  Forall (sellable (inventory (app w))) lines ->
  console_only w (remove_item lines w) /\
  match remove_item lines w with
  | Ok lines' _ => Forall (sellable (inventory (app w))) lines'
  | Raise _ _ => True
  end.
Proof.
  intros Hl. unfold remove_item. destruct lines as [|l0 lines0].
  { cbv beta iota delta [bind print modify ret]. simpl. repeat split; try done. }
  remember (l0 :: lines0) as lines eqn:E. clear E.
  cbv beta iota delta [bind]. rewrite print_lines_spec.
  unfold try_or_print, try_except. cbv beta iota delta [bind].
  set (w0 := put_msgs _ w).
  assert (Hkeep : forall w1 lines',
             app w1 = app w -> (length (stdin w1) <= length (stdin w))%nat ->
             Forall (sellable (inventory (app w))) lines' ->
             console_only w
               ((let* total := calc_total lines' in
                 print (RunningTotal total) >> ret lines') w1) /\
             match (let* total := calc_total lines' in
                    print (RunningTotal total) >> ret lines') w1 with
             | Ok lines'' _ => Forall (sellable (inventory (app w))) lines''
             | Raise _ _ => True
             end).
  { intros w1 lines' Happ Hlen Hl'. cbv beta iota delta [bind print modify ret].
    pose proof (calc_total_frame lines' w1) as Hc.
    destruct (calc_total lines' w1) as [total w'|e w'].
    - subst w'. by repeat split.
    - destruct Hc as [-> ->]. by repeat split. }
  destruct (stdin w0) as [|s rest] eqn:Hin.
  { rewrite int_input_nil by done. simpl. by apply Hkeep. }
  rewrite (int_input_cons _ s rest) by done.
  assert (Hlen : (length rest <= length (stdin w))%nat).
  { change (stdin w0) with (stdin w) in Hin. rewrite Hin. simpl. lia. }
  destruct (int_of_str s) as [n|]; simpl; [|by apply Hkeep].
  destruct (py_pop lines (n - 1)) as [lines'|] eqn:Hpop; simpl; [|by apply Hkeep].
  apply Hkeep; try done.
  apply py_pop_sublist in Hpop. rewrite Forall_forall in *. intros l Hin'. by apply Hl, Hpop.
Qed.

Lemma executemany_error_Some lines e :
  SalesStore.executemany_error lines = Some e -> e = OverflowError \/ e = IntegrityError.
Proof.
  induction lines as [|l lines IH]; simpl; [done|].
  unfold SalesStore.insert_error at 1.
  destruct (negb _); [intros [= <-]; by left|].
  destruct (PrimFloat.is_nan _); [intros [= <-]; by right|done].
Qed.

Lemma create_receipt_Raise_exn lines s e s' :
  SalesStore.create_receipt lines s = Raise e s' -> e <> Exhausted.
Proof.
  unfold SalesStore.create_receipt. simpl.
  destruct (int64_max <=? _); [by intros [= <- _]|].
  destruct (SalesStore.executemany_error lines) as [e'|] eqn:E; [|done].
  intros [= <- _]. by apply executemany_error_Some in E as [->| ->].
Qed.

(** However [checkout] ends, it is not for lack of fuel, and what it leaves
    behind is the state it found, that state with the stock of the lines
    taken out, or the committed sale. *)
Lemma checkout_frame lines w :
  Forall (known (inventory (app w))) lines ->
  match checkout lines w with
  | Ok _ w' =>
      app w' = app w \/
      (lines <> [] /\
       exists receipt_no s',
         SalesStore.create_receipt lines (sales_store (app w)) = Ok receipt_no s' /\
         app w' = committed lines s' (app w))
  | Raise e w' =>
      e <> Exhausted /\
      (app w' = app w \/ app w' = set_inventory (sold lines (inventory (app w))) (app w))
  end.
Proof.
  intros Hk. destruct lines as [|l0 lines0]; [by left|].
  remember (l0 :: lines0) as lines eqn:E.
  assert (Hne : lines <> []) by (by subst).
  clear E. pose proof (checkout_cases lines w Hne) as Hc.
  destruct (total_of lines) as [total|]; [|rewrite Hc; auto].
  pose proof (read_cash_spec total (put_msg (TotalDue total) w)) as Hcash.
  destruct (read_cash total _) as [cash w1|e w1].
  - destruct Hcash as [Happ _]. simpl in Happ.
    rewrite decide_True in Hc by done.
    destruct (SalesStore.create_receipt lines _) as [receipt_no s'|e s'] eqn:Hcr.
    + rewrite Hc. right. split; [done|]. by exists receipt_no, s'.
    + rewrite Hc. split; [by eapply create_receipt_Raise_exn|]. by right.
  - rewrite Hc. destruct Hcash as [-> Happ]. simpl in Happ. auto.
Qed.

Lemma sellable_known inv lines :
  Forall (sellable inv) lines -> Forall (known inv) lines.
Proof. intros Hl. eapply Forall_impl; [exact Hl|]. by intros l [? _]. Qed.

Lemma sale_iter_cases lines w :
  filed_by_upc (inventory (app w)) ->
  Forall (sellable (inventory (app w))) lines ->
  match sale_iter lines w with
  | Ok (inl lines') w' =>
      app w' = app w /\ (length (stdin w') < length (stdin w))%nat /\
      Forall (sellable (inventory (app w))) lines'
  | Ok (inr _) w' => sale_outcome w (Ok tt w')
  | Raise e w' => sale_outcome w (Raise e w')
  end.
Proof.
  intros Hupc Hl. unfold sale_iter. cbv beta iota delta [bind print modify].
  destruct (stdin (put_msg SaleMenu w)) as [|s rest] eqn:Hin.
  { rewrite input_nil by done. simpl. auto. }
  rewrite (input_cons _ s rest) by done.
  set (w0 := set_stdin rest (put_msg SaleMenu w)).
  assert (Happ0 : app w0 = app w) by done.
  assert (Hlen0 : (length (stdin w0) < length (stdin w))%nat).
  { change (stdin (put_msg SaleMenu w)) with (stdin w) in Hin. rewrite Hin. simpl. lia. }
  destruct (decide (str_strip s = "1")) as [_|_].
  { destruct (add_item_cases lines w0) as [Hc Hl']; [done..|].
    destruct (add_item lines w0) as [lines' w'|e w']; simpl in *.
    - destruct Hc as [Happ Hlen]. cbv beta iota delta [ret]. repeat split; [congruence|lia|done].
    - destruct Hc as [He Happ]. split; [done|]. left. congruence. }
  destruct (decide (str_strip s = "2")) as [_|_].
  { destruct (remove_item_cases lines w0) as [Hc Hl']; [done..|].
    destruct (remove_item lines w0) as [lines' w'|e w']; simpl in *.
    - destruct Hc as [Happ Hlen]. cbv beta iota delta [ret]. repeat split; [congruence|lia|done].
    - destruct Hc as [He Happ]. split; [done|]. left. congruence. }
  destruct (decide (str_strip s = "3")) as [_|_].
  { pose proof (checkout_frame lines w0 (sellable_known _ _ Hl)) as Hc.
    destruct (checkout lines w0) as [[] w'|e w'] eqn:Hco; simpl.
    - right. by exists lines, w0.
    - destruct Hc as [He _]. split; [done|]. right. by exists lines, w0. }
  destruct (decide (str_strip s = "0")) as [_|_]; simpl; [by left|].
  repeat split; try done; lia.
Qed.

Lemma sale_loop_cases fuel : forall lines w,
  (length (stdin w) < fuel)%nat ->
  filed_by_upc (inventory (app w)) ->
  Forall (sellable (inventory (app w))) lines ->
  sale_outcome w (while_true fuel sale_iter lines w).
Proof.
  induction fuel as [|fuel IH]; intros lines w Hfuel Hupc Hl; [lia|].
  cbn [while_true]. cbv beta iota delta [bind].
  pose proof (sale_iter_cases lines w Hupc Hl) as Hi.
  destruct (sale_iter lines w) as [[lines'|[]] w'|e w']; [|done..].
  destruct Hi as (Happ & Hlen & Hl').
  specialize (IH lines' w'). rewrite Happ in IH.
  specialize (IH ltac:(lia) Hupc Hl').
  destruct (while_true fuel sale_iter lines' w') as [[] w''|e w'']; simpl in *.
  - destruct IH as [IH|(ls & w0 & ? & ? & ?)]; [left; congruence|].
    right. exists ls, w0. repeat split; try done; congruence.
  - destruct IH as [He [IH|(ls & w0 & ? & ? & ?)]]; (split; [done|]); [left; congruence|].
    right. exists ls, w0. repeat split; try done; congruence.
Qed.

(** [start_sale] always ends, and never by running out of loop fuel. *)
Lemma start_sale_outcome w :
  filed_by_upc (inventory (app w)) -> sale_outcome w (start_sale w).
Proof.
  intros Hupc. unfold start_sale. cbv beta iota delta [bind get].
  apply sale_loop_cases; [lia|done|constructor].
Qed.

Lemma start_sale_wf w :
  wf (app w) ->
  match start_sale w with
  | Ok _ w' | Raise _ w' => wf (app w')
  end.
Proof.
  intros Hwf. pose proof (start_sale_outcome w (wf_upc _ Hwf)) as Ho.
  assert (Hco : forall lines w0,
             Forall (sellable (inventory (app w))) lines -> app w0 = app w ->
             match checkout lines w0 with
             | Ok _ w' | Raise _ w' => wf (app w')
             end).
  { intros lines w0 Hl Happ.
    pose proof (checkout_frame lines w0) as Hc. rewrite Happ in Hc.
    specialize (Hc (sellable_known _ _ Hl)).
    destruct (checkout lines w0) as [[] w'|e w'].
    - destruct Hc as [->|(_ & receipt_no & s' & Hcr & ->)]; [done|].
      eapply wf_committed; try done; [by apply sellable_known|].
      eapply Forall_impl; [exact Hl|]. by intros l [_ ?].
    - destruct Hc as [_ [->| ->]]; [done|]. by apply wf_set_inventory_shift. }
  destruct (start_sale w) as [[] w'|e w']; simpl in Ho.
  - destruct Ho as [->|(lines & w0 & Hl & Happ & Hc)]; [done|].
    specialize (Hco lines w0 Hl Happ). by rewrite Hc in Hco.
  - destruct Ho as [_ [->|(lines & w0 & Hl & Happ & Hc)]]; [done|].
    specialize (Hco lines w0 Hl Happ). by rewrite Hc in Hco.
Qed.

(** ** Receipts that list every item once *)

Lemma lines_with_qty_other upc new_qty lines :
  upc ∉ SaleLine.upc <$> lines -> lines_with_qty upc new_qty lines = lines.
Proof.
  intros Hnotin. unfold lines_with_qty.
  assert (Hne : forall l, l ∈ lines -> SaleLine.upc l <> upc).
  { intros l Hl E. apply Hnotin. rewrite <- E. by apply list_elem_of_fmap_2. }
  destruct (new_qty <=? 0); [by apply filter_all|].
  clear Hnotin. induction lines as [|l lines IH]; [done|].
  rewrite fmap_cons, decide_False by (apply Hne; left).
  f_equal. apply IH. intros l' Hl'. apply Hne. by right.
Qed.

(** On such a receipt [update_line_qty] touches the one line of the item:
    it is overwritten in place, or removed. *)
Lemma lines_with_qty_distinct new_qty lines : forall i line,
  NoDup (SaleLine.upc <$> lines) ->
  lines !! i = Some line ->
  lines_with_qty (SaleLine.upc line) new_qty lines
  = if new_qty <=? 0 then delete i lines
    else <[i := SaleLine.with_qty line new_qty]> lines.
Proof.
  induction lines as [|l lines IH]; intros i line Hnd Hi; [done|].
  rewrite fmap_cons in Hnd. apply NoDup_cons in Hnd as [Hnotin Hnd].
  destruct i as [|i]; simpl in Hi.
  - injection Hi as ->.
    pose proof (lines_with_qty_other (SaleLine.upc line) new_qty lines Hnotin) as Hrest.
    unfold lines_with_qty in *. destruct (new_qty <=? 0).
    + by rewrite filter_cons_False by (by intros []).
    + rewrite fmap_cons, decide_True by done. simpl. by f_equal.
  - assert (Hne : SaleLine.upc l <> SaleLine.upc line).
    { intros E. apply Hnotin. rewrite E. apply list_elem_of_fmap_2.
      by eapply list_elem_of_lookup_2. }
    specialize (IH i line Hnd Hi). unfold lines_with_qty in *.
    destruct (new_qty <=? 0).
    + rewrite filter_cons_True by done. simpl. by f_equal.
    + rewrite fmap_cons, decide_False by done. simpl. by f_equal.
Qed.

(** ** The loops end *)

Lemma eats_tame {A} (m : M World A) : eats m -> tame m.
Proof. intros Hm w. specialize (Hm w). destruct (m w); [lia|done]. Qed.

Lemma tame_ret {A} (a : A) : tame (ret a).
Proof. intros w. simpl. lia. Qed.

Lemma tame_raise {A} e : e <> Exhausted -> tame (raise e : M World A).
Proof. intros He w. simpl. split; [done|lia]. Qed.

Lemma tame_get : tame get.
Proof. intros w. simpl. lia. Qed.

Lemma tame_print m : tame (print m).
Proof. intros w. simpl. lia. Qed.

Lemma eats_input : eats input.
Proof. intros w. unfold input. destruct (stdin w) eqn:E; simpl; [by rewrite E|lia]. Qed.

Lemma tame_bind {A B} (m : M World A) (k : A -> M World B) :
  tame m -> (forall a, tame (k a)) -> tame (bind m k).
Proof.
  intros Hm Hk w. unfold bind. specialize (Hm w).
  destruct (m w) as [a w'|e w']; [|done].
  specialize (Hk a w'). destruct (k a w'); [lia|]. split; [tauto|lia].
Qed.

Lemma eats_bind {A B} (m : M World A) (k : A -> M World B) :
  eats m -> (forall a, tame (k a)) -> eats (bind m k).
Proof.
  intros Hm Hk w. unfold bind. specialize (Hm w).
  destruct (m w) as [a w'|e w']; [|done].
  specialize (Hk a w'). destruct (k a w'); [lia|]. split; [tauto|lia].
Qed.

Lemma eats_after {A B} (m : M World A) (k : A -> M World B) :
  tame m -> (forall a, eats (k a)) -> eats (bind m k).
Proof.
  intros Hm Hk w. unfold bind. specialize (Hm w).
  destruct (m w) as [a w'|e w']; [|done].
  specialize (Hk a w'). destruct (k a w'); [lia|]. split; [tauto|lia].
Qed.

Lemma tame_try_except {A} (m h : M World A) handles :
  tame m -> tame h -> tame (try_except m handles h).
Proof.
  intros Hm Hh w. unfold try_except. specialize (Hm w).
  destruct (m w) as [a w'|e w']; [done|].
  destruct (handles e); [|done].
  specialize (Hh w'). destruct (h w'); [lia|]. split; [tauto|lia].
Qed.

Lemma tame_for_each {A} (l : list A) (body : A -> M World unit) :
  (forall x, tame (body x)) -> tame (for_each l body).
Proof.
  intros Hb. induction l as [|x l IH]; simpl; [apply tame_ret|].
  by apply tame_bind.
Qed.

Lemma tame_on_app {A} (m : M POSApp.t A) : sober m -> tame (on_app m).
Proof.
  intros Hm w. unfold on_app. specialize (Hm (app w)).
  destruct (m (app w)); simpl; [lia|]. split; [done|lia].
Qed.

Lemma sober_on_store {A} (m : M SalesStore.t A) : sober m -> sober (on_store m).
Proof. intros Hm p. unfold on_store. specialize (Hm (sales_store p)). by destruct (m _). Qed.

Lemma sober_update_on_hand upc delta : sober (update_on_hand upc delta).
Proof. intros p. unfold update_on_hand. by destruct (_ !! _). Qed.

Lemma sober_save_inventory : sober save_inventory.
Proof. by intros p. Qed.

Lemma sober_create_receipt lines : sober (SalesStore.create_receipt lines).
Proof.
  intros s. destruct (SalesStore.create_receipt lines s) eqn:E; [done|].
  by eapply create_receipt_Raise_exn.
Qed.

Lemma sober_get_receipt receipt_no : sober (SalesStore.get_receipt receipt_no).
Proof.
  intros s. unfold SalesStore.get_receipt.
  destruct (negb _); [done|]. by destruct (_ !! _).
Qed.

Lemma sober_set_canceled receipt_no : sober (SalesStore.set_canceled receipt_no).
Proof. intros s. unfold SalesStore.set_canceled. by destruct (negb _). Qed.

Lemma sober_update_line_qty receipt_no upc new_qty :
  sober (SalesStore.update_line_qty receipt_no upc new_qty).
Proof.
  intros s. unfold SalesStore.update_line_qty.
  destruct (new_qty <=? 0); by destruct (negb _).
Qed.

Lemma tame_calc_total lines : tame (calc_total lines).
Proof.
  unfold calc_total. destruct (total_of lines); [apply tame_ret|by apply tame_raise].
Qed.

Lemma tame_print_lines line_msg i lines : tame (print_lines line_msg i lines).
Proof.
  revert i. induction lines as [|l lines IH]; intros i; simpl; [apply tame_ret|].
  apply tame_bind; [apply tame_print|]. intros _. apply IH.
Qed.

(** A [while True] loop whose every turn eats, started with one unit of fuel
    more than there are lines to read. *)
Lemma tame_while {A B} (body : A -> M World (A + B)) :
  (forall a, eats (body a)) ->
  forall fuel a w,
    (length (stdin w) < fuel)%nat ->
    match while_true fuel body a w with
    | Ok _ w' => (length (stdin w') <= length (stdin w))%nat
    | Raise e w' => e <> Exhausted /\ (length (stdin w') <= length (stdin w))%nat
    end.
Proof.
  intros Hb. induction fuel as [|fuel IH]; intros a w Hfuel; [lia|].
  cbn [while_true]. unfold bind. specialize (Hb a w).
  destruct (body a w) as [[a'|b] w'|e w']; [|simpl; lia|done].
  specialize (IH a' w' ltac:(lia)).
  destruct (while_true fuel body a' w'); [lia|]. split; [tauto|lia].
Qed.

Lemma tame_loop {A B} (body : A -> M World (A + B)) a :
  (forall a, eats (body a)) ->
  tame (let* w := get in while_true (S (length (stdin w))) body a).
Proof. intros Hb w. unfold bind, get. apply tame_while; [done|lia]. Qed.

(** One proof step for a tameness goal, by the shape of the program. *)
Ltac tame_step :=
  first
    [ assumption
    | apply tame_ret
    | apply tame_print
    | apply tame_get
    | apply tame_calc_total
    | apply tame_print_lines
    | apply tame_raise; discriminate
    | apply eats_tame, eats_input
    | apply tame_on_app;
      first [ apply sober_update_on_hand
            | apply sober_save_inventory
            | apply sober_on_store;
              first [ apply sober_create_receipt | apply sober_get_receipt
                    | apply sober_set_canceled | apply sober_update_line_qty ] ]
    | apply tame_for_each; intros ?
    | apply tame_try_except
    | apply tame_bind; [|intros ?]
    | case_match ].

Ltac tame_auto := repeat tame_step.

Lemma tame_int_input : tame int_input.
Proof. unfold int_input. tame_auto. Qed.

Lemma tame_try_or_print {A} (m : M World A) handles msg :
  tame m -> tame (try_or_print m handles msg).
Proof. intros Hm. unfold try_or_print. tame_auto. Qed.

Lemma eats_cash_iter total : eats (cash_iter total tt).
Proof.
  intros w. destruct (stdin w) as [|s rest] eqn:Hin.
  - rewrite (cash_iter_nil _ _ Hin). by rewrite Hin.
  - rewrite (cash_iter_cons _ _ _ _ Hin).
    destruct (float_of_str s) as [cash|]; [destruct (cash <? total)%float|]; simpl; lia.
Qed.

Lemma tame_read_cash total : tame (read_cash total).
Proof. unfold read_cash. apply tame_loop. intros []. apply eats_cash_iter. Qed.

Lemma tame_checkout lines : tame (checkout lines).
Proof.
  unfold checkout. destruct lines; [apply tame_print|].
  apply tame_bind; [apply tame_calc_total|intros total].
  apply tame_bind; [apply tame_print|intros _].
  apply tame_bind; [apply tame_read_cash|intros cash].
  tame_auto.
Qed.

Lemma tame_add_item lines : tame (add_item lines).
Proof.
  unfold add_item, show_inventory.
  repeat first [ apply tame_try_or_print, tame_int_input | tame_step ].
Qed.

Lemma tame_remove_item lines : tame (remove_item lines).
Proof.
  unfold remove_item.
  repeat first [ apply tame_try_or_print | apply tame_int_input | tame_step ].
Qed.

Lemma eats_sale_iter lines : eats (sale_iter lines).
Proof.
  unfold sale_iter. apply eats_after; [apply tame_print|intros _].
  apply eats_bind; [apply eats_input|intros s].
  repeat first [ apply tame_add_item | apply tame_remove_item | apply tame_checkout
               | tame_step ].
Qed.

Lemma tame_start_sale : tame start_sale.
Proof. unfold start_sale. apply tame_loop. apply eats_sale_iter. Qed.

Lemma tame_process_return : tame process_return.
Proof.
  unfold process_return, return_all, return_one.
  repeat first [ apply tame_try_or_print | apply tame_int_input | tame_step ].
Qed.

(** A loop whose every turn is tame and lowers a measure of the loop
    variable, started with more fuel than the measure. *)
Lemma tame_while_measure {A B} (body : A -> M World (A + B)) (mu : A -> nat) :
  (forall a, tame (body a)) ->
  (forall a w a' w', body a w = Ok (inl a') w' -> (mu a' < mu a)%nat) ->
  forall fuel a, (mu a < fuel)%nat -> tame (while_true fuel body a).
Proof.
  intros Hb Hmu. induction fuel as [|fuel IH]; intros a Hfuel w; [lia|].
  cbn [while_true]. unfold bind. specialize (Hb a w).
  destruct (body a w) as [[a'|b] w'|e w'] eqn:E; [|simpl; lia|done].
  apply Hmu in E. specialize (IH a' ltac:(lia) w').
  destruct (while_true fuel body a' w'); [lia|]. split; [tauto|lia].
Qed.

Lemma tame_login_iter tries : tame (login_iter tries).
Proof. unfold login_iter. tame_auto. Qed.

(** Every failed attempt brings the third one closer. *)
Lemma login_iter_tries tries w tries' w' :
  login_iter tries w = Ok (inl tries') w' ->
  (Z.to_nat (3 - tries') < Z.to_nat (3 - tries))%nat.
Proof.
  unfold login_iter. destruct (tries <? 3) eqn:Hlt; [|discriminate].
  apply Z.ltb_lt in Hlt. unfold bind, input, print, modify, get, ret. simpl.
  destruct (stdin w) as [|s1 [|s2 rest]]; simpl; try discriminate.
  destruct (decide _); simpl; intros [= <- _]. lia.
Qed.

Lemma tame_login : tame login.
Proof.
  unfold login.
  apply (tame_while_measure login_iter (fun tries => Z.to_nat (3 - tries)));
    [apply tame_login_iter|apply login_iter_tries|simpl; lia].
Qed.

Lemma eats_run_iter : eats (run_iter tt).
Proof.
  unfold run_iter. apply eats_after; [apply tame_print|intros _].
  apply eats_bind; [apply eats_input|intros s].
  repeat first [ apply tame_start_sale | apply tame_process_return | tame_step ].
Qed.

(** [run] ends whatever the operator types, and never for lack of fuel. *)
Lemma tame_run : tame run.
Proof.
  unfold run. apply tame_bind; [apply tame_login|intros ok].
  destruct ok; [|apply tame_ret]. apply tame_loop. intros []. apply eats_run_iter.
Qed.

End Theory.

(** * Lemmas for the further properties *)

Section Further.
Context `{Builtins}.

(** ** The store through sequences of calls *)

Lemma linked_last_rowid s : linked s -> last_rowid s = SalesStore.seq s.
Proof.
  intros Hl. unfold last_rowid. apply Z.max_l.
  unfold SalesStore.max_rowid.
  assert (Hall : forall kv, kv ∈ map_to_list (SalesStore.receipts s) -> kv.1 <= SalesStore.seq s).
  { intros [k c] Hkv%elem_of_map_to_list. apply (linked_keys s Hl) in Hkv. simpl. lia. }
  pose proof (linked_seq s Hl) as Hseq.
  induction (map_to_list (SalesStore.receipts s)) as [|kv l IH]; simpl; [lia|].
  apply Z.max_lub.
  - apply Hall. left.
  - apply IH. intros kv' Hkv'. apply Hall. by right.
Qed.

Lemma linked_init : linked SalesStore._init_db.
Proof. split; simpl; [by intros n l ?%elem_of_nil|by intros k c ?%lookup_empty_Some|unfold int64_max; lia]. Qed.

Lemma linked_with_receipt lines s :
  linked s -> SalesStore.seq s < int64_max ->
  linked (with_receipt (SalesStore.seq s + 1) lines s).
Proof.
  intros Hl Hfull. pose proof (linked_seq s Hl). split; simpl.
  - intros n l [Hin|Hin]%elem_of_app.
    + destruct (linked_rows s Hl n l Hin) as [c Hc].
      destruct (decide (n = SalesStore.seq s + 1)) as [->|Hne].
      * rewrite lookup_insert_eq. by eexists.
      * rewrite lookup_insert_ne by done. by eexists.
    + apply list_elem_of_fmap in Hin as (l' & [= -> ->] & _).
      rewrite lookup_insert_eq. by eexists.
  - intros k c [[<- _]|[_ Hk]]%lookup_insert_Some; [lia|].
    apply (linked_keys s Hl) in Hk. lia.
  - lia.
Qed.

Lemma linked_canceled_store n s : linked s -> linked (canceled_store n s).
Proof.
  intros Hl. split; simpl.
  - intros m l Hin. destruct (linked_rows s Hl m l Hin) as [c Hc].
    destruct (decide (m = n)) as [->|Hne].
    + rewrite lookup_alter_eq, Hc. by eexists.
    + rewrite lookup_alter_ne by done. by eexists.
  - intros k c Hk. destruct (decide (k = n)) as [->|Hne].
    + rewrite lookup_alter_eq in Hk. destruct (SalesStore.receipts s !! n) eqn:E; [|done].
      by apply (linked_keys s Hl) in E.
    + rewrite lookup_alter_ne in Hk by done. by apply (linked_keys s Hl) in Hk.
  - by apply linked_seq.
Qed.

Lemma linked_line_updated n upc q s : linked s -> linked (line_updated n upc q s).
Proof.
  intros Hl. split; simpl; [|by apply linked_keys|by apply linked_seq].
  intros m l [Hin|(_ & l0 & Hin & _)]%rows_updated_elem;
    by eapply (linked_rows s Hl).
Qed.

Lemma call_cases c s :
  match call c s with
  | Ok (Some receipt_no) s' =>
      exists lines, c = call_create_receipt lines /\ last_rowid s < int64_max /\
        receipt_no = last_rowid s + 1 /\ s' = with_receipt receipt_no lines s
  | Ok None s' =>
      s' = s \/
      (exists n, s' = canceled_store n s) \/
      (exists n upc q, s' = line_updated n upc q s)
  | Raise _ s' => s' = s
  end.
Proof.
  destruct c as [lines|n|n|n upc q]; simpl; unfold bind.
  - destruct (SalesStore.create_receipt lines s) as [receipt_no s'|e s'] eqn:E; simpl.
    + apply create_receipt_Ok in E as (? & ? & ? & ?). by exists lines.
    + by apply create_receipt_Raise in E.
  - unfold SalesStore.get_receipt. destruct (negb _); [done|].
    destruct (_ !! _); simpl; auto.
  - unfold SalesStore.set_canceled. destruct (negb _); [done|]. simpl.
    right; left. by exists n.
  - destruct (SalesStore.update_line_qty n upc q s) as [[] s'|e s'] eqn:E; simpl.
    + apply update_line_qty_Ok_inv in E. right; right. by exists n, upc, q.
    + unfold SalesStore.update_line_qty in E.
      destruct (q <=? 0); destruct (negb _); by inversion E.
Qed.

Lemma linked_call c s :
  linked s -> match call c s with Ok _ s' | Raise _ s' => linked s' end.
Proof.
  intros Hl. pose proof (call_cases c s) as Hc.
  destruct (call c s) as [[receipt_no|] s'|e s'].
  - destruct Hc as (lines & _ & Hfull & -> & ->).
    rewrite linked_last_rowid in * by done. by apply linked_with_receipt.
  - destruct Hc as [->|[[n ->]|(n & upc & q & ->)]];
      [done|by apply linked_canceled_store|by apply linked_line_updated].
  - by subst.
Qed.

Lemma linked_after calls : forall s, linked s -> linked (after calls s).
Proof.
  induction calls as [|c calls IH]; intros s Hl; [done|]. simpl.
  pose proof (linked_call c s Hl) as Hc.
  destruct (call c s); by apply IH.
Qed.

Lemma receipts_after_call c s n b :
  SalesStore.receipts s !! n = Some b ->
  match call c s with
  | Ok _ s' | Raise _ s' =>
      exists b', SalesStore.receipts s' !! n = Some b' /\ (b = true -> b' = true)
  end.
Proof.
  intros Hn. pose proof (call_cases c s) as Hc.
  pose proof (last_rowid_ge s n b Hn) as Hge.
  destruct (call c s) as [[receipt_no|] s'|e s'].
  - destruct Hc as (lines & _ & _ & -> & ->). exists b. simpl.
    rewrite lookup_insert_ne by lia. done.
  - destruct Hc as [->|[[m ->]|(m & upc & q & ->)]]; simpl; [by exists b| |by exists b].
    destruct (decide (n = m)) as [->|Hne].
    + exists true. by rewrite lookup_alter_eq, Hn.
    + exists b. by rewrite lookup_alter_ne.
  - subst. by exists b.
Qed.

(** ** Items and catalogues *)

Lemma same_item_refl it : same_item it it.
Proof. unfold same_item. by rewrite Z.sub_diag, update_on_hand_0. Qed.

Lemma same_item_update it d : same_item it (Item.update_on_hand it d).
Proof. destruct it. unfold same_item, Item.update_on_hand. simpl. f_equal. lia. Qed.

Lemma same_item_trans it1 it2 it3 :
  same_item it1 it2 -> same_item it2 it3 -> same_item it1 it3.
Proof.
  unfold same_item. intros H12 H23. rewrite H23. rewrite H12 at 1.
  rewrite update_on_hand_twice. f_equal. rewrite H12 at 2. simpl. lia.
Qed.

Lemma same_catalogue_refl inv : same_catalogue inv inv.
Proof. intros u. destruct (inv !! u); constructor. apply same_item_refl. Qed.

Lemma same_catalogue_trans inv1 inv2 inv3 :
  same_catalogue inv1 inv2 -> same_catalogue inv2 inv3 -> same_catalogue inv1 inv3.
Proof.
  intros H12 H23 u. specialize (H12 u). specialize (H23 u).
  destruct H12; inversion H23; subst; constructor. by eapply same_item_trans.
Qed.

Lemma same_catalogue_shift_stock d inv : same_catalogue inv (shift_stock d inv).
Proof.
  intros u. rewrite lookup_shift_stock. destruct (inv !! u); constructor.
  apply same_item_update.
Qed.

Lemma same_catalogue_insert inv u it d :
  inv !! u = Some it -> same_catalogue inv (<[u := Item.update_on_hand it d]> inv).
Proof.
  intros Hu k. destruct (decide (u = k)) as [<-|Hne].
  - rewrite lookup_insert_eq, Hu. constructor. apply same_item_update.
  - rewrite lookup_insert_ne by done. destruct (inv !! k); constructor. apply same_item_refl.
Qed.

(** *** Which exceptions get out *)

Lemma raises_only_ret {St A} ok (a : A) : raises_only (St := St) ok (ret a).
Proof. by intros s. Qed.

Lemma raises_only_raise {St A} (ok : Exn -> Prop) e :
  ok e -> raises_only (St := St) (A := A) ok (raise e).
Proof. by intros He s. Qed.

Lemma raises_only_get {St} ok : raises_only (St := St) ok get.
Proof. by intros s. Qed.

Lemma raises_only_print ok m : raises_only ok (print m).
Proof. by intros s. Qed.

Lemma raises_only_input (ok : Exn -> Prop) : ok EOFError -> raises_only ok input.
Proof. intros He w. unfold input. by destruct (stdin w). Qed.

Lemma raises_only_bind {St A B} ok (m : M St A) (k : A -> M St B) :
  raises_only ok m -> (forall a, raises_only ok (k a)) -> raises_only ok (bind m k).
Proof.
  intros Hm Hk s. unfold bind. specialize (Hm s).
  destruct (m s) as [a s'|e s']; [apply Hk|done].
Qed.

Lemma raises_only_try_except {St A} ok (m h : M St A) handles :
  raises_only (fun e => handles e = true \/ ok e) m ->
  raises_only ok h ->
  raises_only ok (try_except m handles h).
Proof.
  intros Hm Hh s. unfold try_except. specialize (Hm s).
  destruct (m s) as [a s'|e s']; [done|].
  destruct (handles e) eqn:E; [apply Hh|]. by destruct Hm.
Qed.

Lemma raises_only_for_each {St A} ok (l : list A) (body : A -> M St unit) :
  (forall x, raises_only ok (body x)) -> raises_only ok (for_each l body).
Proof.
  intros Hb. induction l as [|x l IH]; simpl; [apply raises_only_ret|].
  by apply raises_only_bind.
Qed.

Lemma raises_only_calc_total {St} (ok : Exn -> Prop) lines :
  ok OverflowError -> raises_only (St := St) ok (calc_total lines).
Proof.
  intros He. unfold calc_total.
  destruct (total_of lines); [apply raises_only_ret|by apply raises_only_raise].
Qed.

Lemma raises_only_print_lines ok line_msg i lines :
  raises_only ok (print_lines line_msg i lines).
Proof. intros w. by rewrite print_lines_spec. Qed.

(** One step on a goal [raises_only ok m], by the shape of [m]. *)
Ltac raises_step :=
  first
    [ assumption
    | apply raises_only_ret
    | apply raises_only_print
    | apply raises_only_get
    | apply raises_only_print_lines
    | apply raises_only_raise; cbv; intuition congruence
    | apply raises_only_input; cbv; intuition congruence
    | apply raises_only_calc_total; cbv; intuition congruence
    | apply raises_only_for_each; intros ?
    | apply raises_only_try_except
    | apply raises_only_bind; [|intros ?]
    | case_match ].

Lemma raises_only_add_item lines :
  raises_only (fun e => e = EOFError \/ e = OverflowError) (add_item lines).
Proof.
  unfold add_item, show_inventory, try_or_print, int_input. repeat raises_step.
Qed.

Lemma raises_only_remove_item lines :
  raises_only (fun e => e = EOFError \/ e = OverflowError) (remove_item lines).
Proof.
  unfold remove_item, try_or_print, int_input. repeat raises_step.
Qed.

Lemma create_receipt_Raise_which lines s e s' :
  SalesStore.create_receipt lines s = Raise e s' -> storage_error e.
Proof.
  unfold SalesStore.create_receipt, storage_error.
  destruct (int64_max <=? _); [intros [= <- _]; auto|].
  destruct (SalesStore.executemany_error lines) as [e'|] eqn:E; [|done].
  intros [= <- _]. apply executemany_error_Some in E. tauto.
Qed.

(** Every way a checkout over lines of known items can end. *)
Lemma checkout_effect lines w :
  Forall (sellable (inventory (app w))) lines ->
  sale_effect (app w) (checkout lines w).
Proof.
  intros Hl. pose proof (sellable_known _ _ Hl) as Hk.
  destruct lines as [|l0 lines0]; [by left|].
  remember (l0 :: lines0) as lines eqn:E.
  assert (Hne : lines <> []) by (by subst).
  clear E. pose proof (checkout_cases lines w Hne) as Hc.
  destruct (total_of lines) as [total|]; [|rewrite Hc; left; auto].
  pose proof (read_cash_spec total (put_msg (TotalDue total) w)) as Hcash.
  destruct (read_cash total _) as [cash w1|e w1].
  - destruct Hcash as [Happ _]. simpl in Happ.
    rewrite decide_True in Hc by done.
    destruct (SalesStore.create_receipt lines _) as [receipt_no s'|e s'] eqn:Hcr.
    + rewrite Hc. right. exists lines.
      apply create_receipt_Ok in Hcr as (? & -> & ? & ->). by repeat split.
    + rewrite Hc. right. exists lines. repeat split; try done.
      * by eapply create_receipt_Raise_which.
      * by apply create_receipt_Raise in Hcr as Hs; subst.
  - rewrite Hc. destruct Hcash as [-> Happ]. simpl in Happ. left. auto.
Qed.

Lemma sale_iter_effect lines w :
  filed_by_upc (inventory (app w)) ->
  Forall (sellable (inventory (app w))) lines ->
  match sale_iter lines w with
  | Ok (inl lines') w' =>
      app w' = app w /\ (length (stdin w') < length (stdin w))%nat /\
      Forall (sellable (inventory (app w))) lines'
  | Ok (inr _) w' => sale_effect (app w) (Ok tt w')
  | Raise e w' => sale_effect (app w) (Raise e w')
  end.
Proof.
  intros Hupc Hl. unfold sale_iter. cbv beta iota delta [bind print modify].
  destruct (stdin (put_msg SaleMenu w)) as [|s rest] eqn:Hin.
  { rewrite input_nil by done. simpl. auto. }
  rewrite (input_cons _ s rest) by done.
  set (w0 := set_stdin rest (put_msg SaleMenu w)).
  assert (Happ0 : app w0 = app w) by done.
  assert (Hlen0 : (length (stdin w0) < length (stdin w))%nat).
  { change (stdin (put_msg SaleMenu w)) with (stdin w) in Hin. rewrite Hin. simpl. lia. }
  destruct (decide (str_strip s = "1")) as [_|_].
  { destruct (add_item_cases lines w0) as [Hc Hl']; [done..|].
    pose proof (raises_only_add_item lines w0) as Hr.
    destruct (add_item lines w0) as [lines' w'|e w']; simpl in *.
    - destruct Hc as [Happ Hlen]. cbv beta iota delta [ret]. repeat split; [congruence|lia|done].
    - destruct Hc as [He Happ]. left. split; [done|congruence]. }
  destruct (decide (str_strip s = "2")) as [_|_].
  { destruct (remove_item_cases lines w0) as [Hc Hl']; [done..|].
    pose proof (raises_only_remove_item lines w0) as Hr.
    destruct (remove_item lines w0) as [lines' w'|e w']; simpl in *.
    - destruct Hc as [Happ Hlen]. cbv beta iota delta [ret]. repeat split; [congruence|lia|done].
    - destruct Hc as [He Happ]. left. split; [done|congruence]. }
  destruct (decide (str_strip s = "3")) as [_|_].
  { pose proof (checkout_effect lines w0 Hl) as Hc. rewrite Happ0 in Hc.
    by destruct (checkout lines w0) as [[] w'|e w']. }
  destruct (decide (str_strip s = "0")) as [_|_]; simpl; [by left|].
  repeat split; try done; lia.
Qed.

Lemma sale_loop_effect fuel : forall lines w,
  (length (stdin w) < fuel)%nat ->
  filed_by_upc (inventory (app w)) ->
  Forall (sellable (inventory (app w))) lines ->
  sale_effect (app w) (while_true fuel sale_iter lines w).
Proof.
  induction fuel as [|fuel IH]; intros lines w Hfuel Hupc Hl; [lia|].
  cbn [while_true]. cbv beta iota delta [bind].
  pose proof (sale_iter_effect lines w Hupc Hl) as Hi.
  destruct (sale_iter lines w) as [[lines'|[]] w'|e w']; [|done..].
  destruct Hi as (Happ & Hlen & Hl').
  specialize (IH lines' w'). rewrite Happ in IH.
  by apply IH; [lia|..].
Qed.

(** Every way a visit to the sale menu can end. *)
Lemma start_sale_effect w :
  filed_by_upc (inventory (app w)) -> sale_effect (app w) (start_sale w).
Proof.
  intros Hupc. unfold start_sale. cbv beta iota delta [bind get].
  apply sale_loop_effect; [lia|done|constructor].
Qed.

(** ** The login loop *)

Lemma login_loop fuel : forall tries w,
  0 <= tries <= 3 ->
  (Z.to_nat (3 - tries) < fuel)%nat ->
  login_result tries w (while_true fuel login_iter tries w).
Proof.
  induction fuel as [|fuel IH]; intros tries w Htries Hfuel; [lia|].
  cbn [while_true]. unfold login_iter at 1.
  destruct (tries <? 3) eqn:Hlt.
  - apply Z.ltb_lt in Hlt.
    cbv beta iota zeta delta [bind print modify input get ret]. simpl.
    unfold login_result.
    destruct (stdin w) as [|u [|p rest]] eqn:Hin; simpl;
      [split; [done|split; [done|rewrite ?Hin; simpl length; lia]]..|].
    destruct (decide (users (app w) !! str_strip u = Some (str_strip p))) as [Hok|Hbad]; simpl.
    + split; [done|]. exists []. split; [constructor|]. exists (u, p).
      repeat split; try done; simpl; [lia|by rewrite <- app_assoc].
    + specialize (IH (tries + 1)
                     {| app := app w; stdin := rest;
                        stdout := (stdout w ++ [LoginBanner])
                                  ++ [WrongLogin (3 - (tries + 1))] |}
                     ltac:(lia) ltac:(lia)).
      unfold login_result in IH.
      destruct (while_true fuel login_iter (tries + 1) _) as [ok w'|e w']; simpl in *.
      * destruct IH as (Happ & wrong & Hwrong & IH). split; [done|].
        exists ((u, p) :: wrong). split; [by constructor|].
        destruct ok.
        -- destruct IH as (good & Hgood & Hlen & Hrest & Hout). exists good.
           repeat split; try done.
           ++ simpl length. lia.
           ++ simpl. by rewrite Hrest.
           ++ rewrite Hout. simpl. by rewrite <- !app_assoc.
        -- destruct IH as (Hlen & Hrest & Hout). repeat split.
           ++ simpl length. lia.
           ++ simpl. by rewrite Hrest.
           ++ rewrite Hout. simpl. by rewrite <- !app_assoc.
      * destruct IH as (-> & Happ & Hlen). repeat split; try done. simpl length. lia.
  - apply Z.ltb_ge in Hlt. assert (tries = 3) as -> by lia.
    cbv beta iota zeta delta [bind print modify ret]. unfold login_result. simpl.
    split; [done|]. exists []. split; [constructor|]. by repeat split.
Qed.

Lemma login_cases w : login_result 0 w (login w).
Proof. unfold login. apply login_loop; [lia|simpl; lia]. Qed.

(** *** Invariants of the main menu *)

(** A [while True] loop whose every turn eats, started with more fuel than
    there are lines to read: [P] holds on entry to every turn, [R] when the
    loop is left, [Q] when it raises. *)
Lemma while_eats_inv {A B} (body : A -> M World (A + B))
    (P : World -> Prop) (R : World -> Prop) (Q : Exn -> World -> Prop) :
  (forall a, eats (body a)) ->
  (forall a w, P w ->
     match body a w with
     | Ok (inl _) w' => P w'
     | Ok (inr _) w' => R w'
     | Raise e w' => Q e w'
     end) ->
  forall fuel a w,
    (length (stdin w) < fuel)%nat -> P w ->
    match while_true fuel body a w with
    | Ok _ w' => R w'
    | Raise e w' => Q e w'
    end.
Proof.
  intros He Hb. induction fuel as [|fuel IH]; intros a w Hfuel HP; [lia|].
  cbn [while_true]. unfold bind. specialize (Hb a w HP). specialize (He a w).
  destruct (body a w) as [[a'|b] w'|e w']; [|done..].
  apply IH; [lia|done].
Qed.

Lemma run_iter_inv (P : POSApp.t -> Prop) (Q : Exn -> POSApp.t -> Prop) :
  (forall w, P (app w) ->
     match start_sale w with
     | Ok _ w' => P (app w')
     | Raise e w' => Q e (app w')
     end) ->
  (forall w, P (app w) ->
     match process_return w with
     | Ok _ w' => P (app w')
     | Raise e w' => Q e (app w')
     end) ->
  (forall p, P p -> Q EOFError p) ->
  forall w, P (app w) ->
    match run_iter tt w with
    | Ok (inl _) w' => P (app w')
    | Ok (inr _) w' => P (app w') /\ last (stdout w') = Some Goodbye
    | Raise e w' => Q e (app w')
    end.
Proof.
  intros Hsale Hret Heof w HP. unfold run_iter.
  cbv beta iota delta [bind print modify].
  destruct (stdin (put_msg MainMenu w)) as [|s rest] eqn:Hin.
  { rewrite input_nil by done. simpl. by apply Heof. }
  rewrite (input_cons _ s rest) by done.
  set (w0 := set_stdin rest (put_msg MainMenu w)).
  assert (HP0 : P (app w0)) by done.
  destruct (decide (str_strip s = "1")) as [_|_].
  { specialize (Hsale w0 HP0). by destruct (start_sale w0). }
  destruct (decide (str_strip s = "2")) as [_|_]; [done|].
  destruct (decide (str_strip s = "3")) as [_|_].
  { specialize (Hret w0 HP0). by destruct (process_return w0). }
  destruct (decide (str_strip s = "0")) as [_|_]; [|done].
  simpl. split; [done|]. by rewrite last_snoc.
Qed.

(** What holds of the application before [run] and is kept by a sale and by
    a return holds after [run]; [run] returns only when the operator is
    locked out or has chosen to leave. *)
Lemma run_cases (P : POSApp.t -> Prop) (Q : Exn -> POSApp.t -> Prop) :
  (forall w, P (app w) ->
     match start_sale w with
     | Ok _ w' => P (app w')
     | Raise e w' => Q e (app w')
     end) ->
  (forall w, P (app w) ->
     match process_return w with
     | Ok _ w' => P (app w')
     | Raise e w' => Q e (app w')
     end) ->
  (forall p, P p -> Q EOFError p) ->
  forall w, P (app w) ->
    match run w with
    | Ok _ w' =>
        P (app w') /\
        (last (stdout w') = Some Goodbye \/ last (stdout w') = Some LockedOut)
    | Raise e w' => Q e (app w')
    end.
Proof.
  intros Hsale Hret Heof w HP. unfold run. unfold bind at 1.
  pose proof (login_cases w) as Hl.
  destruct (login w) as [ok w1|e w1]; simpl in Hl.
  - destruct Hl as (Happ & wrong & _ & Hl). destruct ok.
    + cbv beta iota delta [bind get].
      apply (while_eats_inv run_iter (fun w => P (app w))
               (fun w' => P (app w') /\
                  (last (stdout w') = Some Goodbye \/ last (stdout w') = Some LockedOut))
               (fun e w' => Q e (app w'))).
      * intros []. apply eats_run_iter.
      * intros [] w2 HP2. pose proof (run_iter_inv P Q Hsale Hret Heof w2 HP2) as Hi.
        destruct (run_iter tt w2) as [[|] w3|e w3]; [done| |done].
        destruct Hi. auto.
      * lia.
      * by rewrite Happ.
    + simpl. rewrite Happ. split; [done|]. right.
      destruct Hl as (_ & _ & ->). by rewrite !app_assoc, last_snoc.
  - destruct Hl as (-> & -> & _). by apply Heof.
Qed.

(** *** What a sale and a return keep *)

Lemma start_sale_catalogue w :
  filed_by_upc (inventory (app w)) ->
  match start_sale w with
  | Ok _ w' | Raise _ w' =>
      users (app w') = users (app w) /\
      same_catalogue (inventory (app w)) (inventory (app w'))
  end.
Proof.
  intros Hupc. pose proof (start_sale_effect w Hupc) as He.
  destruct (start_sale w) as [[] w'|e w']; simpl in He.
  - destruct He as [->|(lines & _ & _ & _ & _ & ->)]; simpl.
    + split; [done|apply same_catalogue_refl].
    + split; [done|apply same_catalogue_shift_stock].
  - destruct He as [[_ ->]|(lines & _ & _ & _ & _ & ->)]; simpl.
    + split; [done|apply same_catalogue_refl].
    + split; [done|apply same_catalogue_shift_stock].
Qed.

Lemma return_effect_catalogue receipt_no lines p p' :
  return_effect receipt_no lines p p' ->
  users p' = users p /\ same_catalogue (inventory p) (inventory p') /\ (in_sync p -> in_sync p').
Proof.
  intros [| |line return_qty it Hin Hq Hit]; simpl.
  - split; [done|]. split; [apply same_catalogue_refl|done].
  - split; [done|]. split; [apply same_catalogue_shift_stock|done].
  - split; [done|]. split; [by apply same_catalogue_insert|done].
Qed.

Lemma process_return_catalogue w :
  wf (app w) ->
  match process_return w with
  | Ok _ w' | Raise _ w' =>
      users (app w') = users (app w) /\
      same_catalogue (inventory (app w)) (inventory (app w')) /\
      (in_sync (app w) -> in_sync (app w'))
  end.
Proof.
  intros Hwf. pose proof (process_return_cases w Hwf) as Hc.
  destruct (process_return w) as [[] w'|e w'].
  - destruct Hc as [->|(receipt_no & _ & He)].
    + split; [done|]. split; [apply same_catalogue_refl|done].
    + by eapply return_effect_catalogue.
  - destruct Hc as [_ ->]. split; [done|]. split; [apply same_catalogue_refl|done].
Qed.

Lemma start_sale_sync w :
  filed_by_upc (inventory (app w)) ->
  in_sync (app w) ->
  match start_sale w with
  | Ok _ w' => in_sync (app w')
  | Raise e w' => in_sync (app w') \/ storage_error e
  end.
Proof.
  intros Hupc Hs. pose proof (start_sale_effect w Hupc) as He.
  destruct (start_sale w) as [[] w'|e w']; simpl in He.
  - by destruct He as [->|(lines & _ & _ & _ & _ & ->)].
  - destruct He as [[_ ->]|(lines & _ & _ & ? & _ & _)]; auto.
Qed.

Lemma py_index_line_index len n : py_index len (n - 1) = line_index len n.
Proof.
  unfold py_index, line_index.
  destruct (decide (1 <= n <= len)) as [Hin|Hout].
  - assert ((0 <=? n - 1) && (n - 1 <? len) = true) as ->; [|done].
    apply andb_true_iff. rewrite Z.leb_le, Z.ltb_lt. lia.
  - assert ((0 <=? n - 1) && (n - 1 <? len) = false) as ->.
    { apply andb_false_iff. rewrite Z.leb_gt, Z.ltb_ge. lia. }
    destruct (decide (- len < n <= 0)) as [Hneg|Hout'].
    + assert ((- len <=? n - 1) && (n - 1 <? 0) = true) as ->.
      { apply andb_true_iff. rewrite Z.leb_le, Z.ltb_lt. lia. }
      f_equal. f_equal. lia.
    + assert ((- len <=? n - 1) && (n - 1 <? 0) = false) as ->; [|done].
      apply andb_false_iff. rewrite Z.leb_gt, Z.ltb_ge. lia.
Qed.

Lemma line_index_lt len n i : line_index len n = Some i -> (Z.of_nat i < len).
Proof.
  unfold line_index. repeat case_decide; intros [= <-]; lia.
Qed.

Lemma py_pop_line {A} (l : list A) n :
  py_pop l (n - 1) = (fun i => delete i l) <$> line_index (Z.of_nat (length l)) n.
Proof. unfold py_pop. rewrite py_index_line_index. by destruct (line_index _ _). Qed.

Lemma py_getitem_line {A} (l : list A) n :
  py_getitem l (n - 1) = line_index (Z.of_nat (length l)) n ≫= (fun i => l !! i).
Proof. unfold py_getitem. rewrite py_index_line_index. by destruct (line_index _ _). Qed.

Lemma last_filter_snoc {A} (P : A -> Prop) `{!forall x, Decision (P x)} (l : list A) x :
  last (filter P (l ++ [x]))
  = if decide (P x) then Some x else last (filter P l).
Proof.
  rewrite filter_app, filter_cons, filter_nil.
  destruct (decide (P x)); [by rewrite last_snoc|by rewrite app_nil_r].
Qed.

Lemma last_filter_snoc_one {A} (P : A -> Prop) `{!forall x, Decision (P x)} (l l' : list A) :
  last (filter P (l ++ l'))
  = match last (filter P l') with
    | Some x => Some x
    | None => last (filter P l)
    end.
Proof.
  rewrite filter_app. destruct (filter P l') as [|x k] using rev_ind; simpl.
  - by rewrite app_nil_r.
  - by rewrite app_assoc, !last_snoc.
Qed.

Lemma load_inventory_snoc rows row :
  load_inventory (rows ++ [row])
  = match row_item row with
    | None => load_inventory rows
    | Some it => <[Item.upc it := it]> (load_inventory rows)
    end.
Proof. unfold load_inventory. by rewrite foldl_snoc. Qed.

Lemma load_inventory_last rows u :
  load_inventory rows !! u
  = last (filter (fun it => Item.upc it = u) (good_items rows)).
Proof.
  induction rows as [|row rows IH] using rev_ind; [done|].
  rewrite load_inventory_snoc. unfold good_items in *. rewrite omap_app. simpl.
  destruct (row_item row) as [it|]; simpl.
  - rewrite last_filter_snoc. destruct (decide (Item.upc it = u)) as [<-|Hne].
    + by rewrite lookup_insert_eq.
    + by rewrite lookup_insert_ne.
  - by rewrite app_nil_r.
Qed.

Lemma load_inventory_filed rows : filed_by_upc (load_inventory rows).
Proof.
  intros u it Hu. rewrite load_inventory_last in Hu.
  apply last_Some_elem_of in Hu. by apply list_elem_of_filter in Hu as [? _].
Qed.

Lemma load_users_snoc rows row :
  load_users (rows ++ [row])
  = users ← load_users rows;
    match row_user row with
    | Some (user_id, password) => Some (<[user_id := password]> users)
    | None => None
    end.
Proof.
  unfold load_users. rewrite foldl_snoc.
  destruct (foldl _ _ rows) as [users|]; simpl; [|done].
  unfold row_user.
  destruct (stripped row "Password") as [password|];
    destruct (stripped row "User_ID") as [user_id|]; done.
Qed.

Lemma load_users_cases rows :
  match load_users rows with
  | Some us =>
      Forall (fun row => is_Some (row_user row)) rows /\
      forall user_id,
        us !! user_id
        = snd <$> last (filter (fun c => c.1 = user_id) (omap row_user rows))
  | None => Exists (fun row => row_user row = None) rows
  end.
Proof.
  induction rows as [|row rows IH] using rev_ind.
  { simpl. split; [constructor|]. intros user_id. by rewrite lookup_empty. }
  rewrite load_users_snoc.
  destruct (load_users rows) as [us|]; simpl.
  - destruct IH as [Hall Hlook].
    destruct (row_user row) as [[user_id password]|] eqn:Hrow.
    + split.
      * apply Forall_app. split; [done|]. repeat constructor. by rewrite Hrow.
      * intros k. rewrite omap_app. simpl. rewrite Hrow. simpl.
        rewrite last_filter_snoc. simpl. destruct (decide (user_id = k)) as [<-|Hne].
        -- by rewrite lookup_insert_eq.
        -- rewrite lookup_insert_ne by done. apply Hlook.
    + apply Exists_app. right. by constructor.
  - apply Exists_app. by left.
Qed.

Lemma init_wf users_csv inventory_csv p :
  __init__ users_csv inventory_csv None = Some p -> wf p /\ in_sync p.
Proof.
  unfold __init__. destruct (load_users users_csv) as [us|]; simpl; [|done].
  intros [= <-]. split; [|done]. apply wf_init, load_inventory_filed.
Qed.

Lemma run_wf w :
  wf (app w) -> match run w with Ok _ w' | Raise _ w' => wf (app w') end.
Proof.
  intros Hwf.
  pose proof (run_cases wf (fun _ p => wf p) start_sale_wf process_return_wf
                ltac:(done) w Hwf) as Hrun.
  destruct (run w); tauto.
Qed.

Lemma for_each_demo_print (its : list Item.t) w :
  for_each its (fun it => demo_print (SampleItem it)) w
  = Ok tt {| demo_app := demo_app w; demo_out := demo_out w ++ (SampleItem <$> its) |}.
Proof.
  revert w. induction its as [|it its IH]; intros w; simpl.
  - unfold ret. destruct w; simpl. by rewrite app_nil_r.
  - cbv beta iota delta [bind demo_print modify]. rewrite IH. simpl.
    by rewrite <- app_assoc.
Qed.

Lemma float_of_int_1 : float_of_int 1 = Some 1%float.
Proof. vm_compute. reflexivity. Qed.

Lemma total_of_one_of it :
  total_of [one_of it] = Some (float_sum [(Item.unit_price it * 1)%float]).
Proof.
  unfold total_of, line_totals, one_of. cbn [SaleLine.qty SaleLine.unit_price].
  by rewrite float_of_int_1.
Qed.

(** [demo] up to the point where it looks at the first item. *)
Lemma demo_opening_spec order p out :
  let values := omap (fun upc => inventory p !! upc) order in
  demo order {| demo_app := p; demo_out := out |}
  = match values with
    | [] => Raise IndexError {| demo_app := p; demo_out := out ++ demo_opening values |}
    | first :: _ =>
        (if Item.on_hand first <=? 0 then demo_print DemoOutOfStock
         else
           let* total := calc_total [one_of first] in
           let cash := (total + 1)%float in
           let change := (cash - total)%float in
           on_demo_app (update_on_hand (Item.upc first) (- 1)) >>
           let* receipt_no :=
             on_demo_app (on_store (SalesStore.create_receipt [one_of first])) in
           on_demo_app save_inventory >>
           demo_print (DemoSale 1 (Item.description first) total cash change) >>
           demo_print (DemoReceipt receipt_no) >>
           on_demo_app (update_on_hand (Item.upc first) 1) >>
           on_demo_app (on_store (SalesStore.update_line_qty receipt_no (Item.upc first) 0)) >>
           on_demo_app save_inventory >>
           demo_print (DemoReturn (Item.description first) receipt_no) >>
           demo_print DemoComplete)
          {| demo_app := p; demo_out := out ++ demo_opening values |}
    end.
Proof.
  cbv zeta. unfold demo.
  cbv beta iota zeta delta [bind get demo_print modify]. simpl.
  rewrite for_each_demo_print. simpl.
  unfold demo_opening. rewrite <- !app_assoc. simpl.
  by destruct (omap _ order).
Qed.

Lemma first_value_filed p order first others :
  filed_by_upc (inventory p) ->
  omap (fun upc => inventory p !! upc) order = first :: others ->
  inventory p !! Item.upc first = Some first.
Proof.
  intros Hupc Hvalues.
  assert (Hin : first ∈ omap (fun upc => inventory p !! upc) order)
    by (rewrite Hvalues; left).
  apply list_elem_of_omap in Hin as (u & _ & Hu).
  by rewrite (Hupc _ _ Hu).
Qed.

Lemma sold_one_of inv it :
  inv !! Item.upc it = Some it ->
  <[Item.upc it := Item.update_on_hand it (- 1)]> inv = sold [one_of it] inv.
Proof.
  intros Hit. apply map_eq. intros u. rewrite lookup_sold.
  unfold units. rewrite units_with_cons. simpl.
  destruct (decide (Item.upc it = u)) as [<-|Hne].
  - rewrite lookup_insert_eq, Hit. simpl.
    change (units_with SaleLine.qty (Item.upc it) []) with 0. done.
  - rewrite lookup_insert_ne by done.
    destruct (inv !! u); simpl; [|done].
    change (units_with SaleLine.qty u []) with 0. by rewrite update_on_hand_0.
Qed.

(** With stock of its first item and room in the receipt store, [demo] is a
    sale of one unit followed by the return of that unit from the receipt's
    only line. *)
Lemma demo_runs order p out first others :
  wf p ->
  omap (fun upc => inventory p !! upc) order = first :: others ->
  0 < Item.on_hand first ->
  PrimFloat.is_nan (Item.unit_price first) = false ->
  last_rowid (sales_store p) < int64_max ->
  let receipt_no := last_rowid (sales_store p) + 1 in
  let total := float_sum [(Item.unit_price first * 1)%float] in
  let sale := committed [one_of first]
                (with_receipt receipt_no [one_of first] (sales_store p)) p in
  demo order {| demo_app := p; demo_out := out |}
  = Ok tt {| demo_app :=
               returned_one receipt_no (one_of first) 1
                 (Item.update_on_hand first (- 1)) sale;
             demo_out :=
               out ++ demo_opening (first :: others)
                   ++ [DemoSale 1 (Item.description first) total (total + 1)
                                (total + 1 - total);
                       DemoReceipt receipt_no;
                       DemoReturn (Item.description first) receipt_no;
                       DemoComplete] |}.
Proof.
  intros Hwf Hvalues Hstock Hnan Hfull. cbv zeta.
  pose proof (first_value_filed p order first others (wf_upc _ Hwf) Hvalues) as Hfirst.
  rewrite demo_opening_spec. cbv zeta. rewrite Hvalues.
  assert ((Item.on_hand first <=? 0) = false) as -> by (apply Z.leb_gt; lia).
  unfold calc_total. rewrite total_of_one_of.
  cbv beta iota zeta delta [bind ret].
  unfold on_demo_app at 1, update_on_hand at 1. cbn [demo_app demo_out]. rewrite Hfirst.
  cbn [demo_app demo_out].
  unfold on_demo_app at 1, on_store at 1. cbn [demo_app demo_out sales_store set_inventory].
  rewrite create_receipt_succeeds; [|done|].
  2:{ simpl. unfold SalesStore.insert_error. simpl. by rewrite Hnan. }
  cbn [demo_app demo_out].
  unfold on_demo_app at 1, save_inventory at 1, modify at 1. cbn [demo_app demo_out].
  unfold demo_print at 1, modify at 1. cbn [demo_app demo_out].
  unfold demo_print at 1, modify at 1. cbn [demo_app demo_out].
  unfold on_demo_app at 1, update_on_hand at 1.
  cbn [demo_app demo_out inventory set_sales_store set_inventory].
  rewrite lookup_insert_eq. cbn [demo_app demo_out].
  unfold on_demo_app at 1, on_store at 1.
  cbn [demo_app demo_out sales_store set_inventory set_sales_store].
  rewrite update_line_qty_Ok.
  2:{ apply sqlite_int_spec. pose proof (last_rowid_nonneg (sales_store p)).
      unfold int64_max in *. lia. }
  2:{ unfold int64_max. lia. }
  cbn [demo_app demo_out].
  unfold on_demo_app at 1, save_inventory at 1, modify at 1. cbn [demo_app demo_out].
  unfold demo_print, modify. cbn [demo_app demo_out].
  f_equal. f_equal.
  - unfold returned_one, committed, set_inventory, set_sales_store. simpl.
    by rewrite <- sold_one_of.
  - by rewrite <- !app_assoc.
Qed.

Lemma for_each_app {St A} (l1 l2 : list A) (body : A -> M St unit) s :
  for_each (l1 ++ l2) body s = (for_each l1 body >> for_each l2 body) s.
Proof.
  revert s. induction l1 as [|x l1 IH]; intros s; simpl; [done|].
  unfold bind. destruct (body x s) as [[] s'|e s']; [|done]. apply IH.
Qed.

Lemma get_receipt_same n s s' :
  SalesStore.receipts s' !! n = SalesStore.receipts s !! n ->
  SalesStore.lines_of n s' = SalesStore.lines_of n s ->
  SalesStore.get_receipt n s' = answer_in s' (SalesStore.get_receipt n s).
Proof.
  intros Hr Hl. unfold SalesStore.get_receipt.
  destruct (negb (sqlite_int n)); [done|]. rewrite Hr.
  destruct (SalesStore.receipts s !! n); [|done]. simpl. by rewrite Hl.
Qed.

Lemma return_effect_receipts receipt_no lines p p' :
  return_effect receipt_no lines p p' ->
  SalesStore.seq (sales_store p') = SalesStore.seq (sales_store p) /\
  (forall n, is_Some (SalesStore.receipts (sales_store p') !! n)
             <-> is_Some (SalesStore.receipts (sales_store p) !! n)) /\
  (forall n, n <> receipt_no ->
     SalesStore.get_receipt n (sales_store p')
     = answer_in (sales_store p') (SalesStore.get_receipt n (sales_store p))).
Proof.
  intros [| |line return_qty it Hin Hq Hit]; simpl.
  - split; [done|]. split; [done|]. intros n _. by apply get_receipt_same.
  - split; [done|]. split.
    + intros n. destruct (decide (n = receipt_no)) as [->|Hne].
      * rewrite lookup_alter_eq. destruct (_ !! receipt_no); simpl; split; intros [? ?]; eauto; done.
      * by rewrite lookup_alter_ne.
    + intros n Hn. apply get_receipt_same; simpl; [by rewrite lookup_alter_ne|done].
  - split; [done|]. split; [done|]. intros n Hn. apply get_receipt_same; simpl; [done|].
    by apply lines_of_line_updated_other.
Qed.

(** ** Receipts that list every item once *)

Lemma total_units_delete lines : forall i line,
  lines !! i = Some line ->
  total_units (delete i lines) = total_units lines - SaleLine.qty line.
Proof.
  induction lines as [|l lines IH]; intros [|i] line Hi; simplify_eq/=; [lia|].
  rewrite (IH i line Hi). lia.
Qed.

Lemma total_units_insert lines : forall i line line',
  lines !! i = Some line ->
  total_units (<[i := line']> lines)
  = total_units lines - SaleLine.qty line + SaleLine.qty line'.
Proof.
  induction lines as [|l lines IH]; intros [|i] line line' Hi; simplify_eq/=; [lia|].
  rewrite (IH i line line' Hi). lia.
Qed.

Lemma upcs_insert_with_qty (lines : list SaleLine.t) (i : nat) line q :
  lines !! i = Some line ->
  SaleLine.upc <$> <[i := SaleLine.with_qty line q]> lines = SaleLine.upc <$> lines.
Proof.
  intros Hi. rewrite list_fmap_insert. simpl. apply list_insert_id.
  by rewrite list_lookup_fmap, Hi.
Qed.

End Further.

(** * The claims *)

(** ** The shop is well-formed *)

Lemma wf_shop : wf Shop.app0.
Proof.
  apply wf_init. intros k it Hk.
  apply lookup_insert_Some in Hk as [[<- <-]|[_ Hk]]; [done|].
  by apply lookup_singleton_Some in Hk as [<- <-].
Defined.

Lemma wf_after_sale lines :
  Forall (known (inventory Shop.app0)) lines ->
  Forall (fun l => 0 < SaleLine.qty l) lines ->
  SalesStore.create_receipt lines SalesStore._init_db = Ok 1 (Scenario.receipt1 lines) ->
  wf (committed lines (Scenario.receipt1 lines) Shop.app0).
Proof. intros Hk Hq Hc. by apply (wf_committed lines 1 _ Shop.app0 wf_shop). Defined.

Lemma wf_sold3 : wf Scenario.sold3.
Proof.
  apply wf_after_sale.
  - repeat constructor. by eexists.
  - repeat constructor.
  - vm_compute. reflexivity.
Defined.

Lemma wf_sold1and5 : wf Scenario.sold1and5.
Proof.
  apply wf_after_sale.
  - repeat constructor; by eexists.
  - repeat constructor.
  - vm_compute. reflexivity.
Defined.


(** ** Sales *)

(** C1. A committed sale (a checkout over at least one line that runs to
    completion) creates exactly one new receipt. Its lines are the given
    lines as the REAL column keeps them (a price of -0.0 reads back as 0.0):
    equal to the given ones as Python compares them, with the same
    quantities in the same order. Each item's [on_hand] goes down by the
    units of its lines: by exactly the line's [qty] when no other line shares
    its UPC. The units taken out of the inventory are the units on the
    receipt's lines. *)
Theorem sale_decrements_match_receipt `{Builtins} lines w w' :
  lines <> [] ->
  wf (app w) ->
  checkout lines w = Ok tt w' ->
  exists receipt_no,
    SalesStore.receipts (sales_store (app w)) !! receipt_no = None /\
    sales_store (app w') = with_receipt receipt_no lines (sales_store (app w)) /\
    SalesStore.receipts (sales_store (app w')) !! receipt_no = Some false /\
    SalesStore.lines_of receipt_no (sales_store (app w')) = SalesStore.stored <$> lines /\
    Forall2 same_line lines (SalesStore.lines_of receipt_no (sales_store (app w'))) /\
    SaleLine.qty <$> SalesStore.lines_of receipt_no (sales_store (app w'))
    = SaleLine.qty <$> lines /\
    Forall (known (inventory (app w))) lines /\
    (forall u it,
        inventory (app w) !! u = Some it ->
        inventory (app w') !! u = Some (Item.update_on_hand it (- units u lines))) /\
    (forall u it,
        inventory (app w) !! u = Some it ->
        exists it',
          inventory (app w') !! u = Some it' /\
          Item.on_hand it' = Item.on_hand it - units u lines) /\
    (forall l it,
        l ∈ lines -> NoDup (SaleLine.upc <$> lines) ->
        inventory (app w) !! SaleLine.upc l = Some it ->
        inventory (app w') !! SaleLine.upc l
        = Some (Item.update_on_hand it (- SaleLine.qty l))) /\
    (forall l it,
        l ∈ lines -> NoDup (SaleLine.upc <$> lines) ->
        inventory (app w) !! SaleLine.upc l = Some it ->
        exists it',
          inventory (app w') !! SaleLine.upc l = Some it' /\
          Item.on_hand it' = Item.on_hand it - SaleLine.qty l) /\
    stock (inventory (app w)) - stock (inventory (app w'))
    = total_units (SalesStore.lines_of receipt_no (sales_store (app w'))).
Proof.
  intros Hne Hwf Hok.
  destruct (checkout_Ok lines w w' Hne Hok)
    as (total & cash & w0 & receipt_no & _ & _ & Hk & _ & Hno & Hrows & ->).
  destruct (with_receipt_fresh (app w) receipt_no lines Hwf Hno) as [Hfresh Hlines].
  exists receipt_no. simpl.
  split; [done|]. split; [done|]. split; [apply lookup_insert_eq|].
  split; [done|]. rewrite Hlines.
  split; [by apply same_lines_stored|]. split; [apply qtys_stored|].
  split; [done|]. split; [|split; [|split; [|split]]].
  - intros u it Hu. by rewrite lookup_sold, Hu.
  - intros u it Hu. eexists. split; [by rewrite lookup_sold, Hu|]. simpl. lia.
  - intros l it Hin Hnd Hu. rewrite lookup_sold, Hu. simpl.
    by rewrite units_only_line.
  - intros l it Hin Hnd Hu. eexists. split; [by rewrite lookup_sold, Hu|]. simpl.
    rewrite units_only_line by done. lia.
  - rewrite total_units_stored. by apply stock_sold.
Qed.

Lemma sale_decrements_match_receipt_witness :
  Item.on_hand <$> inventory Shop.app0 !! "A" = Some 10 /\
  exists receipt_no it',
    SalesStore.receipts SalesStore._init_db !! receipt_no = None /\
    sales_store Scenario.sold3
    = with_receipt receipt_no Scenario.three_apples SalesStore._init_db /\
    SalesStore.lines_of receipt_no (sales_store Scenario.sold3) = Scenario.three_apples /\
    inventory Scenario.sold3 !! "A" = Some it' /\
    Item.on_hand it' = 10 - 3 /\
    stock (inventory Shop.app0) - stock (inventory Scenario.sold3) = 3.
Proof.
  split; [vm_compute; reflexivity|].
  destruct (sale_decrements_match_receipt (H := Console.builtins)
              Scenario.three_apples
              (Shop.world Shop.app0 ["10.00"])
              {| app := Scenario.sold3; stdin := [];
                 stdout := [TotalDue 6; ReceiptAndChange 1 4] |})
    as (receipt_no & Hfresh & Hstore & _ & Hlines & _ & _ & _ & _ & _ & _ & Hline & Hstock).
  - done.
  - exact wf_shop.
  - vm_compute. reflexivity.
  - destruct (Hline (Shop.line Shop.apple 3) Shop.apple) as (it' & Hit' & Hon).
    + apply list_elem_of_singleton. reflexivity.
    + apply NoDup_singleton.
    + reflexivity.
    + exists receipt_no, it'. split; [exact Hfresh|]. split; [exact Hstore|].
      change (SalesStore.lines_of receipt_no (sales_store Scenario.sold3)
              = SalesStore.stored <$> Scenario.three_apples) in Hlines.
      split; [rewrite Hlines; reflexivity|]. split; [exact Hit'|]. split; [exact Hon|].
      etrans; [exact Hstock|]. cbn [app]. rewrite Hlines. reflexivity.
Defined.

(** C2, as the code has it. A committed sale takes the units of its lines
    out of each item's [on_hand] and checks no stock level on the way, so the
    item ends non-negative exactly when it had that many on hand. A return
    that runs to completion never lowers an [on_hand]. *)
Theorem on_hand_after_commit `{Builtins} w w' :
  wf (app w) ->
  (forall lines,
      checkout lines w = Ok tt w' ->
      forall u it,
        inventory (app w) !! u = Some it ->
        exists it',
          inventory (app w') !! u = Some it' /\
          Item.on_hand it' = Item.on_hand it - units u lines /\
          (0 <= Item.on_hand it' <-> units u lines <= Item.on_hand it)) /\
  (process_return w = Ok tt w' ->
   forall u it,
     inventory (app w) !! u = Some it ->
     exists it',
       inventory (app w') !! u = Some it' /\ Item.on_hand it <= Item.on_hand it').
Proof.
  intros Hwf. split.
  - intros lines Hok u it Hu. destruct lines as [|l0 lines0].
    + simpl in Hok. injection Hok as <-. exists it. simpl.
      change (units u []) with 0. repeat split; try done; lia.
    + destruct (checkout_Ok (l0 :: lines0) w w' ltac:(done) Hok)
        as (total & cash & w0 & receipt_no & _ & _ & _ & _ & _ & _ & ->).
      eexists. split; [simpl; by rewrite lookup_sold, Hu|]. simpl. split; lia.
  - intros Hok u it Hu. pose proof (process_return_cases w Hwf) as Hc.
    rewrite Hok in Hc. destruct Hc as [->|(receipt_no & _ & Heff)]; [by exists it|].
    by eapply return_effect_on_hand.
Qed.

Lemma on_hand_after_commit_witness :
  exists it',
    inventory Scenario.sold3 !! "A" = Some it' /\
    Item.on_hand it' = 10 - units "A" Scenario.three_apples /\
    (0 <= Item.on_hand it' <-> units "A" Scenario.three_apples <= 10).
Proof.
  destruct (on_hand_after_commit (H := Console.builtins)
              (Shop.world Shop.app0 ["10.00"])
              {| app := Scenario.sold3; stdin := [];
                 stdout := [TotalDue 6; ReceiptAndChange 1 4] |}
              wf_shop) as [Hsale _].
  apply (Hsale Scenario.three_apples eq_refl "A" Shop.apple eq_refl).
Defined.

(** C2 as stated fails: with ten apples on hand the sale menu accepts eleven,
    and the sale commits with [on_hand = -1]. *)
Lemma never_negative_fails :
  let w := Shop.world Shop.app0 ["1"; "A"; "11"; "3"; "22.00"] in
  wf (app w) /\
  non_negative (inventory (app w)) /\
  (exists w',
      start_sale (H := Console.builtins) w = Ok tt w' /\
      Item.on_hand <$> inventory (app w') !! "A" = Some (-1) /\
      ~ non_negative (inventory (app w'))) /\
  ~ never_negative Console.builtins.
Proof.
  cbv zeta.
  assert (Hnon : non_negative (inventory Shop.app0)).
  { intros u it Hu. simpl in Hu.
    apply lookup_insert_Some in Hu as [[_ <-]|[_ Hu]]; [simpl; lia|].
    apply lookup_singleton_Some in Hu as [_ <-]. simpl; lia. }
  assert (Hrun : exists w',
    start_sale (H := Console.builtins)
      (Shop.world Shop.app0 ["1"; "A"; "11"; "3"; "22.00"]) = Ok tt w' /\
    Item.on_hand <$> inventory (app w') !! "A" = Some (-1) /\
    ~ non_negative (inventory (app w'))).
  { exists {| app := committed [Shop.line Shop.apple 11]
                       (with_receipt 1 [Shop.line Shop.apple 11] SalesStore._init_db)
                       Shop.app0;
              stdin := [];
              stdout := [SaleMenu; InventoryTable (inventory Shop.app0); RunningTotal 22;
                         SaleMenu; TotalDue 22; ReceiptAndChange 1 0] |}.
    split; [vm_compute; reflexivity|].
    split; [vm_compute; reflexivity|].
    intros Hpos.
    assert (0 <= -1); [|lia].
    apply (Hpos "A" (Item.update_on_hand Shop.apple (-11))).
    vm_compute. reflexivity. }
  split; [exact wf_shop|]. split; [exact Hnon|]. split; [exact Hrun|].
  intros Hclaim. destruct Hrun as (w' & Hok & _ & Hneg).
  apply Hneg.
  apply (Hclaim (Shop.world Shop.app0 ["1"; "A"; "11"; "3"; "22.00"]) w' wf_shop Hnon).
  left. exact Hok.
Qed.

(** ** Returns *)

(** C3 fails on a receipt that lists one item twice. Apples are rung up
    twice, one and then five (six leave the stock: ten down to four). One
    apple is returned from the second line: both lines now read four, so the
    first line, which sold one, offers four for return, and returning them
    goes through. Returning the whole receipt instead puts eight more apples
    back: thirteen on hand, nine restored for six sold. *)
Theorem duplicate_upc_return_restores_too_much :
  let sale := ["1"; "A"; "1"; "1"; "A"; "5"; "3"; "12.00"] in
  let one_from_second_line := ["1"; "2"; "2"; "1"] in
  let four_from_first_line := ["1"; "2"; "1"; "4"] in
  let whole_receipt := ["1"; "1"] in
  exists w1 w2 w3 w4,
    start_sale (H := Console.builtins) (Shop.world Shop.app0 sale) = Ok tt w1 /\
    Item.on_hand <$> inventory (app w1) !! "A" = Some 4 /\
    SalesStore.lines_of 1 (sales_store (app w1)) = Scenario.apples_twice /\
    process_return (H := Console.builtins) (Shop.world (app w1) one_from_second_line)
    = Ok tt w2 /\
    Item.on_hand <$> inventory (app w2) !! "A" = Some 5 /\
    SalesStore.lines_of 1 (sales_store (app w2))
    = [Shop.line Shop.apple 4; Shop.line Shop.apple 4] /\
    process_return (H := Console.builtins) (Shop.world (app w2) four_from_first_line)
    = Ok tt w3 /\
    last (stdout w3) = Some PartialReturnCompleted /\
    SalesStore.receipts (sales_store (app w3)) !! 1 = Some false /\
    Item.on_hand <$> inventory (app w3) !! "A" = Some 9 /\
    process_return (H := Console.builtins) (Shop.world (app w2) whole_receipt)
    = Ok tt w4 /\
    Item.on_hand <$> inventory (app w4) !! "A" = Some 13.
Proof.
  cbv zeta. do 4 eexists.
  split; [vm_compute; reflexivity|].
  split; [vm_compute; reflexivity|].
  split; [vm_compute; reflexivity|].
  split; [vm_compute; reflexivity|].
  split; [vm_compute; reflexivity|].
  split; [vm_compute; reflexivity|].
  split; [vm_compute; reflexivity|].
  split; [vm_compute; reflexivity|].
  split; [vm_compute; reflexivity|].
  split; [vm_compute; reflexivity|].
  split; [vm_compute; reflexivity|].
  vm_compute; reflexivity.
Qed.







(** ** Tender and atomicity *)


(** On the concrete console the total is the sum of the products from left
    to right. *)
Lemma console_total lines total :
  total_of (H := Console.builtins) lines = Some total ->
  total = fold_left (fun acc x => (acc + x)%float) (products lines) 0%float.
Proof. intros Htotal. by rewrite (total_of_products (H := Console.builtins) _ _ Htotal). Qed.


(** C6 on the spec's figures: two apples and three loaves at $2.00 are $4.00
    and $6.00, $10.00 due; $9.99 is refused, $10.00 leaves no change, $15.00
    leaves $5.00. *)
Example tender_9_99 :
  match checkout (H := Console.builtins) Basket.two_and_three
          (Shop.world Shop.app0 ["9.99"]) with
  | Raise EOFError w' => stdout w' = [TotalDue 10; NotEnoughCash] /\ app w' = Shop.app0
  | _ => False
  end.
Proof. vm_compute. auto. Qed.

Example tender_10_00 :
  match checkout (H := Console.builtins) Basket.two_and_three
          (Shop.world Shop.app0 ["10.00"]) with
  | Ok _ w' => stdout w' = [TotalDue 10; ReceiptAndChange 1 0]
  | _ => False
  end.
Proof. vm_compute. reflexivity. Qed.

Example tender_15_00 :
  match checkout (H := Console.builtins) Basket.two_and_three
          (Shop.world Shop.app0 ["15.00"]) with
  | Ok _ w' => stdout w' = [TotalDue 10; ReceiptAndChange 1 5]
  | _ => False
  end.
Proof. vm_compute. reflexivity. Qed.


(** C7, as the code has it. The decrements of all lines are applied to the
    in-memory inventory first and the receipt is created afterwards, with
    nothing to undo the former when the latter fails. A checkout that
    completes has done both (or neither, on an empty sale). A checkout that
    raises never leaves a receipt behind and never rewrites the inventory
    file; the in-memory inventory is untouched too, unless it was
    [create_receipt] that raised, in which case every line's decrement
    stays applied. *)
Theorem sale_commit_outcomes `{Builtins} lines w :
  Forall (known (inventory (app w))) lines ->
  match checkout lines w with
  | Ok _ w' =>
      (lines = [] /\ app w' = app w) \/
      (exists receipt_no s',
          SalesStore.create_receipt lines (sales_store (app w)) = Ok receipt_no s' /\
          app w' = committed lines s' (app w))
  | Raise e w' =>
      sales_store (app w') = sales_store (app w) /\
      inventory_csv (app w') = inventory_csv (app w) /\
      (app w' = app w \/
       (SalesStore.create_receipt lines (sales_store (app w))
        = Raise e (sales_store (app w)) /\
        inventory (app w') = sold lines (inventory (app w))))
  end.
Proof.
  intros Hk. destruct lines as [|l0 lines0]; [by left|].
  remember (l0 :: lines0) as lines eqn:E.
  assert (Hne : lines <> []) by (by subst).
  clear E. pose proof (checkout_cases lines w Hne) as Hc.
  destruct (total_of lines) as [total|]; [|rewrite Hc; auto].
  pose proof (read_cash_spec total (put_msg (TotalDue total) w)) as Hcash.
  destruct (read_cash total _) as [cash w1|e w1].
  - destruct Hcash as [Happ _]. simpl in Happ.
    rewrite decide_True in Hc by done.
    destruct (SalesStore.create_receipt lines _) as [receipt_no s'|e s'] eqn:Hcr.
    + rewrite Hc. right. by exists receipt_no, s'.
    + rewrite Hc. simpl. repeat split; [done..|]. right.
      by apply create_receipt_Raise in Hcr as Hs; subst.
  - rewrite Hc. destruct Hcash as [_ Happ]. simpl in Happ. rewrite Happ. auto.
Qed.

Lemma sale_commit_outcomes_witness :
  exists receipt_no s',
    SalesStore.create_receipt Scenario.three_apples SalesStore._init_db
    = Ok receipt_no s' /\
    Scenario.sold3 = committed Scenario.three_apples s' Shop.app0.
Proof.
  pose proof (sale_commit_outcomes (H := Console.builtins) Scenario.three_apples
                (Shop.world Shop.app0 ["10.00"])) as Hout.
  assert (Hrun :
    checkout (H := Console.builtins) Scenario.three_apples (Shop.world Shop.app0 ["10.00"])
    = Ok tt {| app := Scenario.sold3; stdin := [];
               stdout := [TotalDue 6; ReceiptAndChange 1 4] |})
    by (vm_compute; reflexivity).
  rewrite Hrun in Hout.
  destruct Hout as [[Hnil _]|(receipt_no & s' & Hcr & Happ)].
  - repeat constructor. by eexists.
  - discriminate.
  - exists receipt_no, s'. split; [exact Hcr|exact Happ].
Defined.

(** C7 as stated fails. A quantity the receipt store cannot hold (one past
    the largest SQLite INTEGER) is accepted at the sale menu; at checkout the
    stock is taken out of the inventory, then [create_receipt] raises: items
    decremented, no receipt. *)
Lemma atomic_commit_fails :
  let lines := [Shop.line Shop.apple 9223372036854775808] in
  let w := Shop.world Shop.app0 ["20000000000000000000"] in
  wf (app w) /\
  Forall (known (inventory (app w))) lines /\
  (exists w',
      checkout (H := Console.builtins) lines w = Raise OverflowError w' /\
      ~ both_or_neither lines (app w) (app w')) /\
  ~ atomic_commit Console.builtins.
Proof.
  cbv zeta.
  assert (Hk : Forall (known (inventory Shop.app0))
                      [Shop.line Shop.apple 9223372036854775808])
    by (repeat constructor; by eexists).
  assert (Hrun : exists w',
    checkout (H := Console.builtins) [Shop.line Shop.apple 9223372036854775808]
             (Shop.world Shop.app0 ["20000000000000000000"]) = Raise OverflowError w' /\
    ~ both_or_neither [Shop.line Shop.apple 9223372036854775808] Shop.app0 (app w')).
  { exists {| app := set_inventory
                       (sold [Shop.line Shop.apple 9223372036854775808]
                             (inventory Shop.app0))
                       Shop.app0;
              stdin := [];
              stdout := [TotalDue 18446744073709551616] |}.
    split; [vm_compute; reflexivity|].
    intros [[Hinv _]|[_ [receipt_no Hstore]]].
    - apply (f_equal (fun inv => Item.on_hand <$> inv !! "A")) in Hinv.
      vm_compute in Hinv. discriminate.
    - apply (f_equal (fun s => SalesStore.receipts s !! receipt_no)) in Hstore.
      simpl in Hstore. rewrite lookup_empty, lookup_insert_eq in Hstore. discriminate. }
  split; [exact wf_shop|]. split; [exact Hk|]. split; [exact Hrun|].
  intros Hclaim. destruct Hrun as (w' & Hraise & Hnot).
  specialize (Hclaim _ (Shop.world Shop.app0 ["20000000000000000000"]) wf_shop Hk).
  rewrite Hraise in Hclaim. by apply Hnot.
Qed.

(** The same from the sale menu: the operator adds item A with that quantity,
    checks out and pays. *)
Example oversized_qty_sale :
  match start_sale (H := Console.builtins)
          (Shop.world Shop.app0
             ["1"; "A"; "9223372036854775808"; "3"; "20000000000000000000"]) with
  | Raise OverflowError w' =>
      Item.on_hand <$> inventory (app w') !! "A" = Some (10 - 9223372036854775808) /\
      sales_store (app w') = SalesStore._init_db /\
      inventory_csv (app w') = inventory_csv Shop.app0
  | _ => False
  end.
Proof. vm_compute. auto. Qed.

(** ** Round trip, receipt numbers, lines that share an item *)



(** C8 on the spec's figures, from login to logout: three of the ten apples
    are sold, then receipt 1 is returned in full. *)
Example sell_three_return_all :
  match run (H := Console.builtins)
          (Shop.world Shop.app0 ["ann"; "pw"; "1"; "1"; "A"; "3"; "3"; "6.00"; "0"]) with
  | Ok _ w' => Item.on_hand <$> inventory (app w') !! "A" = Some 7
  | _ => False
  end /\
  match run (H := Console.builtins)
          (Shop.world Shop.app0
             ["ann"; "pw"; "1"; "1"; "A"; "3"; "3"; "6.00"; "3"; "1"; "1"; "0"]) with
  | Ok _ w' =>
      Item.on_hand <$> inventory (app w') !! "A" = Some 10 /\
      SalesStore.receipts (sales_store (app w')) !! 1 = Some true
  | _ => False
  end.
Proof. vm_compute. auto. Qed.

(** C9. A call to [create_receipt] that goes through hands out a number that
    no receipt has and that lies above the counter and above every number in
    the table; it goes through whenever the counter has not run out and the
    rows can be stored. Over any sequence of calls to the store, the numbers
    handed out are strictly increasing. *)
Theorem receipt_no_strictly_increasing :
  (forall lines s receipt_no s',
      SalesStore.create_receipt lines s = Ok receipt_no s' ->
      SalesStore.receipts s !! receipt_no = None /\
      SalesStore.seq s < receipt_no /\
      (forall k c, SalesStore.receipts s !! k = Some c -> k < receipt_no) /\
      SalesStore.receipts s' !! receipt_no = Some false /\
      SalesStore.seq s' = receipt_no) /\
  (forall lines s,
      last_rowid s < int64_max ->
      SalesStore.executemany_error lines = None ->
      exists receipt_no s', SalesStore.create_receipt lines s = Ok receipt_no s') /\
  (forall calls s,
      StronglySorted Z.lt (assigned calls s) /\
      Forall (fun n => SalesStore.receipts s !! n = None) (assigned calls s)).
Proof.
  split; [|split].
  - intros lines s receipt_no s' (Hfull & -> & _ & ->)%create_receipt_Ok.
    assert (Hfresh : forall k c, SalesStore.receipts s !! k = Some c -> k < last_rowid s + 1).
    { intros k c Hk%last_rowid_ge. lia. }
    repeat split; try done.
    + destruct (_ !! _) eqn:E; [|done]. apply Hfresh in E. lia.
    + unfold last_rowid. lia.
    + simpl. apply lookup_insert_eq.
  - intros lines s Hfull Hrows. eexists _, _. by apply create_receipt_succeeds.
  - intros calls s. destruct (assigned_above calls s) as [Hab Hso]. split; [done|].
    eapply Forall_impl; [exact Hab|]. simpl. intros n Hn.
    destruct (_ !! n) eqn:E; [|done]. apply last_rowid_ge in E. lia.
Qed.

Lemma receipt_no_strictly_increasing_witness :
  SalesStore.receipts SalesStore._init_db !! 1 = None /\
  SalesStore.seq SalesStore._init_db < 1 /\
  assigned [call_create_receipt Scenario.three_apples;
            call_set_canceled 1;
            call_create_receipt Scenario.apples_twice;
            call_create_receipt [Shop.line Shop.apple 9223372036854775808];
            call_create_receipt Scenario.three_apples]
           SalesStore._init_db
  = [1; 2; 3].
Proof.
  destruct receipt_no_strictly_increasing as (Hfresh & _ & _).
  destruct (Hfresh Scenario.three_apples SalesStore._init_db 1
                   (Scenario.receipt1 Scenario.three_apples))
    as (Hnone & Hseq & _); [vm_compute; reflexivity|].
  split; [exact Hnone|]. split; [exact Hseq|]. vm_compute. reflexivity.
Defined.

(** C10. [update_line_qty] picks rows by receipt number and UPC, so it
    overwrites the quantity of, or deletes, every line of the receipt for
    that item; lines of other items and other receipts are left alone. A
    partial return from one line therefore does the same to every other line
    of the receipt that shares its UPC. *)
Theorem update_line_qty_hits_every_line_of_item `{Builtins} :
  (forall receipt_no upc new_qty s s',
      SalesStore.update_line_qty receipt_no upc new_qty s = Ok tt s' ->
      SalesStore.lines_of receipt_no s'
      = lines_with_qty upc new_qty (SalesStore.lines_of receipt_no s) /\
      (forall n, n <> receipt_no -> SalesStore.lines_of n s' = SalesStore.lines_of n s) /\
      (0 < new_qty ->
       forall i l,
         SalesStore.lines_of receipt_no s !! i = Some l ->
         SalesStore.lines_of receipt_no s' !! i
         = Some (if decide (SaleLine.upc l = upc) then SaleLine.with_qty l new_qty else l)) /\
      (new_qty <= 0 ->
       forall l,
         l ∈ SalesStore.lines_of receipt_no s' <->
         l ∈ SalesStore.lines_of receipt_no s /\ SaleLine.upc l <> upc)) /\
  (forall w s1 s2 s3 s4 rest receipt_no n line return_qty j other,
      wf (app w) ->
      stdin w = s1 :: s2 :: s3 :: s4 :: rest ->
      int_of_str s1 = Some receipt_no ->
      str_strip s2 = "2" ->
      int_of_str s3 = Some n ->
      int_of_str s4 = Some return_qty ->
      SalesStore.receipts (sales_store (app w)) !! receipt_no = Some false ->
      py_getitem (SalesStore.lines_of receipt_no (sales_store (app w))) (n - 1) = Some line ->
      0 < return_qty <= SaleLine.qty line ->
      SalesStore.lines_of receipt_no (sales_store (app w)) !! j = Some other ->
      SaleLine.upc other = SaleLine.upc line ->
      exists w',
        process_return w = Ok tt w' /\
        if decide (return_qty = SaleLine.qty line)
        then forall l, l ∈ SalesStore.lines_of receipt_no (sales_store (app w')) ->
                       SaleLine.upc l <> SaleLine.upc line
        else SalesStore.lines_of receipt_no (sales_store (app w')) !! j
             = Some (SaleLine.with_qty other (SaleLine.qty line - return_qty))).
Proof.
  split.
  - intros receipt_no upc new_qty s s' ->%update_line_qty_Ok_inv.
    rewrite lines_of_line_updated. split; [done|]. split; [|split].
    + intros n Hn. by apply lines_of_line_updated_other.
    + intros Hq i l Hl. by apply lines_with_qty_lookup.
    + intros Hq l. split; [by apply lines_with_qty_deleted|].
      intros [Hl Hu]. apply Z.leb_le in Hq. unfold lines_with_qty. rewrite Hq.
      by apply list_elem_of_filter.
  - intros w s1 s2 s3 s4 rest receipt_no n line return_qty j other
           Hwf Hin Hs1 Hs2 Hs3 Hs4 Hr Hline Hq Hj Hu.
    destruct (process_return_one w s1 s2 s3 s4 rest receipt_no n line return_qty)
      as (it & Hit & Hrun); try done.
    eexists. split; [exact Hrun|]. simpl.
    assert ((return_qty <=? 0) || (SaleLine.qty line <? return_qty) = false) as ->.
    { apply orb_false_iff. rewrite Z.leb_gt, Z.ltb_ge. lia. }
    simpl. rewrite lines_of_line_updated. destruct (decide _) as [->|Hne].
    + intros l Hl. apply lines_with_qty_deleted in Hl as [_ ?]; [done|lia].
    + rewrite (lines_with_qty_lookup _ _ _ j other) by (done || lia).
      by rewrite decide_True.
Qed.

Lemma update_line_qty_hits_every_line_of_item_witness :
  exists w',
    process_return (H := Console.builtins)
      (Shop.world Scenario.sold1and5 ["1"; "2"; "2"; "1"]) = Ok tt w' /\
    SalesStore.lines_of 1 (sales_store (app w')) !! 0%nat
    = Some (Shop.line Shop.apple 4).
Proof.
  destruct (update_line_qty_hits_every_line_of_item (H := Console.builtins))
    as [_ Hreturn].
  destruct (Hreturn
              (Shop.world Scenario.sold1and5 ["1"; "2"; "2"; "1"]) "1" "2" "2" "1" [] 1 2
              (Shop.line Shop.apple 5) 1 0%nat (Shop.line Shop.apple 1)
              wf_sold1and5)
    as (w' & Hrun & Hother);
    [reflexivity | vm_compute; reflexivity | vm_compute; reflexivity
     | vm_compute; reflexivity | vm_compute; reflexivity | vm_compute; reflexivity
     | vm_compute; reflexivity | simpl; lia | vm_compute; reflexivity | reflexivity |].
  exists w'. split; [exact Hrun|].
  rewrite decide_False in Hother by (simpl; lia). exact Hother.
Defined.

(** * Further properties of the program *)

(** ** The receipt store on its own *)

(** X1. On a database this program has written, a receipt that
    [create_receipt] has just stored is what [get_receipt] reads back under
    the number handed out: not canceled, with the given lines in the given
    order as the REAL column keeps them, that is, with a price of -0.0 read
    back as 0.0. The lines read back equal the given ones as Python compares
    them, and are the very same where no price is a zero. Every other receipt
    number gets the answer it got before. *)
Theorem create_then_get_receipt lines s receipt_no s' :
  linked s ->
  SalesStore.create_receipt lines s = Ok receipt_no s' ->
  SalesStore.get_receipt receipt_no s' = Ok (false, SalesStore.stored <$> lines) s' /\
  Forall2 same_line lines (SalesStore.stored <$> lines) /\
  (Forall (fun l => (SaleLine.unit_price l =? 0)%float = false) lines ->
   SalesStore.get_receipt receipt_no s' = Ok (false, lines) s') /\
  (forall n, n <> receipt_no ->
     SalesStore.get_receipt n s' = answer_in s' (SalesStore.get_receipt n s)).
Proof.
  intros Hl (Hfull & -> & Hrows & ->)%create_receipt_Ok.
  rewrite linked_last_rowid in * by done.
  pose proof (linked_seq s Hl) as Hseq.
  assert (Hget : SalesStore.get_receipt (SalesStore.seq s + 1)
                   (with_receipt (SalesStore.seq s + 1) lines s)
                 = Ok (false, SalesStore.stored <$> lines)
                      (with_receipt (SalesStore.seq s + 1) lines s)).
  { rewrite (get_receipt_Ok _ _ false).
    + rewrite lines_of_with_receipt_new; [done|].
      intros l Hin. destruct (linked_rows s Hl _ l Hin) as [c Hc].
      apply (linked_keys s Hl) in Hc. lia.
    + apply sqlite_int_spec. unfold int64_max in *. lia.
    + simpl. apply lookup_insert_eq. }
  split; [done|]. split; [by apply same_lines_stored|]. split.
  - intros Hnz. by rewrite Hget, stored_nonzero.
  - intros n Hn. unfold SalesStore.get_receipt.
    destruct (negb (sqlite_int n)); [done|].
    cbn [with_receipt SalesStore.receipts]. rewrite lookup_insert_ne by done.
    destruct (SalesStore.receipts s !! n); [|done].
    simpl. by rewrite lines_of_with_receipt_old.
Qed.

Lemma create_then_get_receipt_witness :
  SalesStore.get_receipt 1 (Scenario.receipt1 Scenario.three_apples)
  = Ok (false, Scenario.three_apples) (Scenario.receipt1 Scenario.three_apples) /\
  SalesStore.get_receipt 1 (Scenario.receipt1 [SaleLine.mk "F" "Flyer" (-0)%float 1])
  = Ok (false, [SaleLine.mk "F" "Flyer" 0%float 1])
       (Scenario.receipt1 [SaleLine.mk "F" "Flyer" (-0)%float 1]).
Proof.
  split.
  - apply (create_then_get_receipt Scenario.three_apples SalesStore._init_db 1
             (Scenario.receipt1 Scenario.three_apples)).
    + exact linked_init.
    + vm_compute. reflexivity.
    + repeat constructor.
  - apply (create_then_get_receipt [SaleLine.mk "F" "Flyer" (-0)%float 1]
             SalesStore._init_db 1
             (Scenario.receipt1 [SaleLine.mk "F" "Flyer" (-0)%float 1])).
    + exact linked_init.
    + vm_compute. reflexivity.
Defined.

(** X2. Whatever calls are made on the store, in whatever order and whether
    they raise or not, the database stays linked: no row of [receipt_lines]
    is left without its receipt, and every receipt number lies between 1 and
    the AUTOINCREMENT counter. A new database starts out linked. *)
Theorem store_calls_keep_links calls db :
  (forall s, db = Some s -> linked s) ->
  linked (after calls (SalesStore.__init__ db)).
Proof.
  intros Hdb. apply linked_after. destruct db as [s|]; simpl.
  - by apply Hdb.
  - exact linked_init.
Qed.

Lemma store_calls_keep_links_witness :
  linked (after [call_create_receipt Scenario.apples_twice;
                 call_update_line_qty 1 "A" 0;
                 call_set_canceled 7;
                 call_create_receipt [Shop.line Shop.apple 9223372036854775808]]
                (SalesStore.__init__ None)).
Proof. apply store_calls_keep_links. intros s Hs. discriminate Hs. Defined.

(** X3. The store has no way back from a cancellation and deletes no
    receipt: a receipt that is in the table stays there through any further
    calls, and once its [canceled] flag is set it stays set. *)
Theorem canceled_stays_canceled calls : forall s n b,
  SalesStore.receipts s !! n = Some b ->
  exists b',
    SalesStore.receipts (after calls s) !! n = Some b' /\ (b = true -> b' = true).
Proof.
  induction calls as [|c calls IH]; intros s n b Hn; [by exists b|]. simpl.
  pose proof (receipts_after_call c s n b Hn) as Hc.
  destruct (call c s) as [r s'|e s']; destruct Hc as (b1 & Hn1 & Hb1);
    destruct (IH s' n b1 Hn1) as (b' & Hn' & Hb'); exists b'; auto.
Qed.

Lemma canceled_stays_canceled_witness :
  SalesStore.receipts
    (after [call_update_line_qty 1 "A" 2; call_create_receipt Scenario.three_apples]
           (canceled_store 1 (Scenario.receipt1 Scenario.three_apples))) !! 1
  = Some true.
Proof.
  destruct (canceled_stays_canceled
              [call_update_line_qty 1 "A" 2; call_create_receipt Scenario.three_apples]
              (canceled_store 1 (Scenario.receipt1 Scenario.three_apples)) 1 true)
    as (b' & Hb & Htrue); [vm_compute; reflexivity|].
  rewrite Hb. f_equal. apply Htrue. reflexivity.
Defined.

(** X4. [set_canceled] sets the flag of the receipt and nothing else: the
    receipt then reads back as canceled with the lines it had, every other
    receipt reads back as before, and a second call changes nothing more. For
    a number that has no receipt the call goes through without a trace, and
    the receipt is still not found afterwards. *)
Theorem set_canceled_then_get receipt_no s :
  sqlite_int receipt_no = true ->
  exists s',
    SalesStore.set_canceled receipt_no s = Ok tt s' /\
    SalesStore.set_canceled receipt_no s' = Ok tt s' /\
    (forall canceled lines,
        SalesStore.get_receipt receipt_no s = Ok (canceled, lines) s ->
        SalesStore.get_receipt receipt_no s' = Ok (true, lines) s') /\
    (SalesStore.receipts s !! receipt_no = None ->
     s' = s /\ SalesStore.get_receipt receipt_no s' = Raise ValueError s') /\
    (forall n, n <> receipt_no ->
       SalesStore.get_receipt n s' = answer_in s' (SalesStore.get_receipt n s)).
Proof.
  intros Hi. exists (canceled_store receipt_no s).
  split; [by apply set_canceled_Ok|]. split; [|split; [|split]].
  - rewrite set_canceled_Ok by done. f_equal. unfold canceled_store. simpl. f_equal.
    apply map_eq. intros k. destruct (decide (k = receipt_no)) as [->|Hne].
    + rewrite !lookup_alter_eq. by destruct (SalesStore.receipts s !! receipt_no).
    + by rewrite !lookup_alter_ne.
  - intros canceled lines. unfold SalesStore.get_receipt. rewrite Hi. simpl.
    rewrite lookup_alter_eq.
    destruct (SalesStore.receipts s !! receipt_no); [|done]. simpl.
    by intros [= _ <-].
  - intros Hnone. assert (canceled_store receipt_no s = s) as ->.
    { destruct s as [receipts seq rows]. unfold canceled_store. simpl in *. f_equal.
      apply map_eq. intros k. destruct (decide (k = receipt_no)) as [->|Hne].
      - by rewrite lookup_alter_eq, Hnone.
      - by rewrite lookup_alter_ne. }
    split; [done|]. unfold SalesStore.get_receipt. by rewrite Hi, Hnone.
  - intros n Hn. unfold SalesStore.get_receipt.
    destruct (negb (sqlite_int n)); [done|]. simpl.
    rewrite lookup_alter_ne by done. by destruct (SalesStore.receipts s !! n).
Qed.

Lemma set_canceled_then_get_witness :
  exists s',
    SalesStore.set_canceled 1 (Scenario.receipt1 Scenario.three_apples) = Ok tt s' /\
    SalesStore.get_receipt 1 s' = Ok (true, Scenario.three_apples) s'.
Proof.
  destruct (set_canceled_then_get 1 (Scenario.receipt1 Scenario.three_apples) eq_refl)
    as (s' & Hset & _ & Hget & _).
  exists s'. split; [exact Hset|].
  apply (Hget false). vm_compute. reflexivity.
Defined.

(** ** Start-up *)

(** X5. [load_inventory] files every item under its own (stripped) UPC.
    Under a UPC it holds the item of the last row of the file that parses and
    has that UPC: a later row replaces an earlier one, and a row that does not
    parse (a missing column, a short line, a number that is not one) is
    skipped as if it were not in the file. *)
Theorem load_inventory_last_row_wins `{Builtins} rows :
  (forall u,
      load_inventory rows !! u
      = last (filter (fun it => Item.upc it = u) (good_items rows))) /\
  filed_by_upc (load_inventory rows) /\
  (forall before row after,
      rows = before ++ row :: after ->
      row_item row = None ->
      load_inventory rows = load_inventory (before ++ after)).
Proof.
  split; [apply load_inventory_last|]. split; [apply load_inventory_filed|].
  intros before row after -> Hrow. apply map_eq. intros u.
  rewrite !load_inventory_last. unfold good_items.
  rewrite !omap_app. simpl. by rewrite Hrow.
Qed.

Lemma load_inventory_last_row_wins_witness :
  load_inventory (H := Console.builtins) Files.inventory_csv = inventory Shop.app0.
Proof.
  destruct (load_inventory_last_row_wins (H := Console.builtins) Files.inventory_csv)
    as (_ & _ & Hskip).
  rewrite (Hskip (take 2 Files.inventory_csv)
                 (Files.item_row "C" "Cocoa" "60" "5" "20" "many" "3") []);
    [|reflexivity|vm_compute; reflexivity].
  vm_compute. reflexivity.
Defined.

(** X6. [load_users] goes through exactly when every row of the file has
    a user id and a password; it then holds, under each stripped user id, the
    stripped password of the last row with that id. Unlike [load_inventory]
    it skips no row: one row without the two columns and the constructor
    raises. *)
Theorem load_users_last_row_wins `{Builtins} rows :
  (load_users rows = None <-> Exists (fun row => row_user row = None) rows) /\
  (forall us,
      load_users rows = Some us ->
      forall user_id,
        us !! user_id
        = snd <$> last (filter (fun c => c.1 = user_id) (omap row_user rows))).
Proof.
  pose proof (load_users_cases rows) as Hc.
  destruct (load_users rows) as [us|].
  - destruct Hc as [Hall Hlook]. split.
    + split; [done|]. intros Hex. apply Exists_exists in Hex as (row & Hin & Hrow).
      rewrite Forall_forall in Hall. destruct (Hall row Hin) as [c Hc]. congruence.
    + by intros ? [= <-].
  - split; [done|]. by intros.
Qed.

Lemma load_users_last_row_wins_witness :
  exists us,
    load_users (H := Console.builtins) Files.users_csv = Some us /\
    us !! "ann" = Some "pw".
Proof.
  exists {["ann" := "pw"]}.
  assert (Hus : load_users (H := Console.builtins) Files.users_csv
                = Some {["ann" := "pw"]}) by (vm_compute; reflexivity).
  split; [exact Hus|].
  destruct (load_users_last_row_wins (H := Console.builtins) Files.users_csv) as [_ Hlook].
  rewrite (Hlook _ Hus "ann"). vm_compute. reflexivity.
Defined.

(** X7. An application constructed over a new database is well-formed, its
    inventory file agrees with the inventory in memory, and it stays
    well-formed through any session of [run], whatever is typed. *)
Theorem new_app_is_well_formed `{Builtins} users_csv inventory_csv p :
  __init__ users_csv inventory_csv None = Some p ->
  wf p /\
  in_sync p /\
  inventory p = load_inventory inventory_csv /\
  sales_store p = SalesStore._init_db /\
  forall console,
    match run {| app := p; stdin := console; stdout := [] |} with
    | Ok _ w' | Raise _ w' => wf (app w')
    end.
Proof.
  intros Hinit. destruct (init_wf _ _ _ Hinit) as [Hwf Hsync].
  split; [done|]. split; [done|].
  unfold __init__ in Hinit. destruct (load_users users_csv); simpl in Hinit; [|done].
  injection Hinit as <-. split; [done|]. split; [done|].
  intros console. by apply run_wf.
Qed.

Lemma new_app_is_well_formed_witness :
  wf Shop.app0 /\ in_sync Shop.app0.
Proof.
  destruct (new_app_is_well_formed (H := Console.builtins)
              Files.users_csv Files.inventory_csv Shop.app0) as (Hwf & Hsync & _).
  - vm_compute. reflexivity.
  - split; [exact Hwf|exact Hsync].
Defined.

(** X8. A user the users file lists can log in: if the last row of the
    file for a user id carries a password, typing that id and that password
    (spaces around them do not matter) is accepted at the first attempt. *)
Theorem listed_user_logs_in `{Builtins}
    users_csv inventory_csv db p before row after u pw rest out :
  __init__ users_csv inventory_csv db = Some p ->
  users_csv = before ++ row :: after ->
  row_user row = Some (str_strip u, str_strip pw) ->
  Forall (fun r => forall c, row_user r = Some c -> c.1 <> str_strip u) after ->
  login {| app := p; stdin := u :: pw :: rest; stdout := out |}
  = Ok true {| app := p; stdin := rest;
               stdout := out ++ [LoginBanner; LoginSuccessful (str_strip u)] |}.
Proof.
  intros Hinit -> Hrow Hafter.
  unfold __init__ in Hinit. pose proof (load_users_cases (before ++ row :: after)) as Hc.
  destruct (load_users (before ++ row :: after)) as [us|]; simpl in Hinit; [|done].
  injection Hinit as <-. destruct Hc as [_ Hlook].
  assert (Hu : us !! str_strip u = Some (str_strip pw)).
  { rewrite Hlook, cons_middle, app_assoc, omap_app, last_filter_snoc_one.
    rewrite (filter_none _ (omap row_user after)).
    - simpl. rewrite omap_app. simpl. rewrite Hrow. simpl.
      rewrite last_filter_snoc. by rewrite decide_True.
    - intros c Hin. apply list_elem_of_omap in Hin as (r & Hr & Hc).
      rewrite Forall_forall in Hafter. by apply (Hafter r Hr c). }
  unfold login. cbn [while_true]. unfold login_iter at 1. simpl.
  cbv beta iota zeta delta [bind print modify input get ret]. simpl.
  rewrite decide_True by done. unfold put_msg, set_stdin. simpl. by rewrite <- app_assoc.
Qed.

Lemma listed_user_logs_in_witness :
  login (H := Console.builtins) (Shop.world Shop.app0 ["ann "; " pw"; "0"])
  = Ok true {| app := Shop.app0; stdin := ["0"];
               stdout := [LoginBanner; LoginSuccessful "ann"] |}.
Proof.
  apply (listed_user_logs_in (H := Console.builtins)
           Files.users_csv Files.inventory_csv None Shop.app0
           [] {[ "User_ID" := Some " ann"; "Password" := Some "pw " ]} []
           "ann " " pw" ["0"] []).
  - vm_compute. reflexivity.
  - reflexivity.
  - vm_compute. reflexivity.
  - constructor.
Defined.

(** ** Logging in and the main menu *)

(** X9. [login] gives three attempts, each a user id and a password read
    from the console and stripped. It returns [True] at the first attempt
    that matches a row of the users table, and [False], after "Locked out",
    when three attempts in a row have failed, having read exactly the six
    lines of those attempts ("Attempts left" counts 2, 1, 0). If the console
    runs dry first, [EOFError] gets out. The application is not touched. *)
Theorem login_three_attempts `{Builtins} w :
  match login w with
  | Ok true w' =>
      app w' = app w /\
      exists wrong good,
        Forall (fun a => ~ accepts (users (app w)) a) wrong /\
        accepts (users (app w)) good /\
        (length wrong < 3)%nat /\
        stdin w = typed (wrong ++ [good]) ++ stdin w' /\
        stdout w' = stdout w ++ wrong_logins 0 (length wrong)
                             ++ [LoginBanner; LoginSuccessful (str_strip good.1)]
  | Ok false w' =>
      app w' = app w /\
      exists wrong,
        Forall (fun a => ~ accepts (users (app w)) a) wrong /\
        length wrong = 3%nat /\
        stdin w = typed wrong ++ stdin w' /\
        stdout w' = stdout w ++ [LoginBanner; WrongLogin 2; LoginBanner; WrongLogin 1;
                                 LoginBanner; WrongLogin 0; LockedOut]
  | Raise e w' =>
      e = EOFError /\ app w' = app w /\ (length (stdin w) < 6)%nat
  end.
Proof.
  pose proof (login_loop 4 0 w ltac:(lia) ltac:(simpl; lia)) as Hl.
  fold login in Hl. destruct (login w) as [[|] w'|e w']; simpl in Hl.
  - destruct Hl as (Happ & wrong & Hwrong & good & Hgood & Hlen & Hin & Hout).
    split; [done|]. exists wrong, good. repeat split; try done. lia.
  - destruct Hl as (Happ & wrong & Hwrong & Hlen & Hin & Hout).
    split; [done|]. exists wrong. repeat split; try done; [lia|].
    rewrite Hout. assert (length wrong = 3%nat) as -> by lia. done.
  - destruct Hl as (He & Happ & Hlen). repeat split; try done. lia.
Qed.

(** X10. [run] leaves the application as it found it unless one of the first
    three pairs typed at the login prompt matches the users table. *)
Theorem run_requires_login `{Builtins} w :
  match run w with
  | Ok _ w' | Raise _ w' =>
      app w' = app w \/
      exists wrong good rest,
        (length wrong < 3)%nat /\
        accepts (users (app w)) good /\
        stdin w = typed (wrong ++ [good]) ++ rest
  end.
Proof.
  unfold run. unfold bind at 1. pose proof (login_cases w) as Hl.
  destruct (login w) as [[|] w1|e w1]; simpl in Hl.
  - destruct Hl as (_ & wrong & _ & good & Hgood & Hlen & Hin & _).
    assert (Hex : exists wrong good rest,
               (length wrong < 3)%nat /\ accepts (users (app w)) good /\
               stdin w = typed (wrong ++ [good]) ++ rest).
    { exists wrong, good, (stdin w1). split; [lia|done]. }
    destruct (bind get _ w1); by right.
  - destruct Hl as (Happ & _). by left.
  - destruct Hl as (_ & Happ & _). by left.
Qed.

(** X11. Every loop of the program reads a line of the console on every
    turn, so on a console of finitely many lines a session of [run] ends: it
    never needs more turns than there are lines, and it is left with no more
    lines than it was given. *)
Theorem run_ends `{Builtins} w :
  match run w with
  | Ok _ w' => (length (stdin w') <= length (stdin w))%nat
  | Raise e w' => e <> Exhausted /\ (length (stdin w') <= length (stdin w))%nat
  end.
Proof. pose proof (tame_run w) as Ht. destruct (run w); tauto. Qed.

(** ** What the menus keep *)

(** X12. A visit to the sale menu, a visit to the return menu and a whole
    session of [run] each leave a well-formed application well-formed,
    however they end. *)
Theorem menus_keep_wf `{Builtins} w :
  wf (app w) ->
  match start_sale w with Ok _ w' | Raise _ w' => wf (app w') end /\
  match process_return w with Ok _ w' | Raise _ w' => wf (app w') end /\
  match run w with Ok _ w' | Raise _ w' => wf (app w') end.
Proof.
  intros Hwf. split; [by apply start_sale_wf|]. split; [by apply process_return_wf|].
  pose proof (run_cases wf (fun _ p => wf p)) as Hrun.
  specialize (Hrun start_sale_wf process_return_wf ltac:(done) w Hwf).
  destruct (run w); tauto.
Qed.

Lemma menus_keep_wf_witness :
  match run (H := Console.builtins)
          (Shop.world Shop.app0
             ["ann"; "pw"; "1"; "1"; "A"; "11"; "3"; "22.00"; "3"; "1"; "2"; "0"; "3"]) with
  | Ok _ w' | Raise _ w' => wf (app w')
  end.
Proof.
  apply (menus_keep_wf (H := Console.builtins)
           (Shop.world Shop.app0
              ["ann"; "pw"; "1"; "1"; "A"; "11"; "3"; "22.00"; "3"; "1"; "2"; "0"; "3"])).
  exact wf_shop.
Defined.

(** X13. A session of [run] on a well-formed application never changes the
    users table, adds no item to the inventory and removes none, and changes
    no field of an item but [on_hand], however it ends. *)
Theorem menus_keep_catalogue `{Builtins} w :
  wf (app w) ->
  match run w with
  | Ok _ w' | Raise _ w' =>
      users (app w') = users (app w) /\
      same_catalogue (inventory (app w)) (inventory (app w'))
  end.
Proof.
  intros Hwf.
  set (P := fun p => wf p /\ users p = users (app w) /\
                     same_catalogue (inventory (app w)) (inventory p)).
  opose proof (run_cases P (fun _ p => P p) _ _ _ w _) as Hgoal.
  { - intros w0 (Hwf0 & Hu0 & Hc0).
      pose proof (start_sale_wf w0 Hwf0) as Hw.
      pose proof (start_sale_catalogue w0 (wf_upc _ Hwf0)) as Hc.
      destruct (start_sale w0); destruct Hc as [Hu Hc];
        (split; [done|]); (split; [congruence|]); by eapply same_catalogue_trans. }
  { - intros w0 (Hwf0 & Hu0 & Hc0).
      pose proof (process_return_wf w0 Hwf0) as Hw.
      pose proof (process_return_catalogue w0 Hwf0) as Hc.
      destruct (process_return w0); destruct Hc as (Hu & Hc & _);
        (split; [done|]); (split; [congruence|]); by eapply same_catalogue_trans. }
  { done. }
  { split; [done|]. split; [done|apply same_catalogue_refl]. }
  simpl in Hgoal. destruct (run w); unfold P in Hgoal; tauto.
Qed.

Lemma menus_keep_catalogue_witness :
  match run (H := Console.builtins)
          (Shop.world Shop.app0 ["ann"; "pw"; "1"; "1"; "B"; "2"; "3"; "5"; "0"]) with
  | Ok _ w' | Raise _ w' =>
      users (app w') = users Shop.app0 /\
      same_catalogue (inventory Shop.app0) (inventory (app w'))
  end.
Proof.
  apply (menus_keep_catalogue (H := Console.builtins)
           (Shop.world Shop.app0 ["ann"; "pw"; "1"; "1"; "B"; "2"; "3"; "5"; "0"])).
  exact wf_shop.
Defined.

(** X14. The inventory file follows the inventory in memory: if the two
    agree before a session of [run] on a well-formed application, they agree
    when [run] returns and when the console runs dry. Whenever they differ
    afterwards, the exception that ended the session is one of those the
    receipt store raises. *)
Theorem inventory_file_in_sync `{Builtins} w :
  wf (app w) ->
  in_sync (app w) ->
  match run w with
  | Ok _ w' => in_sync (app w')
  | Raise e w' => in_sync (app w') \/ storage_error e
  end.
Proof.
  intros Hwf Hs.
  set (P := fun p => wf p /\ in_sync p).
  opose proof (run_cases P (fun e p => in_sync p \/ storage_error e) _ _ _ w _) as Hgoal.
  { - intros w0 [Hwf0 Hs0].
      pose proof (start_sale_wf w0 Hwf0) as Hw.
      pose proof (start_sale_sync w0 (wf_upc _ Hwf0) Hs0) as Hc.
      by destruct (start_sale w0). }
  { - intros w0 [Hwf0 Hs0].
      pose proof (process_return_wf w0 Hwf0) as Hw.
      pose proof (process_return_catalogue w0 Hwf0) as Hc.
      destruct (process_return w0); destruct Hc as (_ & _ & Hc); [split|left]; auto. }
  { intros p [_ Hp]. by left. }
  { done. }
  simpl in Hgoal. destruct (run w); unfold P in Hgoal; tauto.
Qed.

Lemma inventory_file_in_sync_witness :
  match run (H := Console.builtins)
          (Shop.world Shop.app0 ["ann"; "pw"; "1"; "1"; "B"; "2"; "3"; "5"; "3"; "1"; "2"]) with
  | Ok _ w' => in_sync (app w')
  | Raise e w' => in_sync (app w') \/ storage_error e
  end.
Proof.
  apply (inventory_file_in_sync (H := Console.builtins)
           (Shop.world Shop.app0
              ["ann"; "pw"; "1"; "1"; "B"; "2"; "3"; "5"; "3"; "1"; "2"])).
  - exact wf_shop.
  - reflexivity.
Defined.

(** X15. A session of [run] on a well-formed application returns only after
    "Goodbye." or "Locked out". The only exceptions that get out of it are
    [EOFError], when the console runs dry, an [OverflowError] of a total, and
    the errors of the receipt store; no lookup in the inventory or in a list
    of lines, and no malformed number, ends the session. *)
Theorem run_raises_only `{Builtins} w :
  wf (app w) ->
  match run w with
  | Ok _ w' => last (stdout w') = Some Goodbye \/ last (stdout w') = Some LockedOut
  | Raise e w' => e = EOFError \/ storage_error e
  end.
Proof.
  intros Hwf.
  opose proof (run_cases wf (fun e p => e = EOFError \/ storage_error e) _ _ _ w _) as Hgoal.
  { - intros w0 Hwf0.
      pose proof (start_sale_wf w0 Hwf0) as Hw.
      pose proof (start_sale_effect w0 (wf_upc _ Hwf0)) as He.
      destruct (start_sale w0) as [[] w'|e w']; [done|]. simpl in He.
      unfold storage_error in *.
      destruct He as [[[->| ->] _]|(lines & _ & _ & ? & _)]; auto. }
  { - intros w0 Hwf0.
      pose proof (process_return_wf w0 Hwf0) as Hw.
      pose proof (process_return_cases w0 Hwf0) as Hc.
      destruct (process_return w0) as [[] w'|e w']; [done|].
      unfold storage_error. destruct Hc as [[->| ->] _]; auto. }
  { by left. }
  { done. }
  simpl in Hgoal. destruct (run w); tauto.
Qed.

Lemma run_raises_only_witness :
  match run (H := Console.builtins)
          (Shop.world Shop.app0 ["ann"; "pw"; "3"; "oops"; "1"; "2"; "7"; "0"]) with
  | Ok _ w' => last (stdout w') = Some Goodbye \/ last (stdout w') = Some LockedOut
  | Raise e w' => e = EOFError \/ storage_error e
  end.
Proof.
  apply (run_raises_only (H := Console.builtins)
           (Shop.world Shop.app0 ["ann"; "pw"; "3"; "oops"; "1"; "2"; "7"; "0"])).
  exact wf_shop.
Defined.

(** X16. A visit to the sale menu changes no receipt that is already in the
    store: each reads back afterwards as it did before. A visit to the return
    menu creates no receipt, deletes none and uses up no receipt number, and
    it touches one receipt at most: all the others read back as before. *)
Theorem menus_and_receipts `{Builtins} w :
  wf (app w) ->
  match start_sale w with
  | Ok _ w' | Raise _ w' =>
      forall n canceled,
        SalesStore.receipts (sales_store (app w)) !! n = Some canceled ->
        SalesStore.get_receipt n (sales_store (app w'))
        = answer_in (sales_store (app w'))
                    (SalesStore.get_receipt n (sales_store (app w)))
  end /\
  match process_return w with
  | Ok _ w' | Raise _ w' =>
      SalesStore.seq (sales_store (app w')) = SalesStore.seq (sales_store (app w)) /\
      (forall n, is_Some (SalesStore.receipts (sales_store (app w')) !! n)
                 <-> is_Some (SalesStore.receipts (sales_store (app w)) !! n)) /\
      exists receipt_no,
        forall n, n <> receipt_no ->
          SalesStore.get_receipt n (sales_store (app w'))
          = answer_in (sales_store (app w'))
                      (SalesStore.get_receipt n (sales_store (app w)))
  end.
Proof.
  intros Hwf. split.
  - pose proof (start_sale_effect w (wf_upc _ Hwf)) as He.
    assert (Hsame : forall w' : World,
               sales_store (app w') = sales_store (app w) ->
               forall n (canceled : bool),
                 SalesStore.receipts (sales_store (app w)) !! n = Some canceled ->
                 SalesStore.get_receipt n (sales_store (app w'))
                 = answer_in (sales_store (app w'))
                             (SalesStore.get_receipt n (sales_store (app w)))).
    { intros w' Hs n c _. rewrite Hs. by apply get_receipt_same. }
    destruct (start_sale w) as [[] w'|e w']; simpl in He.
    + destruct He as [He|(lines & _ & _ & _ & _ & He)]; [apply Hsame; by rewrite He|].
      intros n c Hn. rewrite He. simpl. apply last_rowid_ge in Hn as Hle.
      apply get_receipt_same; simpl.
      * rewrite lookup_insert_ne by lia. done.
      * apply lines_of_with_receipt_old. lia.
    + destruct He as [[_ He]|(lines & _ & _ & _ & _ & He)]; apply Hsame; by rewrite He.
  - pose proof (process_return_cases w Hwf) as Hc.
    assert (Hsame : forall w' : World,
               app w' = app w ->
               SalesStore.seq (sales_store (app w')) = SalesStore.seq (sales_store (app w)) /\
               (forall n, is_Some (SalesStore.receipts (sales_store (app w')) !! n)
                          <-> is_Some (SalesStore.receipts (sales_store (app w)) !! n)) /\
               exists receipt_no,
                 forall n, n <> receipt_no ->
                   SalesStore.get_receipt n (sales_store (app w'))
                   = answer_in (sales_store (app w'))
                               (SalesStore.get_receipt n (sales_store (app w)))).
    { intros w' ->. split; [done|]. split; [done|]. exists 0. intros n _.
      by apply get_receipt_same. }
    destruct (process_return w) as [[] w'|e w'].
    + destruct Hc as [Hc|(receipt_no & _ & Hc)]; [by apply Hsame|].
      apply return_effect_receipts in Hc as (Hseq & Hdom & Hother).
      split; [done|]. split; [done|]. by exists receipt_no.
    + destruct Hc as [_ Hc]. by apply Hsame.
Qed.

Lemma menus_and_receipts_witness :
  match process_return (H := Console.builtins)
          (Shop.world Scenario.sold3 ["1"; "2"; "1"; "2"]) with
  | Ok _ w' | Raise _ w' =>
      SalesStore.seq (sales_store (app w')) = SalesStore.seq (sales_store Scenario.sold3)
  end.
Proof.
  destruct (menus_and_receipts (H := Console.builtins)
              (Shop.world Scenario.sold3 ["1"; "2"; "1"; "2"]) wf_sold3) as [_ Hret].
  destruct (process_return _); by destruct Hret as [Hseq _].
Defined.

(** ** The sale menu, line by line *)

(** X17. A visit to the sale menu commits at most one sale. When it
    returns, either nothing was touched (the sale was canceled or empty), or
    one receipt was stored under a number no receipt had, every line on it
    naming an item of the inventory in a positive quantity, and the stock and
    the inventory file were moved by those lines. When it raises, nothing was
    touched, unless it was the receipt store that refused the sale: then
    the stock in memory has been moved and nothing else. *)
Theorem sale_menu_outcomes `{Builtins} w :
  wf (app w) ->
  match start_sale w with
  | Ok _ w' =>
      app w' = app w \/
      exists lines receipt_no,
        lines <> [] /\
        Forall (sellable (inventory (app w))) lines /\
        SalesStore.receipts (sales_store (app w)) !! receipt_no = None /\
        SalesStore.lines_of receipt_no (sales_store (app w')) = lines /\
        app w' = committed lines (with_receipt receipt_no lines (sales_store (app w))) (app w)
  | Raise e w' =>
      ((e = EOFError \/ e = OverflowError) /\ app w' = app w) \/
      (storage_error e /\
       exists lines,
         Forall (sellable (inventory (app w))) lines /\
         app w' = set_inventory (sold lines (inventory (app w))) (app w))
  end.
Proof.
  intros Hwf. pose proof (start_sale_effect w (wf_upc _ Hwf)) as He.
  destruct (start_sale w) as [[] w'|e w']; simpl in He.
  - destruct He as [He|(lines & Hne & Hl & Hfull & Hrows & ->)]; [by left|].
    right. exists (SalesStore.stored <$> lines), (last_rowid (sales_store (app w)) + 1).
    destruct (with_receipt_fresh (app w) _ lines Hwf eq_refl) as [Hfresh Hlines].
    rewrite committed_stored. split; [by destruct lines|].
    split; [by apply sellable_stored|]. by repeat split.
  - destruct He as [He|(lines & Hne & Hl & Hs & _ & ->)]; [by left|].
    right. split; [done|]. by exists lines.
Qed.

Lemma sale_menu_outcomes_witness :
  match start_sale (H := Console.builtins)
          (Shop.world Shop.app0 ["1"; "A"; "2"; "1"; "B"; "1"; "2"; "1"; "3"; "2"]) with
  | Ok _ w' =>
      app w' = Shop.app0 \/
      exists lines receipt_no,
        lines <> [] /\
        Forall (sellable (inventory Shop.app0)) lines /\
        SalesStore.receipts (sales_store Shop.app0) !! receipt_no = None /\
        SalesStore.lines_of receipt_no (sales_store (app w')) = lines /\
        app w' = committed lines (with_receipt receipt_no lines (sales_store Shop.app0))
                           Shop.app0
  | Raise e w' =>
      ((e = EOFError \/ e = OverflowError) /\ app w' = Shop.app0) \/
      (storage_error e /\
       exists lines,
         Forall (sellable (inventory Shop.app0)) lines /\
         app w' = set_inventory (sold lines (inventory Shop.app0)) Shop.app0)
  end.
Proof.
  apply (sale_menu_outcomes (H := Console.builtins)
           (Shop.world Shop.app0 ["1"; "A"; "2"; "1"; "B"; "1"; "2"; "1"; "3"; "2"])).
  exact wf_shop.
Defined.

(** X18. Adding an item. The inventory is shown and a UPC is read and
    stripped. A UPC the inventory does not have is turned down at once (the
    quantity is not asked for); so is a quantity that is not a number, or not
    positive. Each refusal leaves the sale as it was. Otherwise one line is
    appended, with the item's own UPC, description and price and the quantity
    typed, and the running total of the longer sale is printed, unless that
    total overflows. The application is not touched. *)
Theorem add_item_checks `{Builtins} lines w s1 rest :
  stdin w = s1 :: rest ->
  let shown := stdout w ++ [InventoryTable (inventory (app w))] in
  add_item lines w
  = match inventory (app w) !! str_strip s1 with
    | None => Ok lines {| app := app w; stdin := rest; stdout := shown ++ [UpcNotFound] |}
    | Some item =>
        match rest with
        | [] => Raise EOFError {| app := app w; stdin := []; stdout := shown |}
        | s2 :: rest' =>
            match int_of_str s2 with
            | None =>
                Ok lines {| app := app w; stdin := rest';
                            stdout := shown ++ [QtyMustBeNumber] |}
            | Some qty =>
                if decide (qty <= 0) then
                  Ok lines {| app := app w; stdin := rest';
                              stdout := shown ++ [QtyMustBePositive] |}
                else
                  let lines' :=
                    lines ++ [SaleLine.mk (Item.upc item) (Item.description item)
                                          (Item.unit_price item) qty] in
                  match total_of lines' with
                  | Some total =>
                      Ok lines' {| app := app w; stdin := rest';
                                   stdout := shown ++ [RunningTotal total] |}
                  | None =>
                      Raise OverflowError {| app := app w; stdin := rest'; stdout := shown |}
                  end
            end
        end
    end.
Proof.
  intros Hin. cbv zeta. unfold add_item, show_inventory.
  cbv beta iota delta [bind get print modify ret].
  rewrite (input_cons _ s1 rest) by done. simpl.
  destruct (inventory (app w) !! str_strip s1) as [item|]; [|done].
  unfold try_or_print, try_except. cbv beta iota delta [bind].
  destruct rest as [|s2 rest']; [by rewrite int_input_nil|].
  rewrite (int_input_cons _ s2 rest') by done.
  destruct (int_of_str s2) as [qty|]; simpl; [|done].
  destruct (decide (qty <= 0)) as [Hq|Hq].
  - apply Z.leb_le in Hq. by rewrite Hq.
  - assert ((qty <=? 0) = false) as -> by (apply Z.leb_gt; lia). unfold calc_total.
    by destruct (total_of _).
Qed.

Lemma add_item_checks_witness :
  add_item (H := Console.builtins) [] (Shop.world Shop.app0 [" B "; "3"; "x"])
  = Ok [Shop.line Shop.bread 3]
       {| app := Shop.app0; stdin := ["x"];
          stdout := [InventoryTable (inventory Shop.app0); RunningTotal 6] |}.
Proof.
  rewrite (add_item_checks (H := Console.builtins) [] (Shop.world Shop.app0 [" B "; "3"; "x"])
             " B " ["3"; "x"] eq_refl).
  vm_compute. reflexivity.
Defined.

(** X19. Removing a line. The lines are listed and a line number is read.
    The numbers from 1 to the number of lines remove the line so numbered; 0
    and the negative numbers remove from the end (0 removes the last line),
    because the program subtracts one and hands the result to [list.pop].
    Any other number, and anything that is not a number, is answered with
    "Invalid selection." and removes nothing. Either way the running total of
    what is left is printed, and the application is not touched. *)
Theorem remove_item_line_numbers `{Builtins} lines w s rest :
  lines <> [] ->
  stdin w = s :: rest ->
  let picked := int_of_str s ≫= line_index (Z.of_nat (length lines)) in
  let lines' := match picked with Some i => delete i lines | None => lines end in
  let said := stdout w ++ listing SaleLineListing 1 lines
              ++ match picked with Some _ => [] | None => [InvalidSelection] end in
  remove_item lines w
  = match total_of lines' with
    | Some total =>
        Ok lines' {| app := app w; stdin := rest; stdout := said ++ [RunningTotal total] |}
    | None => Raise OverflowError {| app := app w; stdin := rest; stdout := said |}
    end.
Proof.
  intros Hne Hin. cbv zeta. unfold remove_item.
  destruct lines as [|l0 lines0]; [done|].
  remember (l0 :: lines0) as lines eqn:E. clear E Hne.
  cbv beta iota delta [bind]. rewrite print_lines_spec.
  unfold try_or_print, try_except. cbv beta iota delta [bind].
  rewrite (int_input_cons _ s rest) by done.
  destruct (int_of_str s) as [n|]; simpl.
  - rewrite py_pop_line.
    destruct (line_index (Z.of_nat (length lines)) n) as [i|]; simpl;
      unfold calc_total; destruct (total_of _); simpl;
      unfold put_msgs, put_msg, set_stdin; simpl; by rewrite ?app_nil_r, <- ?app_assoc.
  - unfold calc_total; destruct (total_of _); simpl;
      unfold put_msgs, put_msg, set_stdin; simpl; by rewrite <- ?app_assoc.
Qed.

Lemma remove_item_line_numbers_witness :
  remove_item (H := Console.builtins)
    [Shop.line Shop.apple 1; Shop.line Shop.bread 2; Shop.line Shop.apple 3]
    (Shop.world Shop.app0 ["0"])
  = Ok [Shop.line Shop.apple 1; Shop.line Shop.bread 2]
       {| app := Shop.app0; stdin := [];
          stdout := [SaleLineListing 1 (Shop.line Shop.apple 1);
                     SaleLineListing 2 (Shop.line Shop.bread 2);
                     SaleLineListing 3 (Shop.line Shop.apple 3);
                     RunningTotal 6] |}.
Proof.
  rewrite (remove_item_line_numbers (H := Console.builtins)
             [Shop.line Shop.apple 1; Shop.line Shop.bread 2; Shop.line Shop.apple 3]
             (Shop.world Shop.app0 ["0"]) "0" []); [|done|reflexivity].
  vm_compute. reflexivity.
Defined.

(** ** The return menu, line by line *)

(** X20. What [process_return] does with the receipt number typed. If it
    is not a number: "Invalid receipt number." If no receipt has it:
    "Receipt not found." In both cases the method returns and nothing but the
    console has changed. A number that does not fit an SQLite INTEGER is not
    caught: the [OverflowError] of the database binding ends the method. With
    no line left on the console [EOFError] gets out. Once the receipt is
    found and is not canceled, an option other than 1 and 2 is answered with
    "Invalid option." and changes nothing. *)
Theorem process_return_rejections `{Builtins} w :
  (stdin w = [] -> process_return w = Raise EOFError w) /\
  (forall s rest,
      stdin w = s :: rest ->
      match int_of_str s with
      | None => process_return w = Ok tt (put_msg InvalidReceiptNumber (set_stdin rest w))
      | Some receipt_no =>
          if sqlite_int receipt_no then
            match SalesStore.receipts (sales_store (app w)) !! receipt_no with
            | None => process_return w = Ok tt (put_msg ReceiptNotFound (set_stdin rest w))
            | Some true =>
                process_return w = Ok tt (put_msg AlreadyCanceled (set_stdin rest w))
            | Some false =>
                match rest with
                | [] =>
                    process_return w
                    = Raise EOFError (put_msg ReturnOptions (set_stdin rest w))
                | s2 :: rest' =>
                    str_strip s2 <> "1" -> str_strip s2 <> "2" ->
                    process_return w
                    = Ok tt (put_msgs [ReturnOptions; InvalidOption] (set_stdin rest' w))
                end
            end
          else process_return w = Raise OverflowError (set_stdin rest w)
      end).
Proof.
  split.
  { intros Hin. unfold process_return, try_or_print, try_except.
    cbv beta iota delta [bind]. by rewrite (int_input_nil _ Hin). }
  intros s rest Hin.
  destruct (int_of_str s) as [receipt_no|] eqn:Hs.
  2:{ unfold process_return, try_or_print, try_except. cbv beta iota delta [bind].
      by rewrite (int_input_cons _ _ _ Hin), Hs. }
  destruct (sqlite_int receipt_no) eqn:Hi.
  2:{ unfold process_return, try_or_print, try_except. cbv beta iota delta [bind].
      rewrite (int_input_cons _ _ _ Hin), Hs. cbv beta iota delta [ret].
      rewrite on_app_on_store. simpl. unfold SalesStore.get_receipt. rewrite Hi. simpl.
      by rewrite set_sales_store_sales_store. }
  destruct (SalesStore.receipts (sales_store (app w)) !! receipt_no) as [canceled|] eqn:Hr.
  2:{ unfold process_return, try_or_print, try_except. cbv beta iota delta [bind].
      rewrite (int_input_cons _ _ _ Hin), Hs. cbv beta iota delta [ret].
      rewrite on_app_on_store. simpl. unfold SalesStore.get_receipt. rewrite Hi, Hr. simpl.
      by rewrite set_sales_store_sales_store. }
  rewrite (process_return_found _ _ _ _ _ Hin Hs Hi Hr).
  destruct canceled; [done|].
  unfold return_menu. cbv beta iota delta [bind print modify].
  destruct rest as [|s2 rest'].
  - by rewrite input_nil.
  - intros H1 H2. rewrite (input_cons _ s2 rest') by done.
    rewrite decide_False by done. rewrite decide_False by done.
    unfold put_msgs, put_msg, set_stdin. simpl. by rewrite <- app_assoc.
Qed.

Lemma process_return_rejections_witness :
  process_return (H := Console.builtins) (Shop.world Scenario.sold3 ["7"; "1"])
  = Ok tt {| app := Scenario.sold3; stdin := ["1"]; stdout := [ReceiptNotFound] |} /\
  process_return (H := Console.builtins)
    (Shop.world Scenario.sold3 ["9223372036854775808"; "1"])
  = Raise OverflowError {| app := Scenario.sold3; stdin := ["1"]; stdout := [] |}.
Proof.
  destruct (process_return_rejections (H := Console.builtins)
              (Shop.world Scenario.sold3 ["7"; "1"])) as [_ Hmissing].
  destruct (process_return_rejections (H := Console.builtins)
              (Shop.world Scenario.sold3 ["9223372036854775808"; "1"])) as [_ Hhuge].
  split.
  - exact (Hmissing "7" ["1"] eq_refl).
  - exact (Hhuge "9223372036854775808" ["1"] eq_refl).
Defined.

(** X21. Picking the line of a partial return. The lines of the receipt
    are listed and a line number is read. As at the sale menu, 1 to the
    number of lines pick the line so numbered, and 0 and the negative numbers
    pick from the end. A number outside that range is answered with "Invalid
    input." before any quantity is asked for: the next console line is left
    unread and nothing is changed. *)
Theorem return_line_numbers `{Builtins} w s1 s2 s3 rest receipt_no n :
  wf (app w) ->
  stdin w = s1 :: s2 :: s3 :: rest ->
  int_of_str s1 = Some receipt_no ->
  str_strip s2 = "2" ->
  int_of_str s3 = Some n ->
  SalesStore.receipts (sales_store (app w)) !! receipt_no = Some false ->
  let lines := SalesStore.lines_of receipt_no (sales_store (app w)) in
  match line_index (Z.of_nat (length lines)) n with
  | None =>
      process_return w
      = Ok tt {| app := app w; stdin := rest;
                 stdout := stdout w ++ [ReturnOptions]
                           ++ listing ReturnLineListing 1 lines ++ [InvalidInput] |}
  | Some i =>
      exists line it,
        lines !! i = Some line /\
        inventory (app w) !! SaleLine.upc line = Some it /\
        forall s4 rest' return_qty,
          rest = s4 :: rest' ->
          int_of_str s4 = Some return_qty ->
          0 < return_qty <= SaleLine.qty line ->
          process_return w
          = Ok tt {| app := returned_one receipt_no line return_qty it (app w);
                     stdin := rest';
                     stdout := stdout w ++ [ReturnOptions]
                               ++ listing ReturnLineListing 1 lines
                               ++ [PartialReturnCompleted] |}
  end.
Proof.
  intros Hwf Hin Hs1 Hs2 Hs3 Hr. cbv zeta.
  assert (Hi : sqlite_int receipt_no = true) by (by eapply wf_rowid).
  set (lines := SalesStore.lines_of receipt_no (sales_store (app w))).
  pose proof (py_getitem_line lines n) as Hget.
  destruct (line_index (Z.of_nat (length lines)) n) as [i|] eqn:Hidx; simpl in Hget.
  - destruct (lines !! i) as [line|] eqn:Hline.
    2:{ apply line_index_lt in Hidx. apply lookup_ge_None in Hline. lia. }
    apply py_getitem_elem in Hget as Hel. apply lines_of_elem in Hel.
    destruct (wf_known _ Hwf _ _ Hel) as [it Hit].
    exists line, it. split; [done|]. split; [done|].
    intros s4 rest' return_qty -> Hs4 Hq.
    destruct (process_return_one w s1 s2 s3 s4 rest' receipt_no n line return_qty)
      as (it' & Hit' & ->); try done.
    assert (it' = it) as -> by congruence.
    assert ((return_qty <=? 0) || (SaleLine.qty line <? return_qty) = false) as ->; [|done].
    apply orb_false_iff. rewrite Z.leb_gt, Z.ltb_ge. lia.
  - rewrite (process_return_found _ _ _ _ _ Hin Hs1 Hi Hr).
    unfold return_menu. cbv beta iota delta [bind print modify].
    rewrite (input_cons _ s2 (s3 :: rest)) by done. rewrite Hs2. simpl.
    unfold return_one. cbv beta iota delta [bind].
    rewrite print_lines_spec.
    unfold try_or_print, try_except. cbv beta iota delta [bind].
    rewrite (int_input_cons _ s3 rest) by done. rewrite Hs3.
    fold lines. rewrite Hget. simpl.
    unfold put_msgs, put_msg, set_stdin. simpl. by rewrite <- !app_assoc.
Qed.

Lemma return_line_numbers_witness :
  exists line it,
    SalesStore.lines_of 1 (sales_store Scenario.sold1and5) !! 1%nat = Some line /\
    inventory Scenario.sold1and5 !! SaleLine.upc line = Some it /\
    process_return (H := Console.builtins)
      (Shop.world Scenario.sold1and5 ["1"; "2"; "0"; "5"])
    = Ok tt {| app := returned_one 1 line 5 it Scenario.sold1and5;
               stdin := [];
               stdout := [ReturnOptions]
                         ++ listing ReturnLineListing 1
                              (SalesStore.lines_of 1 (sales_store Scenario.sold1and5))
                         ++ [PartialReturnCompleted] |}.
Proof.
  pose proof (return_line_numbers (H := Console.builtins)
                (Shop.world Scenario.sold1and5 ["1"; "2"; "0"; "5"])
                "1" "2" "0" ["5"] 1 0 wf_sold1and5 eq_refl) as Hpick.
  cbv zeta in Hpick.
  assert (Hidx : line_index
                   (Z.of_nat (length (SalesStore.lines_of 1
                      (sales_store (app (Shop.world Scenario.sold1and5 ["1"; "2"; "0"; "5"]))))))
                   0 = Some 1%nat) by (vm_compute; reflexivity).
  rewrite Hidx in Hpick.
  destruct Hpick as (line & it & Hline & Hit & Hrun);
    [vm_compute; reflexivity | vm_compute; reflexivity | vm_compute; reflexivity
     | vm_compute; reflexivity |].
  exists line, it. split; [exact Hline|]. split; [exact Hit|].
  apply (Hrun "5" [] 5); [reflexivity | vm_compute; reflexivity |].
  assert (line = Shop.line Shop.apple 5) as ->.
  { assert (Some line = Some (Shop.line Shop.apple 5)) as [= ->]; [|done].
    rewrite <- Hline. vm_compute. reflexivity. }
  simpl. lia.
Defined.

(** X22. A partial return from a receipt that lists every item once. The
    line picked keeps what is left of its quantity, or is deleted when
    nothing is left; every other line of the receipt stays as it was; the
    receipt still lists every item once. The units that leave the receipt are
    the units that come back to the stock. *)
Theorem partial_return_on_distinct_items `{Builtins}
    w s1 s2 s3 s4 rest receipt_no n i line return_qty :
  wf (app w) ->
  stdin w = s1 :: s2 :: s3 :: s4 :: rest ->
  int_of_str s1 = Some receipt_no ->
  str_strip s2 = "2" ->
  int_of_str s3 = Some n ->
  int_of_str s4 = Some return_qty ->
  SalesStore.receipts (sales_store (app w)) !! receipt_no = Some false ->
  let lines := SalesStore.lines_of receipt_no (sales_store (app w)) in
  NoDup (SaleLine.upc <$> lines) ->
  line_index (Z.of_nat (length lines)) n = Some i ->
  lines !! i = Some line ->
  0 < return_qty <= SaleLine.qty line ->
  exists w',
    process_return w = Ok tt w' /\
    let lines' := SalesStore.lines_of receipt_no (sales_store (app w')) in
    lines' = (if decide (return_qty = SaleLine.qty line) then delete i lines
              else <[i := SaleLine.with_qty line (SaleLine.qty line - return_qty)]> lines) /\
    NoDup (SaleLine.upc <$> lines') /\
    total_units lines' = total_units lines - return_qty /\
    stock (inventory (app w')) = stock (inventory (app w)) + return_qty.
Proof.
  intros Hwf Hin Hs1 Hs2 Hs3 Hs4 Hr. cbv zeta.
  set (lines := SalesStore.lines_of receipt_no (sales_store (app w))).
  intros Hnd Hidx Hi Hq.
  assert (Hget : py_getitem lines (n - 1) = Some line).
  { rewrite py_getitem_line, Hidx. done. }
  destruct (process_return_one w s1 s2 s3 s4 rest receipt_no n line return_qty)
    as (it & Hit & Hrun); try done.
  assert ((return_qty <=? 0) || (SaleLine.qty line <? return_qty) = false) as Hok.
  { apply orb_false_iff. rewrite Z.leb_gt, Z.ltb_ge. lia. }
  rewrite Hok in Hrun. eexists. split; [exact Hrun|]. cbn [app].
  assert (Hlines :
    SalesStore.lines_of receipt_no
      (sales_store (returned_one receipt_no line return_qty it (app w)))
    = if decide (return_qty = SaleLine.qty line) then delete i lines
      else <[i := SaleLine.with_qty line (SaleLine.qty line - return_qty)]> lines).
  { simpl. rewrite lines_of_line_updated. fold lines.
    rewrite (lines_with_qty_distinct _ _ i line) by done.
    destruct (decide (return_qty = SaleLine.qty line)) as [->|Hne].
    - by rewrite Z.sub_diag.
    - by assert ((SaleLine.qty line - return_qty <=? 0) = false) as ->
        by (apply Z.leb_gt; lia). }
  rewrite Hlines. split; [done|]. split; [|split].
  - destruct (decide _).
    + apply (sublist_NoDup _ (SaleLine.upc <$> lines)); [exact Hnd|].
      apply fmap_sublist, sublist_delete.
    + by rewrite upcs_insert_with_qty.
  - destruct (decide _) as [->|_].
    + by apply total_units_delete.
    + rewrite (total_units_insert _ _ line) by done. simpl. lia.
  - simpl. rewrite (stock_insert _ _ it) by done. simpl. lia.
Qed.

Lemma partial_return_on_distinct_items_witness :
  exists w',
    process_return (H := Console.builtins)
      (Shop.world Basket.sold ["1"; "2"; "1"; "1"]) = Ok tt w' /\
    SalesStore.lines_of 1 (sales_store (app w'))
    = [Shop.line Shop.bread 1; Shop.line Shop.apple 3] /\
    stock (inventory (app w')) = stock (inventory Basket.sold) + 1.
Proof.
  assert (Hwf : wf Basket.sold).
  { apply wf_after_sale.
    - repeat constructor; by eexists.
    - repeat constructor.
    - vm_compute. reflexivity. }
  destruct (partial_return_on_distinct_items (H := Console.builtins)
              (Shop.world Basket.sold ["1"; "2"; "1"; "1"]) "1" "2" "1" "1" [] 1 1 0%nat
              (Shop.line Shop.bread 2) 1 Hwf)
    as (w' & Hrun & Hlines & _ & _ & Hstock);
    [reflexivity | vm_compute; reflexivity | vm_compute; reflexivity
     | vm_compute; reflexivity | vm_compute; reflexivity | vm_compute; reflexivity
     | compute_done | vm_compute; reflexivity
     | vm_compute; reflexivity | simpl; lia |].
  exists w'. split; [exact Hrun|]. split; [|exact Hstock].
  rewrite Hlines. vm_compute. reflexivity.
Defined.

(** X23. A full return stops half-way on a receipt that names an item the
    inventory does not have (the database outlives the inventory file it was
    written with). The lines listed before that item are restocked in memory,
    [KeyError] ends the method, and the receipt is not canceled nor the
    inventory file rewritten: asked again, the same return restocks the same
    lines once more. *)
Theorem full_return_of_unlisted_item `{Builtins} w s1 s2 rest receipt_no before l after :
  stdin w = s1 :: s2 :: rest ->
  int_of_str s1 = Some receipt_no ->
  sqlite_int receipt_no = true ->
  str_strip s2 = "1" ->
  SalesStore.receipts (sales_store (app w)) !! receipt_no = Some false ->
  SalesStore.lines_of receipt_no (sales_store (app w)) = before ++ l :: after ->
  Forall (known (inventory (app w))) before ->
  inventory (app w) !! SaleLine.upc l = None ->
  process_return w
  = Raise KeyError
      {| app := set_inventory (restocked before (inventory (app w))) (app w);
         stdin := rest;
         stdout := stdout w ++ [ReturnOptions] |}.
Proof.
  intros Hin Hs1 Hi Hs2 Hr Hlines Hbefore Hl.
  rewrite (process_return_found _ _ _ _ _ Hin Hs1 Hi Hr). rewrite Hlines.
  unfold return_menu. cbv beta iota delta [bind print modify].
  rewrite (input_cons _ s2 rest) by done. rewrite Hs2. simpl.
  unfold return_all. unfold bind at 1. unfold bind at 1.
  rewrite for_each_return, for_each_app. unfold bind at 1.
  rewrite for_each_move_stock by done. simpl.
  unfold bind at 1. unfold move_stock at 1, on_app at 1, update_on_hand at 1. simpl.
  rewrite lookup_shift_stock, Hl. simpl. done.
Qed.

Lemma full_return_of_unlisted_item_witness :
  process_return (H := Console.builtins) (Shop.world Basket.stale ["1"; "1"])
  = Raise KeyError
      {| app := set_inventory {["B" := Shop.bread]} Basket.stale;
         stdin := [];
         stdout := [ReturnOptions] |}.
Proof.
  rewrite (full_return_of_unlisted_item (H := Console.builtins)
             (Shop.world Basket.stale ["1"; "1"]) "1" "1" [] 1
             [Shop.line Shop.bread 2] (Shop.line Shop.apple 3) []);
    [| reflexivity | vm_compute; reflexivity | reflexivity | vm_compute; reflexivity
     | vm_compute; reflexivity | vm_compute; reflexivity
     | repeat constructor; by eexists | vm_compute; reflexivity].
  vm_compute. reflexivity.
Defined.

(** ** The demo *)

(** X24. With stock of its first item, a price that is a number and room in
    the receipt store, [demo] runs to "DEMO COMPLETE". It leaves the users,
    the inventory and the inventory file as they were before (the unit sold
    is put back), and the application well-formed. It leaves one new receipt
    behind, under the next receipt number: not canceled, and with no line,
    since returning the unit deleted the receipt's only line. Every other
    receipt reads back as before. *)
Theorem demo_sells_and_returns_one `{Builtins} order p out first others :
  wf p ->
  in_sync p ->
  omap (fun upc => inventory p !! upc) order = first :: others ->
  0 < Item.on_hand first ->
  PrimFloat.is_nan (Item.unit_price first) = false ->
  last_rowid (sales_store p) < int64_max ->
  let receipt_no := last_rowid (sales_store p) + 1 in
  let total := float_sum [(Item.unit_price first * 1)%float] in
  exists p',
    demo order {| demo_app := p; demo_out := out |}
    = Ok tt {| demo_app := p';
               demo_out :=
                 out ++ demo_opening (first :: others)
                     ++ [DemoSale 1 (Item.description first) total (total + 1)
                                  (total + 1 - total);
                         DemoReceipt receipt_no;
                         DemoReturn (Item.description first) receipt_no;
                         DemoComplete] |} /\
    wf p' /\
    users p' = users p /\
    inventory p' = inventory p /\
    inventory_csv p' = inventory_csv p /\
    SalesStore.receipts (sales_store p) !! receipt_no = None /\
    SalesStore.get_receipt receipt_no (sales_store p')
    = Ok (false, []) (sales_store p') /\
    (forall n, n <> receipt_no ->
       SalesStore.get_receipt n (sales_store p')
       = answer_in (sales_store p') (SalesStore.get_receipt n (sales_store p))).
Proof.
  intros Hwf Hsync Hvalues Hstock Hnan Hfull. cbv zeta.
  pose proof (first_value_filed p order first others (wf_upc _ Hwf) Hvalues) as Hfirst.
  set (receipt_no := last_rowid (sales_store p) + 1).
  set (s1 := with_receipt receipt_no [one_of first] (sales_store p)).
  set (sale := committed [one_of first] s1 p).
  destruct (with_receipt_fresh p receipt_no [one_of first] Hwf eq_refl) as [Hfresh Hlines].
  assert (Hrows : SalesStore.executemany_error [one_of first] = None).
  { simpl. unfold SalesStore.insert_error. simpl. by rewrite Hnan. }
  assert (Hi : sqlite_int receipt_no = true).
  { apply sqlite_int_spec. pose proof (last_rowid_nonneg (sales_store p)).
    unfold receipt_no, int64_max in *. lia. }
  assert (Hsale : wf sale).
  { apply (wf_committed _ receipt_no); [done| | |by apply create_receipt_succeeds].
    - repeat constructor. unfold known. simpl. by rewrite Hfirst.
    - repeat constructor. }
  assert (Hit : inventory sale !! Item.upc first = Some (Item.update_on_hand first (- 1))).
  { unfold sale. simpl. by rewrite <- sold_one_of, lookup_insert_eq. }
  eexists. split; [by apply demo_runs|].
  fold receipt_no. fold s1. fold sale.
  split; [|split; [done|split; [|split; [|split; [done|split]]]]].
  - apply (wf_return_effect receipt_no sale); [done|].
    apply (effect_one _ _ _ (SalesStore.stored (one_of first)) 1); [|simpl; lia|done].
    unfold sale. simpl. fold s1. unfold s1. rewrite Hlines. left.
  - unfold returned_one, sale. simpl. rewrite <- sold_one_of by done.
    rewrite insert_insert_eq, update_on_hand_twice, update_on_hand_0.
    by apply insert_id.
  - unfold returned_one, sale. simpl. rewrite <- sold_one_of by done.
    rewrite insert_insert_eq, update_on_hand_twice, update_on_hand_0.
    rewrite Hsync. by apply insert_id.
  - rewrite (get_receipt_Ok _ _ false); [|done|simpl; apply lookup_insert_eq].
    f_equal. f_equal. simpl. rewrite lines_of_line_updated.
    fold s1. unfold s1. rewrite Hlines. unfold lines_with_qty.
    change (0 <=? 0) with true. cbv iota. rewrite list_fmap_singleton.
    by rewrite filter_cons_False by (simpl; intros Hne; by apply Hne).
  - intros n Hn. unfold SalesStore.get_receipt.
    destruct (negb (sqlite_int n)); [done|]. simpl.
    rewrite lookup_insert_ne by done.
    destruct (SalesStore.receipts (sales_store p) !! n); [|done]. simpl.
    rewrite lines_of_line_updated_other by done.
    fold s1. unfold s1. by rewrite lines_of_with_receipt_old.
Qed.

Lemma demo_sells_and_returns_one_witness :
  exists p',
    demo (H := Console.builtins) ["A"; "B"] {| demo_app := Shop.app0; demo_out := [] |}
    = Ok tt {| demo_app := p';
               demo_out := [DemoMode; SampleCount 2; SampleItem Shop.apple;
                            SampleItem Shop.bread; DemoSale 1 "Apple" 2 3 1;
                            DemoReceipt 1; DemoReturn "Apple" 1; DemoComplete] |} /\
    inventory p' = inventory Shop.app0 /\
    SalesStore.get_receipt 1 (sales_store p') = Ok (false, []) (sales_store p').
Proof.
  destruct (demo_sells_and_returns_one (H := Console.builtins) ["A"; "B"] Shop.app0 []
              Shop.apple [Shop.bread] wf_shop)
    as (p' & Hrun & _ & _ & Hinv & _ & _ & Hget & _);
    [reflexivity | vm_compute; reflexivity | simpl; lia | vm_compute; reflexivity
     | vm_compute; reflexivity |].
  exists p'. split; [|split; [exact Hinv|exact Hget]].
  rewrite Hrun. vm_compute. reflexivity.
Defined.

(** X25. Where [demo] stops short. On an empty inventory it prints the
    banner and a sample count of 0 and then raises [IndexError], having
    changed nothing. If the first item has no stock it says so and returns,
    having changed nothing. If the receipt store refuses the sale, the
    exception ends the demo after the unit has been taken out of the stock in
    memory: it is not put back, and no receipt is stored. *)
Theorem demo_stops_short `{Builtins} order p out :
  let values := omap (fun upc => inventory p !! upc) order in
  let opened := out ++ demo_opening values in
  (values = [] ->
   demo order {| demo_app := p; demo_out := out |}
   = Raise IndexError {| demo_app := p; demo_out := out ++ [DemoMode; SampleCount 0] |}) /\
  (forall first others,
      values = first :: others ->
      Item.on_hand first <= 0 ->
      demo order {| demo_app := p; demo_out := out |}
      = Ok tt {| demo_app := p; demo_out := opened ++ [DemoOutOfStock] |}) /\
  (forall first others e s',
      filed_by_upc (inventory p) ->
      values = first :: others ->
      0 < Item.on_hand first ->
      SalesStore.create_receipt [one_of first] (sales_store p) = Raise e s' ->
      demo order {| demo_app := p; demo_out := out |}
      = Raise e {| demo_app := set_inventory (sold [one_of first] (inventory p)) p;
                   demo_out := opened |}).
Proof.
  cbv zeta. split; [|split].
  - intros Hvalues. rewrite demo_opening_spec. cbv zeta. by rewrite Hvalues.
  - intros first others Hvalues Hstock. rewrite demo_opening_spec. cbv zeta. rewrite Hvalues.
    by assert ((Item.on_hand first <=? 0) = true) as -> by (apply Z.leb_le; lia).
  - intros first others e s' Hupc Hvalues Hstock Hcr.
    pose proof (first_value_filed p order first others Hupc Hvalues) as Hfirst.
    rewrite demo_opening_spec. cbv zeta. rewrite Hvalues.
    assert ((Item.on_hand first <=? 0) = false) as -> by (apply Z.leb_gt; lia).
    unfold calc_total. rewrite total_of_one_of.
    cbv beta iota zeta delta [bind ret].
    unfold on_demo_app at 1, update_on_hand at 1. cbn [demo_app demo_out]. rewrite Hfirst.
    cbn [demo_app demo_out].
    unfold on_demo_app at 1, on_store at 1. cbn [demo_app demo_out sales_store set_inventory].
    rewrite Hcr. apply create_receipt_Raise in Hcr as ->.
    cbn [demo_app demo_out]. f_equal. f_equal.
    unfold set_sales_store, set_inventory. simpl. by rewrite sold_one_of.
Qed.

Lemma demo_stops_short_witness :
  demo (H := Console.builtins) ["A"; "B"]
    {| demo_app := set_inventory ∅ Shop.app0; demo_out := [] |}
  = Raise IndexError {| demo_app := set_inventory ∅ Shop.app0;
                        demo_out := [DemoMode; SampleCount 0] |}.
Proof.
  destruct (demo_stops_short (H := Console.builtins) ["A"; "B"]
              (set_inventory ∅ Shop.app0) []) as [Hempty _].
  apply Hempty. reflexivity.
Defined.
